(** * Freeze/thaw of continuation stack chunks on x86_64

    A shallow embedding of the platform-dependent part of the continuation
    freeze/thaw engine, and of the JVMTI functions of [jvmtiEnvBase.cpp]
    that walk stacks, keep the list of environments and collect monitors:

    - [src/hotspot/cpu/x86/continuation_x86.inline.hpp]
    - [src/hotspot/cpu/x86/instanceStackChunkKlass_x86.inline.hpp]
    - [src/hotspot/cpu/aarch64/smallRegisterMap_aarch64.inline.hpp]
    - [src/hotspot/share/prims/jvmtiEnvBase.cpp]

    The code manipulates raw stack words through [intptr_t*] pointers.  A
    pointer is modelled by its byte address, an [intptr_t] by a [Z] in the
    signed 64-bit range, and every arithmetic operation of the code by the
    machine operation it compiles to on an LP64 target, wrap-around
    included. *)

From Stdlib Require Import ZArith Lia Bool List String.
From stdpp Require Import base option gmap.

Local Open Scope Z_scope.

(** ** Machine words and pointer arithmetic *)

(** [wordSize] and [LogBytesPerWord] of an LP64 build. *)
Definition wordSize : Z := 8.
Definition LogBytesPerWord : Z := 3.

(** The value of a mathematical integer once it is held in an [intptr_t]. *)
Definition intptr_wrap (z : Z) : Z := (z + 2 ^ 63) mod 2 ^ 64 - 2 ^ 63.

Definition is_intptr (z : Z) : Prop := - 2 ^ 63 <= z < 2 ^ 63.

(** The bit pattern of a pointer, as pointer comparisons see it. *)
Definition ptr_unsigned (p : Z) : Z := p mod 2 ^ 64.

(** [p + n] and [p - n] for [intptr_t* p]: the address moves by [n] words. *)
Definition ptr_plus (p n : Z) : Z := intptr_wrap (p + wordSize * n).
Definition ptr_minus (p n : Z) : Z := intptr_wrap (p - wordSize * n).

(** [p - q] for two [intptr_t*]: the byte distance shifted right
    arithmetically by [LogBytesPerWord]. *)
Definition ptr_diff (p q : Z) : Z := Z.shiftr (intptr_wrap (p - q)) LogBytesPerWord.

(** [p >= q] on pointers. *)
Definition ptr_geb (p q : Z) : bool := ptr_unsigned q <=? ptr_unsigned p.

(** A pointer that is a multiple of the word size. *)
Definition word_aligned (p : Z) : Prop := p mod wordSize = 0.

(** ** Memory

    Stack and chunk memory as the code sees it: one [intptr_t] per word
    address.  [*p] is [load], [*p = v] is [store].  Every access of the code
    goes through an [intptr_t*] and reads or writes one whole word. *)
Definition memory : Type := Z -> Z.

Definition load (m : memory) (addr : Z) : Z := m addr.

Definition store (m : memory) (addr v : Z) : memory :=
  fun a => if a =? addr then v else m a.

(** ** Frames *)

(** [class frame]: the fields its seven-argument constructor
    [frame(sp, unextended_sp, fp, pc, cb, oop_map, relative)] receives.
    [cb] and [oop_map] are pointers ([0] is [nullptr]). *)
Record frame : Type := mk_frame {
  sp : Z;
  unextended_sp : Z;
  fp : Z;
  pc : Z;
  cb : Z;
  oop_map : Z;
  relative : bool
}.

Definition nullptr : Z := 0.

(** [caller.set_sp(v)]. *)
Definition set_sp (f : frame) (v : Z) : frame :=
  mk_frame v (unextended_sp f) (fp f) (pc f) (cb f) (oop_map f) (relative f).

(** [f.addr_at(index)] is [&fp()[index]] and [f.at(index)] reads it. *)
Definition addr_at (f : frame) (index : Z) : Z := ptr_plus (fp f) index.
Definition at_ (m : memory) (f : frame) (index : Z) : Z := load m (addr_at f index).

(** The frame-layout constants of [frame_x86.hpp] that the code refers to. *)
Class FrameLayout : Type := {
  sender_sp_offset : Z;
  link_offset : Z;
  sender_sp_ret_address_offset : Z;
  interpreter_frame_sender_sp_offset : Z;
  interpreter_frame_last_sp_offset : Z;
  interpreter_frame_locals_offset : Z;
  interpreter_frame_initial_sp_offset : Z
}.

(** ** continuation_x86.inline.hpp: relativization *)

(** [static inline void relativize_one(intptr_t* const vfp, intptr_t* const hfp, int offset)] *)
Definition relativize_one (vfp hfp offset : Z) (m : memory) : memory :=
  let addr := ptr_plus hfp offset in
  let value := ptr_diff (load m addr) vfp in
  store m addr value.

(** [static inline void derelativize_one(intptr_t* const fp, int offset)] *)
Definition derelativize_one (fp offset : Z) (m : memory) : memory :=
  let addr := ptr_plus fp offset in
  store m addr (ptr_plus fp (load m addr)).

(** [(int)x]: the low 32 bits of [x], signed. *)
Definition int_wrap (z : Z) : Z := (z + 2 ^ 31) mod 2 ^ 32 - 2 ^ 31.

(** [align_down(p, alignment)] of [utilities/align.hpp] for a power of two:
    the low bits are cleared. *)
Definition align_down (p alignment : Z) : Z := Z.land p (Z.lnot (alignment - 1)).

(** The queries on frames, methods and stubs that the code calls and that
    are declared outside these files. *)
Class FrameQueries : Type := {
  (** [f.is_interpreted_frame()] *)
  is_interpreted_frame : frame -> bool;
  (** [f.is_empty()] *)
  is_empty : frame -> bool;
  (** [f.interpreter_frame_method()->max_locals()] *)
  max_locals : frame -> Z;
  (** [Interpreted::stack_argsize(f)] *)
  Interpreted_stack_argsize : frame -> Z;
  (** [hf.compiled_frame_stack_argsize()] *)
  compiled_frame_stack_argsize : frame -> Z;
  (** [Frame::callee_link_address(f)] *)
  callee_link_address : frame -> Z;
  (** [f.cb()->frame_size()] *)
  cb_frame_size : frame -> Z;
  (** [StubRoutines::cont_interpreter_forced_preempt_return()] *)
  cont_interpreter_forced_preempt_return : Z
}.

(** The template parameter [FKind]: the members the code uses. *)
Module FKind.
Record t : Type := mk {
  interpreted : bool;
  size : frame -> Z;
  stack_argsize : frame -> Z
}.
End FKind.

(** [static inline intptr_t** link_address(const frame& f)] *)
Definition link_address `{FrameLayout} `{FrameQueries} (K : FKind.t) (f : frame) : Z :=
  if FKind.interpreted K
  then ptr_plus (fp f) link_offset
  else ptr_minus (ptr_plus (unextended_sp f) (cb_frame_size f)) sender_sp_offset.

(** [static void patch_callee_link(const frame& f, intptr_t* fp)] *)
Definition patch_callee_link `{FrameQueries} (f : frame) (fp : Z) (m : memory) : memory :=
  store m (callee_link_address f) fp.

(** [static void patch_callee_link_relative(const frame& f, intptr_t* fp)] *)
Definition patch_callee_link_relative `{FrameQueries} (f : frame) (fp : Z) (m : memory) : memory :=
  let la := callee_link_address f in
  let new_value := ptr_diff fp la in
  store m la new_value.

Module ContinuationHelper.
Section ContinuationHelper.
Context `{FrameLayout} `{FrameQueries}.

Definition frame_metadata : Z := sender_sp_offset.
Definition align_wiggle : Z := 1.

(** [inline int ContinuationHelper::frame_align_words(int size)], [_LP64] *)
Definition frame_align_words (size : Z) : Z := Z.land size 1.

(** [inline intptr_t* ContinuationHelper::frame_align_pointer(intptr_t* sp)], [_LP64] *)
Definition frame_align_pointer (sp : Z) : Z := align_down sp 16.

(** [inline void ContinuationHelper::push_pd(const frame& f)] *)
Definition push_pd (f : frame) (m : memory) : memory :=
  store m (ptr_minus (sp f) sender_sp_offset) (fp f).

(** [void ContinuationHelper::set_anchor_pd(JavaFrameAnchor* anchor, intptr_t* sp)]:
    the frame pointer handed to [set_last_Java_fp]. *)
Definition set_anchor_pd (sp : Z) (m : memory) : Z :=
  load m (ptr_minus sp sender_sp_offset).
End ContinuationHelper.
End ContinuationHelper.

Module FreezeBase.
Section FreezeBase.
Context `{FrameLayout} `{FrameQueries}.

(** [inline void FreezeBase::relativize_interpreted_frame_metadata(const frame& f, const frame& hf)] *)
Definition relativize_interpreted_frame_metadata (f hf : frame) (m : memory) : memory :=
  let vfp := fp f in
  let hfp := fp hf in
  let m1 := store m (addr_at hf interpreter_frame_last_sp_offset)
                  (ptr_diff (unextended_sp hf) (fp hf)) in
  let m2 := store m1 (addr_at hf interpreter_frame_locals_offset)
                  (sender_sp_offset + max_locals f - 1) in
  relativize_one vfp hfp interpreter_frame_initial_sp_offset m2.
End FreezeBase.
End FreezeBase.

Module Freeze.
Section Freeze.
Context `{FrameLayout} `{FrameQueries}.

(** [Freeze<ConfigT>::set_top_frame_metadata_pd(const frame& hf)] *)
Definition set_top_frame_metadata_pd (hf : frame) (m : memory) : memory :=
  let m1 := store m (ptr_minus (sp hf) 1) (pc hf) in
  let fp_addr := ptr_minus (sp hf) sender_sp_offset in
  store m1 fp_addr
        (if is_interpreted_frame hf then ptr_diff (fp hf) fp_addr else fp hf).

(** [frame Freeze<ConfigT>::new_hframe<FKind>(frame& f, frame& caller)]:
    the new chunk frame, the caller after [set_sp], and the memory. *)
Definition new_hframe (K : FKind.t) (f caller : frame) (m : memory)
  : frame * frame * memory :=
  if FKind.interpreted K then
    let locals := max_locals f in
    let overlap_caller := is_interpreted_frame caller || is_empty caller in
    let fp' := ptr_plus (ptr_minus (unextended_sp caller) (locals + sender_sp_offset))
                        (if overlap_caller then Interpreted_stack_argsize f else 0) in
    let sp' := ptr_minus fp' (ptr_diff (fp f) (unextended_sp f)) in
    let caller' := set_sp caller (ptr_plus fp' sender_sp_offset) in
    let hf := mk_frame sp' sp' fp' (pc f) nullptr nullptr true in
    let m' := store m (addr_at hf interpreter_frame_locals_offset)
                    (sender_sp_offset + locals - 1) in
    (hf, caller', m')
  else
    let fp' := load m (ptr_minus (sp f) sender_sp_offset) in
    let fsize := FKind.size K f in
    let sp0 := ptr_minus (unextended_sp caller) fsize in
    let sp' := if is_interpreted_frame caller
               then ptr_minus sp0 (FKind.stack_argsize K f)
               else sp0 in
    let caller' := set_sp caller (ptr_plus sp' fsize) in
    (mk_frame sp' sp' fp' (pc f) nullptr nullptr false, caller', m).

(** [Freeze<ConfigT>::patch_pd<FKind, bottom>(frame& hf, const frame& caller)] *)
Definition patch_pd (hf caller : frame) (m : memory) : memory :=
  if is_interpreted_frame caller
  then patch_callee_link_relative caller (fp caller) m
  else patch_callee_link caller (fp caller) m.

(** [Freeze<ConfigT>::patch_chunk_pd(intptr_t* vsp, intptr_t* hsp)] *)
Definition patch_chunk_pd (vsp hsp : Z) (m : memory) : memory :=
  store m (ptr_minus vsp sender_sp_offset) (load m (ptr_minus hsp sender_sp_offset)).
End Freeze.
End Freeze.

Module ThawBase.
Section ThawBase.
Context `{FrameLayout}.

(** [inline void ThawBase::derelativize_interpreted_frame_metadata(const frame& hf, const frame& f)] *)
Definition derelativize_interpreted_frame_metadata (hf f : frame) (m : memory) : memory :=
  let vfp := fp f in
  let m1 := derelativize_one vfp interpreter_frame_last_sp_offset m in
  derelativize_one vfp interpreter_frame_initial_sp_offset m1.

(** [inline void ThawBase::set_interpreter_frame_bottom(const frame& f, intptr_t* bottom)] *)
Definition set_interpreter_frame_bottom (f : frame) (bottom : Z) (m : memory) : memory :=
  store m (addr_at f interpreter_frame_locals_offset) (ptr_minus bottom 1).
End ThawBase.
End ThawBase.

Module Thaw.
Section Thaw.
Context `{FrameLayout} `{FrameQueries}.

(** [inline intptr_t* Thaw<ConfigT>::align(const frame& hf, intptr_t* vsp, frame& caller, bool bottom)],
    [_LP64]: the aligned pointer and the caller after [set_sp]. *)
Definition align (hf : frame) (vsp : Z) (caller : frame) (bottom : bool) : Z * frame :=
  if negb (Z.land vsp 15 =? 0)
  then (ptr_minus vsp 1, set_sp caller (ptr_minus (sp caller) 1))
  else (vsp, caller).

(** [frame Thaw<ConfigT>::new_frame<FKind>(const frame& hf, frame& caller, bool bottom)]
    for a kind with [FKind::interpreted] false (the [else] branch):
    the thawed frame and the caller after [set_sp]. *)
Definition new_frame (K : FKind.t) (hf caller : frame) (bottom : bool) (m : memory)
  : frame * frame :=
  let fsize := FKind.size K hf in
  let vsp0 := ptr_minus (unextended_sp caller) fsize in
  let '(vsp, caller1) :=
    if bottom || is_interpreted_frame caller then
      let argsize := compiled_frame_stack_argsize hf in
      let vsp1 := ptr_minus vsp0 argsize in
      let caller0 := set_sp caller (ptr_minus (sp caller) argsize) in
      align hf vsp1 caller0 bottom
    else (vsp0, caller) in
  let fp' := load m (ptr_minus (sp hf) sender_sp_offset) in
  (mk_frame vsp vsp fp' (pc hf) (cb hf) (oop_map hf) false, caller1).

(** [Thaw<ConfigT>::patch_pd<FKind, bottom>(frame& f, const frame& caller)] *)
Definition patch_pd (f caller : frame) (m : memory) : memory :=
  patch_callee_link caller (fp caller) m.

(** [intptr_t* Thaw<ConfigT>::push_interpreter_return_frame(intptr_t* sp)]:
    the returned stack pointer and the memory. *)
Definition push_interpreter_return_frame (sp : Z) (m : memory) : Z * memory :=
  let pc := cont_interpreter_forced_preempt_return in
  let fp := load m (ptr_minus sp sender_sp_offset) in
  let sp1 := ptr_minus sp ContinuationHelper.frame_metadata in
  let m1 := store m (ptr_minus sp1 sender_sp_ret_address_offset) pc in
  let m2 := store m1 (ptr_minus sp1 sender_sp_offset) fp in
  (sp1, m2).

(** [void Thaw<ConfigT>::patch_chunk_pd(intptr_t* sp)], given [_cont.entryFP()]. *)
Definition patch_chunk_pd (entryFP sp : Z) (m : memory) : memory :=
  store m (ptr_minus sp sender_sp_offset) entryFP.
End Thaw.
End Thaw.

(** ** instanceStackChunkKlass_x86.inline.hpp: the frame stream *)

(** [enum class chunk_frames] *)
Inductive chunk_frames : Type := COMPILED_ONLY | MIXED.

Definition is_MIXED (k : chunk_frames) : bool :=
  match k with MIXED => true | COMPILED_ONLY => false end.

(** ** Register maps *)

(** A [VMReg] by its number. *)
Definition VMReg : Type := Z.

(** The frame-pointer register of the platform as a [VMReg]
    ([rbp->as_VMReg()] on x86, [rfp->as_VMReg()] on AArch64) and
    [VMRegImpl::next()]. *)
Class Registers : Type := {
  rbp_VMReg : VMReg;
  VMReg_next : VMReg -> VMReg
}.

Module RegisterMap.

(** Modelled from the spec: the general [RegisterMap] ([runtime/registerMap.hpp]
    is not among the files).  The spec describes it as a "mapping from
    abstract register identity to save location address, built incrementally
    as frames are traversed", with the capabilities [locationOf(reg)] and
    [recordLocation(reg, addr)].  The flags are the ones the code queries:
    [update_map()], [in_cont()], [include_argument_oops()]. *)
Record t : Type := mk {
  _location : gmap Z Z;
  update_map : bool;
  in_cont : bool;
  include_argument_oops : bool
}.

(** Modelled from the spec: [locationOf(reg)], the recorded save location,
    [nullptr] when none was recorded (the code tests
    whether [map->location(r, nullptr)] is [nullptr]). *)
Definition location (map : t) (reg : VMReg) (sp : Z) : Z :=
  default nullptr (_location map !! reg).

(** Modelled from the spec: [recordLocation(reg, addr)]. *)
Definition set_location (map : t) (reg : VMReg) (loc : Z) : t :=
  mk (<[reg := loc]> (_location map)) (update_map map) (in_cont map)
     (include_argument_oops map).

(** Modelled from the spec: [clear()] forgets every recorded location. *)
Definition clear (map : t) : t :=
  mk ∅ (update_map map) (in_cont map) (include_argument_oops map).

(** Modelled from the spec: [set_include_argument_oops(f)] sets the flag. *)
Definition set_include_argument_oops (map : t) (f : bool) : t :=
  mk (_location map) (update_map map) (in_cont map) f.

End RegisterMap.

(** Modelled from the spec: [frame::update_map_with_saved_link(map, link_addr)]
    ([frame_x86.inline.hpp] is not among the files), the "saved-link update":
    it records [link_addr] as the save location of the frame-pointer
    register. *)
Definition update_map_with_saved_link `{Registers}
    (map : RegisterMap.t) (link_addr : Z) : RegisterMap.t :=
  RegisterMap.set_location map rbp_VMReg link_addr.

Module SmallRegisterMap.
Section SmallRegisterMap.
Context `{FrameLayout} `{Registers}.

(** [static void assert_is_rbp(VMReg r) NOT_DEBUG_RETURN DEBUG_ONLY(...)]:
    whether the assertion passes; [ASSERT] tells a debug build. *)
Definition assert_is_rbp (ASSERT : bool) (r : VMReg) : bool :=
  if ASSERT then (r =? rbp_VMReg) || (r =? VMReg_next rbp_VMReg) else true.

(** [inline address location(VMReg reg, intptr_t* sp) const];
    [None] is a failed assertion. *)
Definition location (ASSERT : bool) (reg : VMReg) (sp : Z) : option Z :=
  if assert_is_rbp ASSERT reg then Some (ptr_minus sp sender_sp_offset) else None.

(** [inline void set_location(VMReg reg, address loc)]: nothing is recorded. *)
Definition set_location (ASSERT : bool) (reg : VMReg) (loc : Z) : option unit :=
  if assert_is_rbp ASSERT reg then Some tt else None.

Definition update_map : bool := false.
Definition walk_cont : bool := false.
Definition include_argument_oops : bool := false.
Definition in_cont : bool := false.

(** [RegisterMap* copy_to_RegisterMap(RegisterMap* map, intptr_t* sp) const] *)
Definition copy_to_RegisterMap (map : RegisterMap.t) (sp : Z) : RegisterMap.t :=
  let map1 := RegisterMap.clear map in
  let map2 := RegisterMap.set_include_argument_oops map1 include_argument_oops in
  update_map_with_saved_link map2 (ptr_minus sp sender_sp_offset).

End SmallRegisterMap.
End SmallRegisterMap.

Module StackChunkFrameStream.

(** The cursor: the template parameter [frame_kind] and the fields the code
    reads and writes. *)
Record t : Type := mk {
  frame_kind : chunk_frames;
  _end : Z;
  _sp : Z;
  _unextended_sp : Z;
  _cb : Z;
  _oopmap : Z
}.

(** The members of the stream that the code calls and that are declared in
    [stackChunkFrameStream.hpp]: [is_interpreted()], [sp()],
    [unextended_sp()], [pc()], [cb()]. *)
Class Accessors : Type := {
  is_interpreted : memory -> t -> bool;
  sp_ : t -> Z;
  unextended_sp_ : memory -> t -> Z;
  pc_ : memory -> t -> Z;
  cb_ : t -> Z
}.

(** Modelled from the spec: [is_done()].  The stream "terminates at the
    chunk's recorded end": it is done once the cursor has reached [_end]. *)
Definition is_done (s : t) : bool := ptr_geb (_sp s) (_end s).

Section StackChunkFrameStream.
Context `{FrameLayout} `{Accessors}.

(** [inline address StackChunkFrameStream<frame_kind>::get_pc() const] *)
Definition get_pc (m : memory) (s : t) : Z := load m (ptr_minus (_sp s) 1).

(** [inline intptr_t* StackChunkFrameStream<frame_kind>::fp() const] *)
Definition fp (m : memory) (s : t) : Z :=
  let fp_addr := ptr_minus (_sp s) sender_sp_offset in
  if is_MIXED (frame_kind s) && is_interpreted m s
  then ptr_plus fp_addr (load m fp_addr)
  else load m fp_addr.

(** [inline frame StackChunkFrameStream<frame_kind>::to_frame() const];
    the six-argument constructor leaves [relative] at [false]. *)
Definition to_frame (m : memory) (s : t) : frame :=
  if is_done s then mk_frame (_sp s) (_sp s) nullptr nullptr nullptr nullptr true
  else if is_MIXED (frame_kind s) && negb (is_interpreted m s)
  then mk_frame (sp_ s) (unextended_sp_ m s) (fp m s) (pc_ m s) (cb_ s) (_oopmap s) false
  else mk_frame (sp_ s) (unextended_sp_ m s) (fp m s) (pc_ m s) (cb_ s) (_oopmap s) true.

(** [inline intptr_t* StackChunkFrameStream<frame_kind>::derelativize(int offset) const] *)
Definition derelativize (m : memory) (s : t) (offset : Z) : Z :=
  let fp := fp m s in
  ptr_plus fp (load m (ptr_plus fp offset)).

(** [unextended_sp_for_interpreter_frame() const] *)
Definition unextended_sp_for_interpreter_frame (m : memory) (s : t) : Z :=
  derelativize m s interpreter_frame_last_sp_offset.

(** [intptr_t* StackChunkFrameStream<frame_kind>::next_sp_for_interpreter_frame() const] *)
Definition next_sp_for_interpreter_frame (m : memory) (s : t) : Z :=
  if ptr_geb (ptr_plus (derelativize m s interpreter_frame_locals_offset) 1) (_end s)
  then _end s
  else ptr_plus (fp m s) sender_sp_offset.

(** [inline void StackChunkFrameStream<frame_kind>::next_for_interpreter_frame()] *)
Definition next_for_interpreter_frame (m : memory) (s : t) : t :=
  if ptr_geb (ptr_plus (derelativize m s interpreter_frame_locals_offset) 1) (_end s)
  then mk (frame_kind s) (_end s) (_end s) (_end s) (_cb s) (_oopmap s)
  else
    let fp := fp m s in
    let usp := ptr_plus fp (load m (ptr_plus fp interpreter_frame_sender_sp_offset)) in
    mk (frame_kind s) (_end s) (ptr_plus fp sender_sp_offset) usp (_cb s) (_oopmap s).

(** [inline int StackChunkFrameStream<frame_kind>::interpreter_frame_size() const] *)
Definition interpreter_frame_size (m : memory) (s : t) : Z :=
  let top := unextended_sp_ m s in
  let bottom := ptr_plus (derelativize m s interpreter_frame_locals_offset) 1 in
  int_wrap (ptr_diff bottom top).

(** [inline int StackChunkFrameStream<frame_kind>::interpreter_frame_stack_argsize() const] *)
Definition interpreter_frame_stack_argsize (m : memory) (s : t) : Z :=
  let diff := int_wrap (intptr_wrap
                (ptr_diff (derelativize m s interpreter_frame_locals_offset)
                          (derelativize m s interpreter_frame_sender_sp_offset) + 1)) in
  diff.

(** [StackChunkFrameStream<chunk_frames::MIXED>::update_reg_map_pd(RegisterMap* map)] and
    [StackChunkFrameStream<chunk_frames::COMPILED_ONLY>::update_reg_map_pd(RegisterMap* map)]:
    the two specializations have the same body. *)
Definition update_reg_map_pd `{Registers} (s : t) (map : RegisterMap.t) : RegisterMap.t :=
  if RegisterMap.update_map map
  then update_map_with_saved_link map
         (if RegisterMap.in_cont map
          then sender_sp_offset
          else ptr_minus (_sp s) sender_sp_offset)
  else map.

(** [update_reg_map_pd(RegisterMapT* map)] for any other map type, the
    restricted map included: the body is empty. *)
Definition update_reg_map_pd_small (s : t) : unit := tt.

(** A cursor on a well-formed interpreted frame of a mixed chunk: the frame
    pointer is not below the stack pointer, the locals slot holds what
    [relativize_interpreted_frame_metadata] writes
    ([sender_sp_offset + max_locals - 1], so at least [sender_sp_offset - 1]),
    and the frame's bottom is an address of the lower half of the address
    space. *)
Definition interpreted_frame_ok (m : memory) (s : t) : Prop :=
  let F := fp m s in
  let L := load m (ptr_plus F interpreter_frame_locals_offset) in
  is_MIXED (frame_kind s) = true /\
  is_interpreted m s = true /\
  0 <= _sp s /\
  0 <= _end s < 2 ^ 63 /\
  _sp s <= F /\
  0 < sender_sp_offset <= L + 1 /\
  F + wordSize * (L + 1) < 2 ^ 63.

(** [n] steps of the stream over interpreted frames. *)
Fixpoint steps (m : memory) (n : nat) (s : t) : t :=
  match n with
  | O => s
  | S k => steps m k (next_for_interpreter_frame m s)
  end.

End StackChunkFrameStream.
End StackChunkFrameStream.

(** ** jvmtiEnvBase.cpp: the location of a frame of a virtual thread *)

Module JvmtiEnvBase.

(** What the code reads of a [Method]: [is_native()] and [jmethod_id()]. *)
Record Method : Type := mk_Method {
  is_native : bool;
  jmethod_id : Z
}.

(** What the code reads of a [javaVFrame]: [method()] and [bci()].  A
    [javaVFrame*] is modelled by the list of the frame and its
    [java_sender()]s, youngest first; [NULL] is the empty list. *)
Record javaVFrame : Type := mk_javaVFrame {
  method : Method;
  bci : Z
}.

Inductive jvmtiError : Type :=
| JVMTI_ERROR_NONE
| JVMTI_ERROR_NO_MORE_FRAMES.

(** What [get_vthread_jvf] asks of a virtual thread:
    [java_lang_Continuation::is_mounted(cont)], the carrier's
    [has_last_Java_frame()], and the java frames that
    [vframeStream vfs(java_thread, scope)] (mounted) and
    [vframeStream vfs(cont_h)] (unmounted) produce. *)
Record vthread : Type := mk_vthread {
  is_mounted : bool;
  has_last_Java_frame : bool;
  carrier_vframes : list javaVFrame;
  continuation_vframes : list javaVFrame
}.

(** [javaVFrame* JvmtiEnvBase::get_vthread_jvf(oop vthread)] *)
Definition get_vthread_jvf (v : vthread) : list javaVFrame :=
  if is_mounted v then
    if negb (has_last_Java_frame v) then []
    else carrier_vframes v
  else continuation_vframes v.

(** The loop [while (jvf != NULL && cur_depth < depth)] of
    [get_frame_location]: each turn replaces [jvf] by [jvf->java_sender()]. *)
Fixpoint java_sender_loop (jvf : list javaVFrame) (cur_depth depth : Z)
  : list javaVFrame :=
  match jvf with
  | [] => []
  | _ :: sender =>
      if cur_depth <? depth then java_sender_loop sender (cur_depth + 1) depth
      else jvf
  end.

(** [jvmtiError JvmtiEnvBase::get_frame_location(oop vthread_oop, jint depth,
    jmethodID* method_ptr, jlocation* location_ptr)]: the error code and,
    when they are written, [( *method_ptr, *location_ptr )]. *)
Definition get_frame_location (v : vthread) (depth : Z)
  : jvmtiError * option (Z * Z) :=
  match java_sender_loop (get_vthread_jvf v) 0 depth with
  | [] => (JVMTI_ERROR_NO_MORE_FRAMES, None)
  | jvf :: _ =>
      let method := method jvf in
      let location := if is_native method then -1 else bci jvf in
      (JVMTI_ERROR_NONE, Some (jmethod_id method, location))
  end.

(** Modelled from the spec: the unmounted view of a mounted virtual thread.
    The freeze engine and [vframeStream] over a continuation are not among the
    files; the spec requires of them that the frame stream over the unmounted
    chunk yields, frame by frame and in the same order, the "method identity"
    and "bytecode/location index" that the frame had while it was "live on a
    physical stack". *)
Definition unmount (v : vthread) : vthread :=
  mk_vthread false false [] (carrier_vframes v).

End JvmtiEnvBase.

(** ** The raw copies around relativization *)

(** Modelled from the spec: "copy the frame's raw words into the chunk" and
    "copy the frame's words from chunk to physical stack" (the copy loops are
    not among the files).  This is one word of such a copy. *)
Definition copy_word (src dst : Z) (m : memory) : memory :=
  store m dst (load m src).

(** Freeze of the slot at [offset]: the raw word goes from the stack frame,
    whose frame pointer is [vfp], to the chunk frame at [hfp], and
    [relativize_one] rewrites the copy. *)
Definition freeze_slot (vfp hfp offset : Z) (m : memory) : memory :=
  relativize_one vfp hfp offset
    (copy_word (ptr_plus vfp offset) (ptr_plus hfp offset) m).

(** Thaw of the slot: the chunk word goes to the destination frame, whose
    frame pointer is [fp'], and [derelativize_one] rewrites it there. *)
Definition thaw_slot (hfp fp' offset : Z) (m : memory) : memory :=
  derelativize_one fp' offset
    (copy_word (ptr_plus hfp offset) (ptr_plus fp' offset) m).

(** The chunk's bytes copied to another base address: the frame that was at
    [hfp] is now at [hfp2]. *)
Definition relocate_slot (hfp hfp2 offset : Z) (m : memory) : memory :=
  copy_word (ptr_plus hfp offset) (ptr_plus hfp2 offset) m.

(** ** A concrete instance for the examples

    The x86_64 values of the layout constants and a small stack. *)
Definition x86_64_layout : FrameLayout := {|
  sender_sp_offset := 2;
  link_offset := 0;
  sender_sp_ret_address_offset := 1;
  interpreter_frame_sender_sp_offset := -1;
  interpreter_frame_last_sp_offset := -2;
  interpreter_frame_locals_offset := -7;
  interpreter_frame_initial_sp_offset := -9
|}.

(** A memory whose every word holds [v]. *)
Definition const_memory (v : Z) : memory := fun _ => v.

(** [rbp] as a [VMReg] and the next slot. *)
Definition x86_64_registers : Registers := {|
  rbp_VMReg := 10;
  VMReg_next := fun r => r + 1
|}.

(** A general register map in chunk-relative mode ([in_cont()] holds) that
    is being updated, and a cursor at sp [1000]. *)
Definition in_cont_map : RegisterMap.t := RegisterMap.mk ∅ true true false.

Definition stream_at_1000 : StackChunkFrameStream.t :=
  StackChunkFrameStream.mk MIXED 2000 1000 1000 nullptr nullptr.

(** Frame queries for the examples: the interpreter's code lies in
    [1000, 2000), an empty frame has a null pc, the link slot of a frame's
    callee is the word at [sp - sender_sp_offset]. *)
Definition example_queries : FrameQueries := {|
  is_interpreted_frame := fun f => (1000 <=? pc f) && (pc f <? 2000);
  is_empty := fun f => pc f =? 0;
  max_locals := fun _ => 3;
  Interpreted_stack_argsize := fun _ => 1;
  compiled_frame_stack_argsize := fun _ => 3;
  callee_link_address := fun f => ptr_minus (sp f) 2;
  cb_frame_size := fun _ => 6;
  cont_interpreter_forced_preempt_return := 1500
|}.

Definition example_accessors : StackChunkFrameStream.Accessors := {|
  StackChunkFrameStream.is_interpreted := fun m s =>
    (1000 <=? load m (ptr_minus (StackChunkFrameStream._sp s) 1))
    && (load m (ptr_minus (StackChunkFrameStream._sp s) 1) <? 2000);
  StackChunkFrameStream.sp_ := StackChunkFrameStream._sp;
  StackChunkFrameStream.unextended_sp_ := fun _ s => StackChunkFrameStream._unextended_sp s;
  StackChunkFrameStream.pc_ := fun m s => load m (ptr_minus (StackChunkFrameStream._sp s) 1);
  StackChunkFrameStream.cb_ := StackChunkFrameStream._cb
|}.

(** A compiled frame kind of six words with three words of stack arguments. *)
Definition example_compiled : FKind.t := FKind.mk false (fun _ => 6) (fun _ => 3).
Definition example_interpreted : FKind.t := FKind.mk true (fun _ => 0) (fun _ => 1).

(** An interpreted chunk frame at sp [4000] with fp [4040], and a compiled
    one at the same place. *)
Definition example_hf_interpreted : frame := mk_frame 4000 4000 4040 1500 nullptr nullptr true.
Definition example_hf_compiled : frame := mk_frame 4000 4000 4040 5000 77 78 false.

(** A compiled chunk frame whose frame-pointer register holds a value that is
    not an address of a word, as when [rbp] is used as a general register. *)
Definition example_hf_compiled_oop : frame := mk_frame 4000 4000 4043 5000 77 78 false.

(** A chunk holding one interpreted frame at sp [1000]: return pc [1500] at
    [992], relative fp [10] at [984] (so fp is [1064]), and the locals slot
    at [1008] holding [sender_sp_offset + max_locals - 1 = 4]. *)
Definition example_chunk : memory :=
  store (store (store (const_memory 0) 992 1500) 984 10) 1008 4.

Definition stream_in_chunk (chunk_end : Z) : StackChunkFrameStream.t :=
  StackChunkFrameStream.mk MIXED chunk_end 1000 1000 nullptr nullptr.

(** The entry frame and an interpreted caller, as callers of a thawed frame. *)
Definition example_entry : frame := mk_frame 10000 10000 10016 9000 nullptr nullptr false.
Definition example_interpreted_caller : frame :=
  mk_frame 10008 10008 10080 1500 nullptr nullptr false.

(** A live interpreted frame with eight words between its unextended sp
    and its fp, and callers of the three kinds at chunk address [9000]. *)
Definition example_f : frame := mk_frame 20000 20000 20064 1500 nullptr nullptr false.
Definition caller_interpreted : frame := mk_frame 9000 9000 9104 1500 nullptr nullptr true.
Definition caller_compiled : frame := mk_frame 9000 9000 9104 5000 nullptr nullptr false.
Definition caller_empty : frame := mk_frame 9000 9000 0 0 nullptr nullptr true.

(** A virtual thread mounted on its carrier with three java frames, the
    middle one native. *)
Definition example_vthread : JvmtiEnvBase.vthread :=
  JvmtiEnvBase.mk_vthread true true
    [ JvmtiEnvBase.mk_javaVFrame (JvmtiEnvBase.mk_Method false 11) 5;
      JvmtiEnvBase.mk_javaVFrame (JvmtiEnvBase.mk_Method true 22) 0;
      JvmtiEnvBase.mk_javaVFrame (JvmtiEnvBase.mk_Method false 33) 17 ]
    [].

(** Closed arithmetic facts are decided by evaluation. *)
Ltac by_computation :=
  vm_compute; repeat split; solve [ reflexivity | discriminate ].

(** ** jvmtiEnvBase.cpp: frame counts and stack traces *)

Module Jvmti.

(** The values of [jvmtiError] that the functions below return. *)
Inductive jvmtiError : Type :=
| JVMTI_ERROR_NONE
| JVMTI_ERROR_ILLEGAL_ARGUMENT
| JVMTI_ERROR_NO_MORE_FRAMES
| JVMTI_ERROR_INTERNAL
| JVMTI_ERROR_OUT_OF_MEMORY
| JVMTI_ERROR_NULL_POINTER.

End Jvmti.

Module JvmtiStack.

(** The entry [frame_buffer[count]] that [get_stack_trace] writes for a
    frame: [method()->jmethod_id()] and
    [method()->is_native() ? -1 : bci()]. *)
Definition frame_info (jvf : JvmtiEnvBase.javaVFrame) : Z * Z :=
  (JvmtiEnvBase.jmethod_id (JvmtiEnvBase.method jvf),
   if JvmtiEnvBase.is_native (JvmtiEnvBase.method jvf)
   then -1 else JvmtiEnvBase.bci jvf).

(** The loop [while (jvf != NULL) { jvf = jvf->java_sender(); count++; }];
    [count] is an [int]. *)
Fixpoint frame_count_loop (jvf : list JvmtiEnvBase.javaVFrame) (count : Z) : Z :=
  match jvf with
  | [] => count
  | _ :: sender => frame_count_loop sender (int_wrap (count + 1))
  end.

(** [jint JvmtiEnvBase::get_frame_count(javaVFrame *jvf)] *)
Definition get_frame_count (jvf : list JvmtiEnvBase.javaVFrame) : Z :=
  frame_count_loop jvf 0.

(** The loop [for (j = 0; j > start_depth && jvf_cursor != NULL; j--)] of
    [get_stack_trace], entered with [j]: the cursor and [j] when it ends. *)
Fixpoint cursor_loop (jvf_cursor : list JvmtiEnvBase.javaVFrame) (j start_depth : Z)
  : list JvmtiEnvBase.javaVFrame * Z :=
  match jvf_cursor with
  | [] => ([], j)
  | _ :: sender =>
      if start_depth <? j then cursor_loop sender (j - 1) start_depth
      else (jvf_cursor, j)
  end.

(** The loop [while (jvf_cursor != NULL)] around it: [jvf_prev],
    [jvf_prev_prev] and [j] when it ends.  The fuel bounds the number of
    turns; [None] is fuel that ran out. *)
Fixpoint back_scan (fuel : nat) (start_depth : Z)
    (jvf_cursor jvf_prev jvf_prev_prev : list JvmtiEnvBase.javaVFrame) (j : Z)
  : option (list JvmtiEnvBase.javaVFrame * list JvmtiEnvBase.javaVFrame * Z) :=
  match jvf_cursor with
  | [] => Some (jvf_prev, jvf_prev_prev, j)
  | _ :: _ =>
      match fuel with
      | O => None
      | S fuel' =>
          let '(cursor', j') := cursor_loop jvf_cursor 0 start_depth in
          back_scan fuel' start_depth cursor' jvf_cursor jvf_prev j'
      end
  end.

(** The loop [for (; j < 0; j++) { jvf = jvf->java_sender(); }], here with
    the number of its turns; it does not test [jvf], and [None] is a call of
    [java_sender()] on [NULL]. *)
Fixpoint advance (turns : nat) (jvf : list JvmtiEnvBase.javaVFrame)
  : option (list JvmtiEnvBase.javaVFrame) :=
  match turns with
  | O => Some jvf
  | S turns' =>
      match jvf with
      | [] => None
      | _ :: sender => advance turns' sender
      end
  end.

(** The loop [for (; count < max_count && jvf != NULL; count++)]: the
    entries written to [frame_buffer], in order. *)
Fixpoint fill_frame_buffer (jvf : list JvmtiEnvBase.javaVFrame) (count max_count : Z)
  : list (Z * Z) :=
  match jvf with
  | [] => []
  | f :: sender =>
      if count <? max_count
      then frame_info f :: fill_frame_buffer sender (count + 1) max_count
      else []
  end.

(** What a call leaves behind: the error code, [*count_ptr] when it is
    written, and the entries written to [frame_buffer]. *)
Definition stack_trace_result : Type := Jvmti.jvmtiError * option Z * list (Z * Z).

(** The part of [get_stack_trace] for [start_depth != 0]: the frame to start
    from, or the error. *)
Definition start_frame (jvf : list JvmtiEnvBase.javaVFrame) (start_depth : Z)
  : option (Jvmti.jvmtiError + list JvmtiEnvBase.javaVFrame) :=
  if 0 <? start_depth then
    match JvmtiEnvBase.java_sender_loop jvf 0 start_depth with
    | [] => Some (inl Jvmti.JVMTI_ERROR_ILLEGAL_ARGUMENT)
    | jvf' => Some (inr jvf')
    end
  else
    match back_scan (length jvf) start_depth jvf [] [] 0 with
    | None => None
    | Some (jvf_prev, jvf_prev_prev, j) =>
        if j =? start_depth then Some (inr jvf_prev)
        else
          match jvf_prev_prev with
          | [] => Some (inl Jvmti.JVMTI_ERROR_ILLEGAL_ARGUMENT)
          | _ :: _ =>
              match advance (Z.to_nat (- j)) jvf_prev_prev with
              | None => None
              | Some jvf' => Some (inr jvf')
              end
          end
    end.

(** [jvmtiError JvmtiEnvBase::get_stack_trace(javaVFrame *jvf, jint start_depth,
    jint max_count, jvmtiFrameInfo* frame_buffer, jint* count_ptr)].
    [None]: the walk did not end or called [java_sender()] on [NULL]. *)
Definition get_stack_trace (jvf : list JvmtiEnvBase.javaVFrame)
    (start_depth max_count : Z) : option stack_trace_result :=
  let filled (jvf' : list JvmtiEnvBase.javaVFrame) : stack_trace_result :=
    let buffer := fill_frame_buffer jvf' 0 max_count in
    (Jvmti.JVMTI_ERROR_NONE, Some (Z.of_nat (length buffer)), buffer) in
  if negb (start_depth =? 0) then
    match start_frame jvf start_depth with
    | None => None
    | Some (inl err) => Some (err, None, [])
    | Some (inr jvf') => Some (filled jvf')
    end
  else Some (filled jvf).

(** What the code asks of a [JavaThread]: [has_last_Java_frame()],
    [threadObj()], [mounted_vthread()], the continuation entry
    [last_continuation(vthread_scope)], and the java frames
    [last_java_vframe] and [vthread_carrier_last_java_vframe] start from. *)
Record JavaThread : Type := mk_JavaThread {
  has_last_Java_frame : bool;
  threadObj : Z;
  mounted_vthread : Z;
  last_continuation : Z;
  last_java_vframe : list JvmtiEnvBase.javaVFrame;
  vthread_carrier_last_java_vframe : list JvmtiEnvBase.javaVFrame
}.

Section JvmtiStack.
(** [JvmtiExport::can_support_virtual_threads()]. *)
Variable can_support_virtual_threads : bool.

(** [bool JvmtiEnvBase::cthread_with_mounted_vthread(JavaThread* jt)] *)
Definition cthread_with_mounted_vthread (jt : JavaThread) : bool :=
  let thread_oop := threadObj jt in
  if negb can_support_virtual_threads then false
  else
    let mounted_vt := mounted_vthread jt in
    negb (mounted_vt =? nullptr) && negb (mounted_vt =? thread_oop).

(** [bool JvmtiEnvBase::cthread_with_continuation(JavaThread* jt)] *)
Definition cthread_with_continuation (jt : JavaThread) : bool :=
  if negb can_support_virtual_threads then false
  else
    let cont := if has_last_Java_frame jt then last_continuation jt else nullptr in
    negb (cont =? nullptr) && cthread_with_mounted_vthread jt.

(** [javaVFrame* JvmtiEnvBase::get_last_java_vframe(JavaThread* jt, RegisterMap* reg_map_p)] *)
Definition get_last_java_vframe (jt : JavaThread) : list JvmtiEnvBase.javaVFrame :=
  if cthread_with_continuation jt
  then vthread_carrier_last_java_vframe jt
  else last_java_vframe jt.

(** [vframe* JvmtiEnvBase::vframeFor(JavaThread* java_thread, jint depth)] *)
Definition vframeFor (java_thread : JavaThread) (depth : Z)
  : list JvmtiEnvBase.javaVFrame :=
  if negb (has_last_Java_frame java_thread) then []
  else JvmtiEnvBase.java_sender_loop (get_last_java_vframe java_thread) 0 depth.

(** [jvmtiError JvmtiEnvBase::get_frame_location(JavaThread *java_thread, jint depth,
    jmethodID* method_ptr, jlocation* location_ptr)].  [PRODUCT] tells a
    product build, [is_java_frame] is [vf->is_java_frame()]; in a debug build
    [javaVFrame::cast] of another frame fails its assertion ([None]). *)
Definition get_frame_location (PRODUCT : bool)
    (is_java_frame : JvmtiEnvBase.javaVFrame -> bool)
    (java_thread : JavaThread) (depth : Z)
  : option (Jvmti.jvmtiError * option (Z * Z)) :=
  match vframeFor java_thread depth with
  | [] => Some (Jvmti.JVMTI_ERROR_NO_MORE_FRAMES, None)
  | vf :: _ =>
      if PRODUCT && negb (is_java_frame vf) then Some (Jvmti.JVMTI_ERROR_INTERNAL, None)
      else if negb (is_java_frame vf) then None
      else Some (Jvmti.JVMTI_ERROR_NONE, Some (frame_info vf))
  end.

(** [jvmtiError JvmtiEnvBase::get_frame_count(JavaThread* jt, jint *count_ptr)]:
    the value stored in [*count_ptr]. *)
Definition get_frame_count_thread (jt : JavaThread) : Z :=
  if negb (has_last_Java_frame jt) then 0
  else get_frame_count (get_last_java_vframe jt).

(** [jvmtiError JvmtiEnvBase::get_frame_count(oop vthread_oop, jint *count_ptr)]:
    the value stored in [*count_ptr]. *)
Definition get_frame_count_vthread (v : JvmtiEnvBase.vthread) : Z :=
  get_frame_count (JvmtiEnvBase.get_vthread_jvf v).

(** [jvmtiError JvmtiEnvBase::get_stack_trace(JavaThread *java_thread, jint start_depth,
    jint max_count, jvmtiFrameInfo* frame_buffer, jint* count_ptr)] *)
Definition get_stack_trace_thread (java_thread : JavaThread)
    (start_depth max_count : Z) : option stack_trace_result :=
  if has_last_Java_frame java_thread then
    get_stack_trace (get_last_java_vframe java_thread) start_depth max_count
  else
    Some (if negb (start_depth =? 0)
          then (Jvmti.JVMTI_ERROR_ILLEGAL_ARGUMENT, Some 0, [])
          else (Jvmti.JVMTI_ERROR_NONE, Some 0, [])).

End JvmtiStack.
End JvmtiStack.

(** ** jvmtiEnvBase.cpp: environments *)

Module JvmtiEnvironment.

(** [JVMTI_MAGIC], [DISPOSED_MAGIC] and [BAD_MAGIC] of [jvmtiEnvBase.hpp]. *)
Class Magic : Type := {
  JVMTI_MAGIC : Z;
  DISPOSED_MAGIC : Z;
  BAD_MAGIC : Z
}.

(** A [JvmtiEnvBase] object: the fields the code below reads and writes.
    [_next] and [_tag_map] are pointers; [native_method_prefix_array] is the
    content of the block [_native_method_prefixes] points to, one [char*] per
    element; the two capability fields are the bit
    [can_retransform_classes] of [_current_capabilities] and of
    [_prohibited_capabilities]. *)
Record t : Type := mk_env {
  _magic : Z;
  _next : Z;
  _tag_map : Z;
  _native_method_prefix_count : Z;
  _native_method_prefixes : Z;
  native_method_prefix_array : list Z;
  _class_file_load_hook_ever_enabled : bool;
  _is_retransformable : bool;
  can_retransform_classes : bool;
  prohibited_can_retransform_classes : bool
}.

(** [set_next_environment(env)] *)
Definition set_next_environment (e : t) (next : Z) : t :=
  mk_env (_magic e) next (_tag_map e) (_native_method_prefix_count e)
    (_native_method_prefixes e) (native_method_prefix_array e)
    (_class_file_load_hook_ever_enabled e) (_is_retransformable e)
    (can_retransform_classes e) (prohibited_can_retransform_classes e).

Definition set_magic (e : t) (magic : Z) : t :=
  mk_env magic (_next e) (_tag_map e) (_native_method_prefix_count e)
    (_native_method_prefixes e) (native_method_prefix_array e)
    (_class_file_load_hook_ever_enabled e) (_is_retransformable e)
    (can_retransform_classes e) (prohibited_can_retransform_classes e).

(** [set_tag_map(tag_map)] *)
Definition set_tag_map (e : t) (tag_map : Z) : t :=
  mk_env (_magic e) (_next e) tag_map (_native_method_prefix_count e)
    (_native_method_prefixes e) (native_method_prefix_array e)
    (_class_file_load_hook_ever_enabled e) (_is_retransformable e)
    (can_retransform_classes e) (prohibited_can_retransform_classes e).

(** The assignments to [_native_method_prefix_count] and
    [_native_method_prefixes]. *)
Definition install_prefixes (e : t) (count prefixes : Z) (array : list Z) : t :=
  mk_env (_magic e) (_next e) (_tag_map e) count prefixes array
    (_class_file_load_hook_ever_enabled e) (_is_retransformable e)
    (can_retransform_classes e) (prohibited_can_retransform_classes e).

Definition set_can_retransform_classes (e : t) (b : bool) : t :=
  mk_env (_magic e) (_next e) (_tag_map e) (_native_method_prefix_count e)
    (_native_method_prefixes e) (native_method_prefix_array e)
    (_class_file_load_hook_ever_enabled e) (_is_retransformable e)
    b (prohibited_can_retransform_classes e).

(** [bool JvmtiEnvBase::is_valid()]: the value of [_magic] against
    [JVMTI_MAGIC]. *)
Definition is_valid `{Magic} (e : t) : bool := _magic e =? JVMTI_MAGIC.

(** [void JvmtiEnvBase::record_first_time_class_file_load_hook_enabled()] *)
Definition record_first_time_class_file_load_hook_enabled (e : t) : t :=
  if negb (_class_file_load_hook_ever_enabled e) then
    if can_retransform_classes e then
      mk_env (_magic e) (_next e) (_tag_map e) (_native_method_prefix_count e)
        (_native_method_prefixes e) (native_method_prefix_array e)
        true true
        (can_retransform_classes e) (prohibited_can_retransform_classes e)
    else
      mk_env (_magic e) (_next e) (_tag_map e) (_native_method_prefix_count e)
        (_native_method_prefixes e) (native_method_prefix_array e)
        true false
        (can_retransform_classes e) true
  else e.

(** [void JvmtiEnvBase::record_class_file_load_hook_enabled()];
    [no_threads] is [Threads::number_of_threads() == 0], the other branch
    makes the same call under [JvmtiThreadState_lock]. *)
Definition record_class_file_load_hook_enabled (no_threads : bool) (e : t) : t :=
  if negb (_class_file_load_hook_ever_enabled e) then
    if no_threads then record_first_time_class_file_load_hook_enabled e
    else record_first_time_class_file_load_hook_enabled e
  else e.

(** *** Native method prefixes

    The C heap as the code uses it: [strings] holds the content of every
    live [char*] block.  [os::free(p)] is recorded in the list of freed
    pointers and takes [p] out of [strings]. *)
Definition free_all (ps : list Z) (strings : gmap Z string) : gmap Z string :=
  foldr (fun p s => delete p s) strings ps.

(** What a call of [set_native_method_prefixes] leaves behind: the error
    code, the environment, the strings, and the pointers passed to
    [os::free], in order. *)
Record prefixes_outcome : Type := mk_outcome {
  error : Jvmti.jvmtiError;
  environment : t;
  strings_after : gmap Z string;
  freed : list Z
}.

(** The loop [for (int i = 0; i < prefix_count; i++)] of
    [set_native_method_prefixes] with [n] turns left at index [i];
    [prefixes i] is [prefixes[i]], [strdup_result i] is what [os::strdup]
    returns in turn [i] ([NULL] when it fails), [new_prefixes] holds the
    elements filled so far.  The result is the error with the pointers freed
    by the loop [for (int j = 0; j < (i-1); j++)], or the filled array.
    [None]: [prefixes[i]] does not point to a string. *)
Fixpoint copy_prefixes (n i : nat) (prefixes strdup_result : nat -> Z)
    (strings : gmap Z string) (new_prefixes : list Z)
  : option (Jvmti.jvmtiError * gmap Z string * list Z + gmap Z string * list Z) :=
  match n with
  | O => Some (inr (strings, new_prefixes))
  | S n' =>
      let prefix := prefixes i in
      if prefix =? nullptr then
        let frees := take (i - 1) new_prefixes in
        Some (inl (Jvmti.JVMTI_ERROR_NULL_POINTER, free_all frees strings, frees))
      else
        match strings !! prefix with
        | None => None
        | Some content =>
            let prefix' := strdup_result i in
            if prefix' =? nullptr then
              let frees := take (i - 1) new_prefixes in
              Some (inl (Jvmti.JVMTI_ERROR_OUT_OF_MEMORY, free_all frees strings, frees))
            else
              copy_prefixes n' (S i) prefixes strdup_result
                (<[prefix' := content]> strings) (new_prefixes ++ [prefix'])
        end
  end.

(** [jvmtiError JvmtiEnvBase::set_native_method_prefixes(jint prefix_count, char** prefixes)];
    [malloc_result] is what [os::malloc] returns for the new array. *)
Definition set_native_method_prefixes `{Magic} (e : t) (strings : gmap Z string)
    (prefix_count : Z) (prefixes : nat -> Z)
    (malloc_result : Z) (strdup_result : nat -> Z) : option prefixes_outcome :=
  let old_prefix_count := _native_method_prefix_count e in
  let old_prefixes := _native_method_prefixes e in
  let old_array := native_method_prefix_array e in
  let release_old (e1 : t) (strings1 : gmap Z string) : prefixes_outcome :=
    if negb (old_prefix_count =? 0) then
      let frees := take (Z.to_nat old_prefix_count) old_array ++ [old_prefixes] in
      mk_outcome Jvmti.JVMTI_ERROR_NONE e1 (free_all frees strings1) frees
    else mk_outcome Jvmti.JVMTI_ERROR_NONE e1 strings1 [] in
  if (prefix_count =? 0) || negb (is_valid e) then
    Some (release_old (install_prefixes e 0 nullptr []) strings)
  else
    let new_prefixes := malloc_result in
    if new_prefixes =? nullptr then
      Some (mk_outcome Jvmti.JVMTI_ERROR_OUT_OF_MEMORY e strings [])
    else
      match copy_prefixes (Z.to_nat prefix_count) 0 prefixes strdup_result strings [] with
      | None => None
      | Some (inl (err, strings1, frees)) =>
          Some (mk_outcome err e (delete new_prefixes strings1) (frees ++ [new_prefixes]))
      | Some (inr (strings1, array)) =>
          Some (release_old (install_prefixes e prefix_count new_prefixes array) strings1)
      end.

(** *** The list of environments

    [_head_environment] and the [_next] fields link the environments;
    [JvmtiEnvIterator] starts at the head ([first()]) and follows [_next]
    ([next(env)]).  The objects live at their addresses in [envs]. *)
Record globals : Type := mk_globals {
  envs : gmap Z t;
  _head_environment : Z;
  _globally_initialized : bool;
  _needs_clean_up : bool
}.

(** The environments that the iterator visits from [p] on, in order. *)
Inductive env_list (h : gmap Z t) : Z -> list Z -> Prop :=
| env_list_nil : env_list h nullptr []
| env_list_cons (p : Z) (e : t) (l : list Z) :
    p <> nullptr -> h !! p = Some e -> env_list h (_next e) l ->
    env_list h p (p :: l).

(** The loop of [initialize] that finds the last environment:
    [for (env = it.first(); env != NULL; env = it.next(env)) previous_env = env].
    [None]: fuel ran out or a pointer does not lead to an environment. *)
Fixpoint last_environment (fuel : nat) (h : gmap Z t) (env previous_env : Z)
  : option Z :=
  if env =? nullptr then Some previous_env
  else
    match fuel with
    | O => None
    | S fuel' =>
        match h !! env with
        | None => None
        | Some e => last_environment fuel' h (_next e) env
        end
    end.

(** [void JvmtiEnvBase::initialize()] for the environment at [this]; of
    [globally_initialize()] the assignment to [_globally_initialized]. *)
Definition initialize (fuel : nat) (this : Z) (s : globals) : option globals :=
  match last_environment fuel (envs s) (_head_environment s) nullptr with
  | None => None
  | Some previous_env =>
      let linked :=
        if previous_env =? nullptr then Some (envs s, this)
        else
          match envs s !! previous_env with
          | None => None
          | Some pe =>
              Some (<[previous_env := set_next_environment pe this]> (envs s),
                    _head_environment s)
          end in
      match linked with
      | None => None
      | Some (h, head) =>
          Some (mk_globals h head
                  (if negb (_globally_initialized s) then true
                   else _globally_initialized s)
                  (_needs_clean_up s))
      end
  end.

(** The loop [while (env != NULL)] of [periodic_clean_up]: the objects and
    the head when it ends; [delete defunct_env] takes the object out of
    [envs]. *)
Fixpoint clean_up_loop `{Magic} (fuel : nat) (h : gmap Z t)
    (head env previous_env : Z) : option (gmap Z t * Z) :=
  if env =? nullptr then Some (h, head)
  else
    match fuel with
    | O => None
    | S fuel' =>
        match h !! env with
        | None => None
        | Some e =>
            if is_valid e then clean_up_loop fuel' h head (_next e) env
            else
              let defunct_env := env in
              let env' := _next e in
              let unlinked :=
                if previous_env =? nullptr then Some (h, env')
                else
                  match h !! previous_env with
                  | None => None
                  | Some pe =>
                      Some (<[previous_env := set_next_environment pe env']> h, head)
                  end in
              match unlinked with
              | None => None
              | Some (h1, head1) =>
                  clean_up_loop fuel' (delete defunct_env h1) head1 env' previous_env
              end
        end
    end.

(** [void JvmtiEnvBase::periodic_clean_up()] *)
Definition periodic_clean_up `{Magic} (fuel : nat) (s : globals) : option globals :=
  match clean_up_loop fuel (envs s) (_head_environment s) (_head_environment s) nullptr with
  | None => None
  | Some (h, head) =>
      Some (mk_globals h head (_globally_initialized s) (_needs_clean_up s))
  end.

(** [void JvmtiEnvBase::check_for_periodic_clean_up()]; [threads] holds
    [thread->is_inside_jvmti_env_iteration()] for the threads that
    [Threads::threads_do] visits, [dying] is
    [is_inside_dying_thread_env_iteration()]. *)
Definition check_for_periodic_clean_up `{Magic} (fuel : nat)
    (threads : list bool) (dying : bool) (s : globals) : option globals :=
  if _needs_clean_up s then
    let _inside := foldl (fun inside t => inside || t) false threads in
    if negb _inside && negb dying then
      periodic_clean_up fuel
        (mk_globals (envs s) (_head_environment s) (_globally_initialized s) false)
    else Some s
  else Some s.

(** [void JvmtiEnvBase::env_dispose()] for the environment at [this].
    [relinquished] is the bit [can_retransform_classes] after
    [JvmtiManageCapabilities::relinquish_capabilities(caps, caps, caps)].  The
    result holds the state, the strings and the pointers freed;
    [delete tag_map_to_deallocate] is not recorded. *)
Definition env_dispose `{Magic} (relinquished : bool -> bool) (this : Z)
    (s : globals) (strings : gmap Z string)
  : option (globals * gmap Z string * list Z) :=
  match envs s !! this with
  | None => None
  | Some e =>
      let e1 := set_magic e DISPOSED_MAGIC in
      let e2 := set_can_retransform_classes e1 (relinquished (can_retransform_classes e1)) in
      match set_native_method_prefixes e2 strings 0 (fun _ => nullptr) nullptr
              (fun _ => nullptr) with
      | None => None
      | Some out =>
          let e3 := set_tag_map (environment out) nullptr in
          Some (mk_globals (<[this := e3]> (envs s)) (_head_environment s)
                  (_globally_initialized s) true,
                strings_after out, freed out)
      end
  end.

(** The loop nest of [get_all_native_method_prefixes] from [env] on: the
    copies made, in order.  [None]: fuel ran out, or a pointer leads to no
    environment or to no string. *)
Fixpoint all_prefixes_loop (fuel : nat) (h : gmap Z t) (strings : gmap Z string)
    (env : Z) : option (list string) :=
  if env =? nullptr then Some []
  else
    match fuel with
    | O => None
    | S fuel' =>
        match h !! env with
        | None => None
        | Some e =>
            let prefix_count := _native_method_prefix_count e in
            let prefixes := native_method_prefix_array e in
            match mapM (fun prefix => strings !! prefix)
                       (take (Z.to_nat prefix_count) prefixes) with
            | None => None
            | Some copies =>
                match all_prefixes_loop fuel' h strings (_next e) with
                | None => None
                | Some rest => Some (copies ++ rest)
                end
            end
        end
    end.

(** [char** JvmtiEnvBase::get_all_native_method_prefixes(int* count_ptr)]:
    the strings of the returned array and [*count_ptr]. *)
Definition get_all_native_method_prefixes (fuel : nat) (s : globals)
    (strings : gmap Z string) : option (list string * Z) :=
  match all_prefixes_loop fuel (envs s) strings (_head_environment s) with
  | None => None
  | Some all_prefixes => Some (all_prefixes, Z.of_nat (length all_prefixes))
  end.

(** [JvmtiEnvBase::JvmtiEnvBase(jint version)]: the fields of a new
    environment. *)
Definition JvmtiEnvBase `{Magic} : t :=
  mk_env JVMTI_MAGIC nullptr nullptr 0 nullptr [] false true false false.

(** [env->is_valid()] for the environment at [p]. *)
Definition valid_at `{Magic} (h : gmap Z t) (p : Z) : bool :=
  match h !! p with
  | Some e => is_valid e
  | None => false
  end.

(** The strings of the prefixes of an environment, as the inner loop of
    [get_all_native_method_prefixes] reads them. *)
Definition prefix_strings (strings : gmap Z string) (e : t) : option (list string) :=
  mapM (fun prefix => strings !! prefix)
       (take (Z.to_nat (_native_method_prefix_count e)) (native_method_prefix_array e)).

End JvmtiEnvironment.

(** ** jvmtiEnvBase.cpp: ResourceTracker *)
Module ResourceTracker.

(** The fields [_allocations] and [_failed]. *)
Record t : Type := mk {
  _allocations : list Z;
  _failed : bool
}.

(** [ResourceTracker::ResourceTracker(JvmtiEnv* env)] *)
Definition ResourceTracker : t := mk [] false.

(** [jvmtiError ResourceTracker::allocate(jlong size, unsigned char** mem_ptr)];
    [env_allocate] is the error that [_env->allocate(size, &ptr)] returns,
    with [ptr].  The result holds the error, [*mem_ptr] and the tracker. *)
Definition allocate (env_allocate : Jvmti.jvmtiError * Z) (rt : t)
  : Jvmti.jvmtiError * Z * t :=
  let '(err, ptr) := env_allocate in
  match err with
  | Jvmti.JVMTI_ERROR_NONE => (err, ptr, mk (_allocations rt ++ [ptr]) (_failed rt))
  | _ => (err, nullptr, mk (_allocations rt) true)
  end.

(** [unsigned char* ResourceTracker::allocate(jlong size)] *)
Definition allocate_ptr (env_allocate : Jvmti.jvmtiError * Z) (rt : t) : Z * t :=
  let '(_, ptr, rt') := allocate env_allocate rt in (ptr, rt').

(** [char* ResourceTracker::strdup(const char* str)]; [strings] holds the
    content of the [char*] blocks. *)
Definition strdup (env_allocate : Jvmti.jvmtiError * Z) (str : string) (rt : t)
    (strings : gmap Z string) : Z * t * gmap Z string :=
  let '(dup_str, rt') := allocate_ptr env_allocate rt in
  if negb (dup_str =? nullptr)
  then (dup_str, rt', <[dup_str := str]> strings)
  else (dup_str, rt', strings).

(** [ResourceTracker::~ResourceTracker()]: the pointers passed to
    [_env->deallocate], in order. *)
Definition destroy (rt : t) : list Z :=
  if _failed rt then _allocations rt else [].

(** A tracker after the calls of [allocate] whose [_env->allocate] gave
    [results], in order. *)
Definition allocate_all (results : list (Jvmti.jvmtiError * Z)) (rt : t) : t :=
  foldl (fun rt r => (allocate r rt).2) rt results.

(** [err == JVMTI_ERROR_NONE] *)
Definition is_NONE (err : Jvmti.jvmtiError) : bool :=
  match err with
  | Jvmti.JVMTI_ERROR_NONE => true
  | _ => false
  end.

End ResourceTracker.

(** ** jvmtiEnvBase.cpp: owned monitors *)
Module JvmtiMonitors.

(** A [MonitorInfo] of [jvf->monitors()]: [owner_is_scalar_replaced()] and
    [owner()]. *)
Record MonitorInfo : Type := mk_MonitorInfo {
  owner_is_scalar_replaced : bool;
  owner : Z
}.

(** A [jvmtiMonitorStackDepthInfo]: [monitor] and [stack_depth].  A JNI
    reference stands for the object it refers to:
    [JNIHandles::resolve(jni_reference(h))] is the object of [h]. *)
Definition jvmtiMonitorStackDepthInfo : Type := (Z * Z)%type.

(** The loop [for (int j = 0; j < owned_monitors_list->length(); j++)] that
    looks for [obj] in the list: the value of [found]. *)
Fixpoint found (owned_monitors_list : list jvmtiMonitorStackDepthInfo) (obj : Z) : bool :=
  match owned_monitors_list with
  | [] => false
  | jmsdi :: rest => if jmsdi.1 =? obj then true else found rest obj
  end.

Section JvmtiMonitors.
(** [allocate k] is the error that [allocate(sizeof(jvmtiMonitorStackDepthInfo), ...)]
    returns when the list holds [k] entries; every successful allocation is
    followed by an [append], so a call asks at most once for each [k]. *)
Variable allocate : nat -> Jvmti.jvmtiError.

(** The loop [for (int i = 0; i < mons->length(); i++)] of
    [get_locked_objects_in_frame]: the error and the list. *)
Fixpoint locked_objects_loop (wait_obj pending_obj : Z) (mons : list MonitorInfo)
    (owned_monitors_list : list jvmtiMonitorStackDepthInfo) (stack_depth : Z)
  : Jvmti.jvmtiError * list jvmtiMonitorStackDepthInfo :=
  match mons with
  | [] => (Jvmti.JVMTI_ERROR_NONE, owned_monitors_list)
  | mi :: rest =>
      let continue :=
        locked_objects_loop wait_obj pending_obj rest owned_monitors_list stack_depth in
      if owner_is_scalar_replaced mi then continue
      else
        let obj := owner mi in
        if obj =? nullptr then continue
        else if wait_obj =? obj then continue
        else if pending_obj =? obj then continue
        else if (0 <? Z.of_nat (length owned_monitors_list))
                && found owned_monitors_list obj then continue
        else
          match allocate (length owned_monitors_list) with
          | Jvmti.JVMTI_ERROR_NONE =>
              locked_objects_loop wait_obj pending_obj rest
                (owned_monitors_list ++ [(obj, stack_depth)]) stack_depth
          | err => (err, owned_monitors_list)
          end
  end.

(** [jvmtiError JvmtiEnvBase::get_locked_objects_in_frame(JavaThread* calling_thread,
    JavaThread* java_thread, javaVFrame *jvf, GrowableArray<jvmtiMonitorStackDepthInfo*>*
    owned_monitors_list, jint stack_depth)]; [mons] is [jvf->monitors()],
    [wait_obj] and [pending_obj] are the objects of
    [java_thread->current_waiting_monitor()] and
    [java_thread->current_pending_monitor()], [NULL] without a monitor. *)
Definition get_locked_objects_in_frame (wait_obj pending_obj : Z) (mons : list MonitorInfo)
    (owned_monitors_list : list jvmtiMonitorStackDepthInfo) (stack_depth : Z)
  : Jvmti.jvmtiError * list jvmtiMonitorStackDepthInfo :=
  match mons with
  | [] => (Jvmti.JVMTI_ERROR_NONE, owned_monitors_list)
  | _ :: _ => locked_objects_loop wait_obj pending_obj mons owned_monitors_list stack_depth
  end.

(** The loop [for ( ; jvf != NULL; jvf = jvf->java_sender())] of
    [get_owned_monitors], entered with [depth]; a frame is given by its
    monitors.  With [MaxJavaStackTraceDepth == 0] the test does not reach
    [depth++]. *)
Fixpoint owned_monitors_loop (MaxJavaStackTraceDepth : Z) (wait_obj pending_obj : Z)
    (jvf : list (list MonitorInfo)) (depth : Z)
    (owned_monitors_list : list jvmtiMonitorStackDepthInfo)
  : Jvmti.jvmtiError * list jvmtiMonitorStackDepthInfo :=
  match jvf with
  | [] => (Jvmti.JVMTI_ERROR_NONE, owned_monitors_list)
  | mons :: sender =>
      let '(taken, depth') :=
        if MaxJavaStackTraceDepth =? 0 then (true, depth)
        else (depth <? MaxJavaStackTraceDepth, int_wrap (depth + 1)) in
      if taken then
        match get_locked_objects_in_frame wait_obj pending_obj mons owned_monitors_list
                (int_wrap (depth' - 1)) with
        | (Jvmti.JVMTI_ERROR_NONE, owned') =>
            owned_monitors_loop MaxJavaStackTraceDepth wait_obj pending_obj sender depth' owned'
        | (err, owned') => (err, owned')
        end
      else
        owned_monitors_loop MaxJavaStackTraceDepth wait_obj pending_obj sender depth'
          owned_monitors_list
  end.

(** [void JvmtiMonitorClosure::do_monitor(ObjectMonitor* mon)]; the monitor
    is given by [mon->owner()] and [mon->object()], the closure by [_error]
    and the list. *)
Definition do_monitor (_java_thread : Z) (mon : Z * Z)
    (jmc : Jvmti.jvmtiError * list jvmtiMonitorStackDepthInfo)
  : Jvmti.jvmtiError * list jvmtiMonitorStackDepthInfo :=
  let '(_error, _owned_monitors_list) := jmc in
  match _error with
  | Jvmti.JVMTI_ERROR_NONE =>
      if mon.1 =? _java_thread then
        let obj := mon.2 in
        if found _owned_monitors_list obj then jmc
        else
          match allocate (length _owned_monitors_list) with
          | Jvmti.JVMTI_ERROR_NONE =>
              (Jvmti.JVMTI_ERROR_NONE, _owned_monitors_list ++ [(obj, -1)])
          | err => (err, _owned_monitors_list)
          end
      else jmc
  | _ => jmc
  end.

(** [jvmtiError JvmtiEnvBase::get_owned_monitors(JavaThread* calling_thread,
    JavaThread* java_thread, javaVFrame* jvf, GrowableArray<jvmtiMonitorStackDepthInfo*>
    *owned_monitors_list)]; [monitors] are the monitors that
    [ObjectSynchronizer::monitors_iterate] passes to the closure, in order. *)
Definition get_owned_monitors (MaxJavaStackTraceDepth : Z) (java_thread : Z)
    (wait_obj pending_obj : Z) (jvf : list (list MonitorInfo)) (monitors : list (Z * Z))
    (owned_monitors_list : list jvmtiMonitorStackDepthInfo)
  : Jvmti.jvmtiError * list jvmtiMonitorStackDepthInfo :=
  match owned_monitors_loop MaxJavaStackTraceDepth wait_obj pending_obj jvf 0
          owned_monitors_list with
  | (Jvmti.JVMTI_ERROR_NONE, owned') =>
      foldl (fun jmc mon => do_monitor java_thread mon jmc)
            (Jvmti.JVMTI_ERROR_NONE, owned') monitors
  | (err, owned') => (err, owned')
  end.

(** [jvmtiError JvmtiEnvBase::get_owned_monitors(JavaThread *calling_thread,
    JavaThread* java_thread, GrowableArray<jvmtiMonitorStackDepthInfo*> *owned_monitors_list)];
    [jvf] are the frames from [get_last_java_vframe(java_thread, &reg_map)]. *)
Definition get_owned_monitors_thread (MaxJavaStackTraceDepth : Z) (java_thread : Z)
    (has_last_Java_frame : bool) (wait_obj pending_obj : Z)
    (jvf : list (list MonitorInfo)) (monitors : list (Z * Z))
    (owned_monitors_list : list jvmtiMonitorStackDepthInfo)
  : Jvmti.jvmtiError * list jvmtiMonitorStackDepthInfo :=
  if has_last_Java_frame
  then get_owned_monitors MaxJavaStackTraceDepth java_thread wait_obj pending_obj jvf
         monitors owned_monitors_list
  else
    foldl (fun jmc mon => do_monitor java_thread mon jmc)
          (Jvmti.JVMTI_ERROR_NONE, owned_monitors_list) monitors.

End JvmtiMonitors.

(** The loop nest of [count_locked_objects] over the monitors of a frame and
    over the frames: [ret], a [jint]. *)
Fixpoint count_in_frame (hobj : Z) (mons : list MonitorInfo) (ret : Z) : Z :=
  match mons with
  | [] => ret
  | mi :: rest =>
      if owner_is_scalar_replaced mi then count_in_frame hobj rest ret
      else if negb (owner mi =? nullptr) && (owner mi =? hobj)
      then count_in_frame hobj rest (int_wrap (ret + 1))
      else count_in_frame hobj rest ret
  end.

Fixpoint count_in_frames (hobj : Z) (jvf : list (list MonitorInfo)) (ret : Z) : Z :=
  match jvf with
  | [] => ret
  | mons :: sender => count_in_frames hobj sender (count_in_frame hobj mons ret)
  end.

(** [jint JvmtiEnvBase::count_locked_objects(JavaThread *java_thread, Handle hobj)];
    [jvf] are the frames from [java_thread->last_java_vframe(&reg_map)]. *)
Definition count_locked_objects (has_last_Java_frame : bool)
    (jvf : list (list MonitorInfo)) (hobj : Z) : Z :=
  if negb has_last_Java_frame then 0
  else count_in_frames hobj jvf 0.

(** An owner that [get_locked_objects_in_frame] takes from [mons]: some
    monitor that is not scalar replaced has it as its owner, and it is
    neither [NULL] nor the object waited for or pending. *)
Definition locks (wait_obj pending_obj : Z) (mons : list MonitorInfo) (obj : Z) : bool :=
  existsb (fun mi => negb (owner_is_scalar_replaced mi) && (owner mi =? obj)) mons
  && negb (obj =? nullptr) && negb (wait_obj =? obj) && negb (pending_obj =? obj).

End JvmtiMonitors.

(** ** jvmtiEnvBase.cpp: thread states and the collector of stack traces *)
Module JvmtiThreadState.

(** The bits [JVMTI_THREAD_STATE_*] and [java_lang_VirtualThread::RUNNING]. *)
Class Constants : Type := {
  JVMTI_THREAD_STATE_ALIVE : Z;
  JVMTI_THREAD_STATE_RUNNABLE : Z;
  JVMTI_THREAD_STATE_SUSPENDED : Z;
  JVMTI_THREAD_STATE_IN_NATIVE : Z;
  JVMTI_THREAD_STATE_INTERRUPTED : Z;
  RUNNING : Z
}.

(** What [get_thread_state] asks of a [JavaThread]:
    [is_cthread_pending_suspend()], [is_being_ext_suspended()],
    [thread_state() == _thread_in_native] and [is_interrupted(false)]. *)
Record JavaThread : Type := mk_JavaThread {
  is_cthread_pending_suspend : bool;
  is_being_ext_suspended : bool;
  thread_in_native : bool;
  is_interrupted : bool
}.

Section JvmtiThreadState.
Context `{Constants}.

(** [jint JvmtiEnvBase::get_thread_state(oop thread_oop, JavaThread* jt)];
    [thread_status] is [java_lang_Thread::get_thread_status(thread_oop)],
    [None] for a [NULL] oop. *)
Definition get_thread_state (thread_status : option Z) (jt : option JavaThread) : Z :=
  let state := match thread_status with Some status => status | None => 0 end in
  match jt with
  | None => state
  | Some jt =>
      let state1 := if is_cthread_pending_suspend jt
                    then Z.lor state JVMTI_THREAD_STATE_SUSPENDED else state in
      let state2 := if is_being_ext_suspended jt
                    then Z.lor state1 JVMTI_THREAD_STATE_SUSPENDED else state1 in
      let state3 := if thread_in_native jt
                    then Z.lor state2 JVMTI_THREAD_STATE_IN_NATIVE else state2 in
      if is_interrupted jt then Z.lor state3 JVMTI_THREAD_STATE_INTERRUPTED else state3
  end.

(** [jint JvmtiEnvBase::get_vthread_state(oop thread_oop)]; [status] is
    [map_state_to_thread_status(vt_state)], [ext_suspended] and
    [interrupted] are [JvmtiVTSuspender::vthread_is_ext_suspended(thread_oop)]
    and [java_lang_Thread::interrupted(thread_oop)]. *)
Definition get_vthread_state (status : Z) (ext_suspended interrupted : bool) : Z :=
  let state1 :=
    if ext_suspended && negb (Z.land status JVMTI_THREAD_STATE_ALIVE =? 0)
    then Z.lor (Z.land status (Z.lnot RUNNING))
               (Z.lor (Z.lor JVMTI_THREAD_STATE_ALIVE JVMTI_THREAD_STATE_RUNNABLE)
                      JVMTI_THREAD_STATE_SUSPENDED)
    else status in
  if interrupted then Z.lor state1 JVMTI_THREAD_STATE_INTERRUPTED else state1.

End JvmtiThreadState.
End JvmtiThreadState.

Module MultipleStackTracesCollector.

(** A [jvmtiStackInfo] of a list node; [frame_buffer] holds the entries
    written to the resource array, [None] is [NULL]. *)
Record jvmtiStackInfo : Type := mk_info {
  thread : Z;
  state : Z;
  frame_buffer : option (list (Z * Z));
  frame_count : Z
}.

(** The collector: the list from [head()] on, [_frame_count_total], a
    [jint], [_result] and [max_frame_count()]. *)
Record t : Type := mk {
  _head : list jvmtiStackInfo;
  _frame_count_total : Z;
  _result : Jvmti.jvmtiError;
  max_frame_count : Z
}.

(** The argument [thread_oop] of [fill_frames]: an instance of
    [java_lang_VirtualThread] with what [get_vthread_state] and
    [get_vthread_jvf] read of it, or another oop with its thread status,
    [None] for [NULL]. *)
Inductive thread_oop : Type :=
| virtual_thread (status : Z) (ext_suspended interrupted : bool)
                 (v : JvmtiEnvBase.vthread)
| other_thread (thread_status : option Z).

Section MultipleStackTracesCollector.
Context `{JvmtiThreadState.Constants}.
Variable can_support_virtual_threads : bool.

(** The node that [fill_frames] fills in, with the error it stores in
    [_result], if any.  [None]: the stack walk did not return. *)
Definition stack_info_for (max_frame_count : Z) (jt : Z)
    (thr : option (JvmtiThreadState.JavaThread * JvmtiStack.JavaThread))
    (thread_oop : thread_oop) : option (jvmtiStackInfo * option Jvmti.jvmtiError) :=
  let traced (state : Z) (trace : option JvmtiStack.stack_trace_result) :=
    match trace with
    | None => None
    | Some (err, count, frames) =>
        Some (mk_info jt state (Some frames) (default 0 count), Some err)
    end in
  match thread_oop with
  | virtual_thread status ext_suspended interrupted v =>
      let state := JvmtiThreadState.get_vthread_state status ext_suspended interrupted in
      if negb (Z.land state JvmtiThreadState.JVMTI_THREAD_STATE_ALIVE =? 0)
      then traced state
             (JvmtiStack.get_stack_trace (JvmtiEnvBase.get_vthread_jvf v) 0 max_frame_count)
      else Some (mk_info jt state None 0, None)
  | other_thread thread_status =>
      let state := JvmtiThreadState.get_thread_state thread_status (fst <$> thr) in
      match thr with
      | Some (_, java_thread) =>
          if negb (Z.land state JvmtiThreadState.JVMTI_THREAD_STATE_ALIVE =? 0)
          then traced state
                 (JvmtiStack.get_stack_trace_thread can_support_virtual_threads
                    java_thread 0 max_frame_count)
          else Some (mk_info jt state None 0, None)
      | None => Some (mk_info jt state None 0, None)
      end
  end.

(** [void MultipleStackTracesCollector::fill_frames(jthread jt, JavaThread *thr, oop thread_oop)]:
    the new node is linked in front of the list. *)
Definition fill_frames (jt : Z)
    (thr : option (JvmtiThreadState.JavaThread * JvmtiStack.JavaThread))
    (thread_oop : thread_oop) (c : t) : option t :=
  match stack_info_for (max_frame_count c) jt thr thread_oop with
  | None => None
  | Some (info, result) =>
      Some (mk (info :: _head c)
               (int_wrap (_frame_count_total c + frame_count info))
               (default (_result c) result)
               (max_frame_count c))
  end.

(** [fill_frames] for the threads of a list, in order. *)
Fixpoint fill_all
    (threads : list (Z * option (JvmtiThreadState.JavaThread * JvmtiStack.JavaThread)
                     * thread_oop))
    (c : t) : option t :=
  match threads with
  | [] => Some c
  | (jt, thr, thread_oop) :: rest =>
      match fill_frames jt thr thread_oop c with
      | None => None
      | Some c' => fill_all rest c'
      end
  end.

End MultipleStackTracesCollector.

(** A [jvmtiStackInfo] of the returned block: [thread], [state],
    [frame_count], and [frame_buffer] as the index of its first frame in
    the frame part of the block, [None] for [NULL]. *)
Definition stack_info_out : Type := (Z * Z * Z * option nat)%type.

(** The block that [allocate_and_fill_stacks] fills: the [thread_count]
    stack infos, [None] where nothing was written, the frame infos written
    behind them, and the index where [si] stands. *)
Record block : Type := mk_block {
  _stack_info : list (option stack_info_out);
  frame_infos : list (Z * Z);
  si : nat
}.

(** The loop [for (struct StackInfoNode *sin = head(); sin != NULL; sin = sin->next)]
    of [allocate_and_fill_stacks]; [capacity] is the number of frame infos
    the block has room for.  [None]: a write outside the block, or a copy
    from a buffer that is [NULL] or holds fewer entries. *)
Fixpoint fill_stacks (nodes : list jvmtiStackInfo) (capacity : Z) (b : block)
  : option block :=
  match nodes with
  | [] => Some b
  | sin :: next =>
      match si b with
      | O => None
      | S si' =>
          if frame_count sin =? 0 then
            fill_stacks next capacity
              (mk_block (<[si' := Some (thread sin, state sin, frame_count sin, None)]>
                           (_stack_info b))
                        (frame_infos b) si')
          else
            match frame_buffer sin with
            | None => None
            | Some buffer =>
                if (frame_count sin <? 0)
                   || (Z.of_nat (length buffer) <? frame_count sin)
                   || (capacity <? Z.of_nat (length (frame_infos b)) + frame_count sin)
                then None
                else
                  fill_stacks next capacity
                    (mk_block (<[si' := Some (thread sin, state sin, frame_count sin,
                                              Some (length (frame_infos b)))]>
                                 (_stack_info b))
                              (frame_infos b ++ take (Z.to_nat (frame_count sin)) buffer)
                              si')
            end
      end
  end.

(** [void MultipleStackTracesCollector::allocate_and_fill_stacks(jint thread_count)]
    when [env()->allocate] succeeds. *)
Definition allocate_and_fill_stacks (thread_count : Z) (c : t) : option block :=
  if thread_count <? 0 then None
  else
    fill_stacks (_head c) (_frame_count_total c)
      (mk_block (replicate (Z.to_nat thread_count) None) [] (Z.to_nat thread_count)).

(** The stack infos of the nodes, laid out with the frames of the first node
    at index [offset] of the frame part. *)
Fixpoint layout (nodes : list jvmtiStackInfo) (offset : nat) : list stack_info_out :=
  match nodes with
  | [] => []
  | sin :: next =>
      (thread sin, state sin, frame_count sin,
       if frame_count sin =? 0 then None else Some offset)
      :: layout next (offset + Z.to_nat (frame_count sin))
  end.

(** The frames that the block holds for a node. *)
Definition copied_frames (sin : jvmtiStackInfo) : list (Z * Z) :=
  take (Z.to_nat (frame_count sin)) (default [] (frame_buffer sin)).

(** A node as [fill_frames] leaves it: no frames and no count, or a buffer
    with [frame_count] entries or more. *)
Definition node_ok (sin : jvmtiStackInfo) : Prop :=
  0 <= frame_count sin /\
  (frame_count sin <> 0 ->
   exists buffer, frame_buffer sin = Some buffer /\
                  frame_count sin <= Z.of_nat (length buffer)).

(** The sum of the [frame_count]s of the nodes. *)
Definition total_frames (nodes : list jvmtiStackInfo) : Z :=
  foldr (fun sin total => frame_count sin + total) 0 nodes.

(** The frames that a [jvmtiStackInfo] of the block gives access to: the
    [frame_count] entries from [frame_buffer] on. *)
Definition frames_at (b : block) (info : stack_info_out) : list (Z * Z) :=
  match info.2 with
  | None => []
  | Some first => take (Z.to_nat info.1.2) (drop first (frame_infos b))
  end.

End MultipleStackTracesCollector.

(** ** Examples for the JVMTI functions *)

(** A platform thread with the frames of [example_vthread], and a thread
    without a last Java frame. *)
Definition example_java_thread : JvmtiStack.JavaThread :=
  JvmtiStack.mk_JavaThread true 100 nullptr nullptr
    (JvmtiEnvBase.carrier_vframes example_vthread) [].

Definition example_idle_thread : JvmtiStack.JavaThread :=
  JvmtiStack.mk_JavaThread false 100 nullptr nullptr [] [].

Definition example_magic : JvmtiEnvironment.Magic := {|
  JvmtiEnvironment.JVMTI_MAGIC := 29166;
  JvmtiEnvironment.DISPOSED_MAGIC := 57084;
  JvmtiEnvironment.BAD_MAGIC := 57005
|}.

(** Three environments at [1000], [2000] and [3000], linked in this order;
    the second has been disposed, the third has two prefixes. *)
Definition example_env (magic next : Z) : JvmtiEnvironment.t :=
  JvmtiEnvironment.mk_env magic next nullptr 0 nullptr [] false true false false.

Definition example_env_with_prefixes : JvmtiEnvironment.t :=
  JvmtiEnvironment.mk_env 29166 nullptr nullptr 2 500 [510; 520] false true false false.

Definition example_envs : gmap Z JvmtiEnvironment.t :=
  <[1000 := example_env 29166 2000]>
    (<[2000 := example_env 57084 3000]>
       (<[3000 := example_env_with_prefixes]> ∅)).

Definition example_globals : JvmtiEnvironment.globals :=
  JvmtiEnvironment.mk_globals example_envs 1000 true true.

(** A new environment at [4000], not yet linked. *)
Definition example_globals_with_new : JvmtiEnvironment.globals :=
  JvmtiEnvironment.mk_globals (<[4000 := example_env 29166 nullptr]> example_envs)
    1000 true true.

(** The strings of the C heap: the two prefixes of the third environment and
    two strings of a caller. *)
Definition example_strings : gmap Z string :=
  <[510 := "wrapped_"%string]>
    (<[520 := "$$"%string]>
       (<[700 := "agent_"%string]> (<[710 := "trace_"%string]> ∅))).

(** The prefixes of a caller: [prefixes[0]] and [prefixes[1]] are strings,
    [prefixes[2]] is [NULL]. *)
Definition example_prefixes (i : nat) : Z :=
  match i with
  | O => 700
  | S O => 710
  | _ => nullptr
  end.

(** [os::strdup] returns the blocks [800], [810], ... in turn. *)
Definition example_strdup (i : nat) : Z := 800 + 10 * Z.of_nat i.

(** Monitors of three frames: the object [7] is locked in the frames [0]
    and [2], the object [8] in frame [1], next to a scalar replaced monitor
    and a monitor without owner. *)
Definition example_monitors : list (list JvmtiMonitors.MonitorInfo) :=
  [ [JvmtiMonitors.mk_MonitorInfo false 7];
    [JvmtiMonitors.mk_MonitorInfo true 9;
     JvmtiMonitors.mk_MonitorInfo false nullptr;
     JvmtiMonitors.mk_MonitorInfo false 8];
    [JvmtiMonitors.mk_MonitorInfo false 7] ].

(** Every allocation succeeds. *)
Definition example_allocate (k : nat) : Jvmti.jvmtiError := Jvmti.JVMTI_ERROR_NONE.

Definition example_thread_states : JvmtiThreadState.Constants := {|
  JvmtiThreadState.JVMTI_THREAD_STATE_ALIVE := 1;
  JvmtiThreadState.JVMTI_THREAD_STATE_RUNNABLE := 4;
  JvmtiThreadState.JVMTI_THREAD_STATE_SUSPENDED := 1048576;
  JvmtiThreadState.JVMTI_THREAD_STATE_IN_NATIVE := 4194304;
  JvmtiThreadState.JVMTI_THREAD_STATE_INTERRUPTED := 2097152;
  JvmtiThreadState.RUNNING := 2
|}.

(** Three threads: a running platform thread, a thread that has exited, and
    a mounted virtual thread. *)
Definition example_threads
  : list (Z * option (JvmtiThreadState.JavaThread * JvmtiStack.JavaThread)
          * MultipleStackTracesCollector.thread_oop) :=
  [ (1, Some (JvmtiThreadState.mk_JavaThread false false false false, example_java_thread),
     MultipleStackTracesCollector.other_thread (Some 5));
    (2, None, MultipleStackTracesCollector.other_thread (Some 2));
    (3, None, MultipleStackTracesCollector.virtual_thread 5 false false example_vthread) ].

Definition example_collector : MultipleStackTracesCollector.t :=
  MultipleStackTracesCollector.mk [] 0 Jvmti.JVMTI_ERROR_NONE 2.

(** The collector after [fill_frames] for the three threads. *)
Definition example_filled_collector : MultipleStackTracesCollector.t :=
  MultipleStackTracesCollector.mk
    [ MultipleStackTracesCollector.mk_info 3 5 (Some [(11, 5); (22, -1)]) 2;
      MultipleStackTracesCollector.mk_info 2 2 None 0;
      MultipleStackTracesCollector.mk_info 1 5 (Some [(11, 5); (22, -1)]) 2 ]
    4 Jvmti.JVMTI_ERROR_NONE 2.

(** ** Arithmetic of wrapped words *)

Lemma intptr_wrap_range z : is_intptr (intptr_wrap z).
Proof.
  unfold is_intptr, intptr_wrap.
  pose proof (Z.mod_pos_bound (z + 2 ^ 63) (2 ^ 64) ltac:(lia)). lia.
Qed.

Lemma intptr_wrap_id z : is_intptr z -> intptr_wrap z = z.
Proof.
  unfold is_intptr, intptr_wrap. intros Hz.
  rewrite Z.mod_small by lia. lia.
Qed.

Lemma intptr_wrap_decompose z : exists k, intptr_wrap z = z + 2 ^ 64 * k.
Proof.
  unfold intptr_wrap. exists (- ((z + 2 ^ 63) / 2 ^ 64)).
  pose proof (Z.div_mod (z + 2 ^ 63) (2 ^ 64) ltac:(lia)). lia.
Qed.

Lemma intptr_wrap_shift z k : intptr_wrap (z + 2 ^ 64 * k) = intptr_wrap z.
Proof.
  unfold intptr_wrap.
  replace (z + 2 ^ 64 * k + 2 ^ 63) with (z + 2 ^ 63 + k * 2 ^ 64) by lia.
  now rewrite Z.mod_add by lia.
Qed.

Lemma intptr_wrap_add_r a b : intptr_wrap (a + intptr_wrap b) = intptr_wrap (a + b).
Proof.
  destruct (intptr_wrap_decompose b) as [k ->].
  replace (a + (b + 2 ^ 64 * k)) with (a + b + 2 ^ 64 * k) by lia.
  apply intptr_wrap_shift.
Qed.

Lemma intptr_wrap_add_l a b : intptr_wrap (intptr_wrap a + b) = intptr_wrap (a + b).
Proof. rewrite Z.add_comm, intptr_wrap_add_r. f_equal. lia. Qed.

Lemma intptr_wrap_idem z : intptr_wrap (intptr_wrap z) = intptr_wrap z.
Proof. apply intptr_wrap_id, intptr_wrap_range. Qed.

Lemma intptr_wrap_mod_pow2 z n :
  0 <= n <= 64 -> intptr_wrap z mod 2 ^ n = z mod 2 ^ n.
Proof.
  intros Hn. destruct (intptr_wrap_decompose z) as [k ->].
  replace (2 ^ 64) with (2 ^ n * 2 ^ (64 - n)).
  2:{ rewrite <- Z.pow_add_r by lia. f_equal. lia. }
  replace (z + 2 ^ n * 2 ^ (64 - n) * k) with (z + (2 ^ (64 - n) * k) * 2 ^ n) by lia.
  apply Z.mod_add. pose proof (Z.pow_pos_nonneg 2 n). lia.
Qed.

Lemma intptr_wrap_mod_word z : intptr_wrap z mod wordSize = z mod wordSize.
Proof. apply (intptr_wrap_mod_pow2 z 3). lia. Qed.

Lemma ptr_diff_div p q : ptr_diff p q = intptr_wrap (p - q) / wordSize.
Proof. unfold ptr_diff, LogBytesPerWord. now rewrite Z.shiftr_div_pow2 by lia. Qed.

Lemma ptr_diff_exact p q :
  (p - q) mod wordSize = 0 -> wordSize * ptr_diff p q = intptr_wrap (p - q).
Proof.
  intros Hal. rewrite ptr_diff_div.
  pose proof (intptr_wrap_mod_word (p - q)) as Hm. rewrite Hal in Hm.
  pose proof (Z.div_mod (intptr_wrap (p - q)) wordSize ltac:(unfold wordSize; lia)).
  lia.
Qed.

Lemma ptr_plus_diff base p q :
  (p - q) mod wordSize = 0 ->
  ptr_plus base (ptr_diff p q) = intptr_wrap (base + (p - q)).
Proof.
  intros Hal. unfold ptr_plus. rewrite (ptr_diff_exact _ _ Hal).
  apply intptr_wrap_add_r.
Qed.

Lemma load_store_same m a v : load (store m a v) a = v.
Proof. unfold load, store. now rewrite Z.eqb_refl. Qed.

Lemma load_store_other m a b v : b <> a -> load (store m a v) b = load m b.
Proof.
  unfold load, store. intros Hne.
  destruct (Z.eqb_spec b a); [contradiction | reflexivity].
Qed.

Lemma ptr_plus_exact p n : is_intptr (p + wordSize * n) -> ptr_plus p n = p + wordSize * n.
Proof. apply intptr_wrap_id. Qed.

Lemma ptr_minus_exact p n : is_intptr (p - wordSize * n) -> ptr_minus p n = p - wordSize * n.
Proof. apply intptr_wrap_id. Qed.

Lemma ptr_minus_plus p n : ptr_minus p n = ptr_plus p (- n).
Proof. unfold ptr_minus, ptr_plus. f_equal. lia. Qed.

Lemma ptr_unsigned_small p : 0 <= p < 2 ^ 64 -> ptr_unsigned p = p.
Proof. intros Hp. unfold ptr_unsigned. now apply Z.mod_small. Qed.

Lemma ptr_minus_mod_word p n : ptr_minus p n mod wordSize = p mod wordSize.
Proof.
  unfold ptr_minus. rewrite intptr_wrap_mod_word.
  replace (p - wordSize * n) with (p + (- n) * wordSize) by lia.
  apply Z.mod_add. unfold wordSize. lia.
Qed.

Lemma ptr_plus_mod_word p n : ptr_plus p n mod wordSize = p mod wordSize.
Proof. rewrite <- (Z.opp_involutive n), <- ptr_minus_plus. apply ptr_minus_mod_word. Qed.

(** Two slots below the same pointer are distinct when their word offsets are. *)
Lemma ptr_minus_inj p a b :
  - 2 ^ 60 <= a < 2 ^ 60 -> - 2 ^ 60 <= b < 2 ^ 60 ->
  ptr_minus p a = ptr_minus p b -> a = b.
Proof.
  intros Ha Hb Heq. unfold ptr_minus, wordSize in Heq.
  destruct (intptr_wrap_decompose (p - 8 * a)) as [k Hk].
  destruct (intptr_wrap_decompose (p - 8 * b)) as [j Hj].
  rewrite Hk, Hj in Heq. lia.
Qed.

(** ** Relativization (C1) *)

Lemma relativize_one_slot vfp hfp offset m :
  load (relativize_one vfp hfp offset m) (ptr_plus hfp offset)
  = ptr_diff (load m (ptr_plus hfp offset)) vfp.
Proof. unfold relativize_one. apply load_store_same. Qed.

Lemma relativize_one_other vfp hfp offset m a :
  a <> ptr_plus hfp offset -> load (relativize_one vfp hfp offset m) a = load m a.
Proof. intros Hne. unfold relativize_one. now apply load_store_other. Qed.

Lemma derelativize_one_slot fp' offset m :
  load (derelativize_one fp' offset m) (ptr_plus fp' offset)
  = ptr_plus fp' (load m (ptr_plus fp' offset)).
Proof. unfold derelativize_one. apply load_store_same. Qed.

Lemma derelativize_one_other fp' offset m a :
  a <> ptr_plus fp' offset -> load (derelativize_one fp' offset m) a = load m a.
Proof. intros Hne. unfold derelativize_one. now apply load_store_other. Qed.

(** C1: [relativize_one] at the physical frame pointer [vfp] replaces the
    address [a] held in the chunk copy's slot by [a - vfp], and
    [derelativize_one] at the destination frame pointer [fp'] replaces the
    stored offset [d] by [fp' + d].  For word-aligned pointers the thawed slot
    therefore holds [fp' + (a - vfp)], the address at the same position
    relative to the frame pointer, and a chunk whose bytes were copied from
    [hfp] to another base [hfp2] thaws to the same slot contents. *)
Theorem C1_relativize_position_independent
    (vfp hfp hfp2 fp' offset : Z) (m : memory) :
  (load m (ptr_plus vfp offset) - vfp) mod wordSize = 0 ->
  load (relativize_one vfp hfp offset m) (ptr_plus hfp offset)
    = ptr_diff (load m (ptr_plus hfp offset)) vfp /\
  load (derelativize_one fp' offset m) (ptr_plus fp' offset)
    = ptr_plus fp' (load m (ptr_plus fp' offset)) /\
  load (freeze_slot vfp hfp offset m) (ptr_plus hfp offset)
    = ptr_diff (load m (ptr_plus vfp offset)) vfp /\
  load (thaw_slot hfp fp' offset (freeze_slot vfp hfp offset m)) (ptr_plus fp' offset)
    = intptr_wrap (fp' + (load m (ptr_plus vfp offset) - vfp)) /\
  load (thaw_slot hfp2 fp' offset
          (relocate_slot hfp hfp2 offset (freeze_slot vfp hfp offset m)))
       (ptr_plus fp' offset)
    = load (thaw_slot hfp fp' offset (freeze_slot vfp hfp offset m)) (ptr_plus fp' offset).
Proof.
  intros Hal.
  assert (Hfrozen : load (freeze_slot vfp hfp offset m) (ptr_plus hfp offset)
                    = ptr_diff (load m (ptr_plus vfp offset)) vfp).
  { unfold freeze_slot. rewrite relativize_one_slot.
    unfold copy_word. now rewrite load_store_same. }
  assert (Hthaw : forall base mc,
             load (thaw_slot base fp' offset mc) (ptr_plus fp' offset)
             = ptr_plus fp' (load mc (ptr_plus base offset))).
  { intros base mc. unfold thaw_slot. rewrite derelativize_one_slot.
    unfold copy_word. now rewrite load_store_same. }
  repeat split.
  - apply relativize_one_slot.
  - apply derelativize_one_slot.
  - exact Hfrozen.
  - rewrite Hthaw, Hfrozen. now apply ptr_plus_diff.
  - rewrite !Hthaw. f_equal.
    unfold relocate_slot, copy_word. now rewrite load_store_same.
Qed.

Lemma C1_relativize_position_independent_witness :
  (load (const_memory 4064) (ptr_plus 4096 (-9)) - 4096) mod wordSize = 0 /\
  load (thaw_slot 8192 2048 (-9) (freeze_slot 4096 8192 (-9) (const_memory 4064)))
       (ptr_plus 2048 (-9)) = 2016 /\
  load (thaw_slot 16384 2048 (-9)
          (relocate_slot 8192 16384 (-9) (freeze_slot 4096 8192 (-9) (const_memory 4064))))
       (ptr_plus 2048 (-9)) = 2016.
Proof.
  assert (Hal : (load (const_memory 4064) (ptr_plus 4096 (-9)) - 4096) mod wordSize = 0)
    by reflexivity.
  destruct (C1_relativize_position_independent 4096 8192 16384 2048 (-9)
              (const_memory 4064) Hal) as (_ & _ & _ & Hthaw & Hmoved).
  split; [exact Hal |]. split.
  - rewrite Hthaw. reflexivity.
  - rewrite Hmoved, Hthaw. reflexivity.
Defined.

(** ** Placement of a frame in the chunk (C2) *)

(** C2: [new_hframe] places a frame relative to its caller's position in the
    chunk.  An interpreted frame's chunk frame pointer is
    [caller.unextended_sp - (max_locals + sender_sp_offset)], with the frame's
    stack-argument size added back exactly when the caller is interpreted or
    empty.  A compiled frame's chunk sp is [caller.unextended_sp - fsize],
    reduced by its stack-argument size exactly when the caller is
    interpreted.  All word arithmetic is that of [intptr_t]. *)
Theorem C2_new_hframe_placement `{FrameLayout} `{FrameQueries}
    (K : FKind.t) (f caller : frame) (m : memory) :
  let hf := (Freeze.new_hframe K f caller m).1.1 in
  let caller' := (Freeze.new_hframe K f caller m).1.2 in
  let m' := (Freeze.new_hframe K f caller m).2 in
  if FKind.interpreted K then
    fp hf = intptr_wrap
              (unextended_sp caller - wordSize * (max_locals f + sender_sp_offset)
               + wordSize * (if is_interpreted_frame caller || is_empty caller
                             then Interpreted_stack_argsize f else 0)) /\
    sp hf = ptr_minus (fp hf) (ptr_diff (fp f) (unextended_sp f)) /\
    unextended_sp hf = sp hf /\
    pc hf = pc f /\
    sp caller' = ptr_plus (fp hf) sender_sp_offset /\
    unextended_sp caller' = unextended_sp caller /\
    load m' (ptr_plus (fp hf) interpreter_frame_locals_offset)
      = sender_sp_offset + max_locals f - 1
  else
    sp hf = intptr_wrap
              (unextended_sp caller - wordSize * FKind.size K f
               - wordSize * (if is_interpreted_frame caller
                             then FKind.stack_argsize K f else 0)) /\
    unextended_sp hf = sp hf /\
    fp hf = load m (ptr_minus (sp f) sender_sp_offset) /\
    pc hf = pc f /\
    sp caller' = ptr_plus (sp hf) (FKind.size K f) /\
    unextended_sp caller' = unextended_sp caller /\
    m' = m.
Proof.
  unfold Freeze.new_hframe.
  destruct (FKind.interpreted K); cbn [fst snd sp fp unextended_sp pc set_sp].
  - repeat split.
    + unfold ptr_plus, ptr_minus. rewrite intptr_wrap_add_l. f_equal; lia.
    + unfold addr_at. cbn [fp]. apply load_store_same.
  - repeat split.
    destruct (is_interpreted_frame caller).
    + unfold ptr_minus. rewrite <- Z.add_opp_r, intptr_wrap_add_l. f_equal; lia.
    + unfold ptr_minus. f_equal; lia.
Qed.

(** ** The callee link (C3) *)

(** C3: the patch step of freeze writes the link slot
    [Frame::callee_link_address(caller)] and nothing else.  For an interpreted
    caller the slot receives the caller's frame pointer minus the slot's own
    address (in words); for any other caller it receives the caller's frame
    pointer itself. *)
Theorem C3_patch_pd_link `{FrameLayout} `{FrameQueries}
    (hf caller : frame) (m : memory) :
  let la := callee_link_address caller in
  let m' := Freeze.patch_pd hf caller m in
  load m' la = (if is_interpreted_frame caller
                then ptr_diff (fp caller) la
                else fp caller) /\
  (forall a, a <> la -> load m' a = load m a).
Proof.
  unfold Freeze.patch_pd, patch_callee_link_relative, patch_callee_link.
  destruct (is_interpreted_frame caller); cbv zeta; split;
    solve [ apply load_store_same | intros a Ha; now apply load_store_other ].
Qed.

(** ** The top frame of a chunk as the frame stream reads it (C4) *)

Lemma aligned_sub a b :
  a mod wordSize = 0 -> b mod wordSize = 0 -> (a - b) mod wordSize = 0.
Proof.
  unfold wordSize. intros Ha Hb.
  pose proof (Z.div_mod a 8 ltac:(lia)). pose proof (Z.div_mod b 8 ltac:(lia)).
  replace (a - b) with ((a / 8 - b / 8) * 8) by lia.
  apply Z.mod_mul. lia.
Qed.

(** The relative value stored for an interpreted frame, read back through
    the slot's own address, is the frame pointer. *)
Lemma link_relative_roundtrip fp_addr p :
  word_aligned fp_addr -> word_aligned p -> is_intptr p ->
  ptr_plus fp_addr (ptr_diff p fp_addr) = p.
Proof.
  unfold word_aligned. intros Ha Hp Hr.
  rewrite ptr_plus_diff by now apply aligned_sub.
  replace (fp_addr + (p - fp_addr)) with p by lia.
  now apply intptr_wrap_id.
Qed.

(** C4: after [set_top_frame_metadata_pd(hf)] a frame stream positioned at
    [hf.sp()] recovers the stored values.  [get_pc()] returns the pc written
    at [sp - 1].  The link slot at [sp - sender_sp_offset] holds the frame
    pointer relativized against the slot's own address for an interpreted
    frame and the frame pointer itself otherwise, and [fp()], which adds the
    slot's address back only in the interpreted case, returns [hf.fp()] for
    both tiers.  Only an interpreted frame needs its [sp] and [fp] to be
    addresses of words: the frame pointer of a compiled frame is stored and
    read back as it is, whatever the register holds. *)
Theorem C4_top_frame_metadata_recovered
    `{FrameLayout} `{FrameQueries} `{StackChunkFrameStream.Accessors}
    (hf : frame) (s : StackChunkFrameStream.t) (m : memory) :
  let m' := Freeze.set_top_frame_metadata_pd hf m in
  let fp_addr := ptr_minus (sp hf) sender_sp_offset in
  StackChunkFrameStream._sp s = sp hf ->
  is_MIXED (StackChunkFrameStream.frame_kind s) && StackChunkFrameStream.is_interpreted m' s
    = is_interpreted_frame hf ->
  1 < sender_sp_offset < 2 ^ 60 ->
  (is_interpreted_frame hf = true ->
   word_aligned (sp hf) /\ word_aligned (fp hf) /\ is_intptr (fp hf)) ->
  StackChunkFrameStream.get_pc m' s = pc hf /\
  load m' fp_addr = (if is_interpreted_frame hf
                     then ptr_diff (fp hf) fp_addr
                     else fp hf) /\
  StackChunkFrameStream.fp m' s = fp hf.
Proof.
  intros m' fp_addr Hsp Htier Hoff Hinterpreted.
  assert (Hslot : load m' fp_addr = (if is_interpreted_frame hf
                                     then ptr_diff (fp hf) fp_addr else fp hf)).
  { subst m' fp_addr. unfold Freeze.set_top_frame_metadata_pd. apply load_store_same. }
  split; [| split].
  - unfold StackChunkFrameStream.get_pc. rewrite Hsp.
    subst m'. unfold Freeze.set_top_frame_metadata_pd.
    rewrite load_store_other; [apply load_store_same |].
    intros Heq. apply ptr_minus_inj in Heq; lia.
  - exact Hslot.
  - unfold StackChunkFrameStream.fp. rewrite Hsp, Htier. fold fp_addr. rewrite Hslot.
    destruct (is_interpreted_frame hf); [| reflexivity].
    destruct (Hinterpreted eq_refl) as (Hasp & Hafp & Hrange).
    apply link_relative_roundtrip; try assumption.
    unfold word_aligned, fp_addr. now rewrite ptr_minus_mod_word.
Qed.

(** ** Order of the frame stream (C5) *)

Lemma ptr_geb_small p q :
  0 <= p < 2 ^ 63 -> 0 <= q < 2 ^ 63 -> ptr_geb p q = (q <=? p).
Proof.
  intros Hp Hq. unfold ptr_geb. now rewrite !ptr_unsigned_small by lia.
Qed.

(** One step of the stream over a well-formed interpreted frame. *)
Lemma next_for_interpreter_frame_spec
    `{FrameLayout} `{StackChunkFrameStream.Accessors}
    (m : memory) (s : StackChunkFrameStream.t) :
  StackChunkFrameStream.interpreted_frame_ok m s ->
  StackChunkFrameStream.is_done s = false ->
  let F := StackChunkFrameStream.fp m s in
  let L := load m (ptr_plus F interpreter_frame_locals_offset) in
  let s' := StackChunkFrameStream.next_for_interpreter_frame m s in
  StackChunkFrameStream._sp s < StackChunkFrameStream._sp s'
    <= StackChunkFrameStream._end s /\
  StackChunkFrameStream._sp s' = StackChunkFrameStream.next_sp_for_interpreter_frame m s /\
  StackChunkFrameStream._end s' = StackChunkFrameStream._end s /\
  (if StackChunkFrameStream._end s <=? F + wordSize * (L + 1)
   then StackChunkFrameStream._sp s' = StackChunkFrameStream._end s /\
        StackChunkFrameStream._unextended_sp s' = StackChunkFrameStream._end s /\
        StackChunkFrameStream.is_done s' = true
   else StackChunkFrameStream._sp s' = F + wordSize * sender_sp_offset /\
        StackChunkFrameStream.is_done s' = false).
Proof.
  intros (_ & _ & Hsp & Hend & Hfp & Hoff & Hbot) Hnd F L s'.
  fold F in Hfp, Hbot, Hoff. fold L in Hbot, Hoff.
  unfold wordSize in *.
  assert (Hcur : StackChunkFrameStream._sp s < StackChunkFrameStream._end s).
  { unfold StackChunkFrameStream.is_done in Hnd.
    rewrite ptr_geb_small in Hnd by lia. lia. }
  assert (Hderel : StackChunkFrameStream.derelativize m s interpreter_frame_locals_offset
                   = F + 8 * L).
  { unfold StackChunkFrameStream.derelativize. fold F. fold L.
    apply ptr_plus_exact. unfold is_intptr, wordSize. lia. }
  assert (Hbottom : ptr_plus (StackChunkFrameStream.derelativize m s
                                interpreter_frame_locals_offset) 1
                    = F + 8 * (L + 1)).
  { rewrite Hderel, ptr_plus_exact; unfold is_intptr, wordSize; lia. }
  assert (Hnext : ptr_plus F sender_sp_offset = F + 8 * sender_sp_offset).
  { apply ptr_plus_exact. unfold is_intptr, wordSize. lia. }
  subst s'.
  unfold StackChunkFrameStream.next_for_interpreter_frame,
         StackChunkFrameStream.next_sp_for_interpreter_frame.
  rewrite Hbottom. fold F.
  rewrite ptr_geb_small by lia.
  destruct (Z.leb_spec (StackChunkFrameStream._end s) (F + 8 * (L + 1))) as [Hge | Hlt];
    cbn [StackChunkFrameStream._sp StackChunkFrameStream._end
         StackChunkFrameStream._unextended_sp].
  - repeat split; try lia.
    unfold StackChunkFrameStream.is_done. cbn. rewrite ptr_geb_small by lia. lia.
  - rewrite Hnext. repeat split; try lia.
    unfold StackChunkFrameStream.is_done. cbn. rewrite ptr_geb_small by lia. lia.
Qed.

(** C5: a step of the frame stream over an interpreted frame of a valid
    chunk strictly increases the cursor's sp and never passes the recorded
    end.  The successor sp is the frame's fp plus [sender_sp_offset], unless
    the frame's locals reach the recorded end: exactly then the cursor's sp
    and unextended sp are set to [_end] and the stream is done. *)
Theorem C5_interpreter_frame_step_order
    `{FrameLayout} `{StackChunkFrameStream.Accessors}
    (m : memory) (s : StackChunkFrameStream.t) :
  let F := StackChunkFrameStream.fp m s in
  let L := load m (ptr_plus F interpreter_frame_locals_offset) in
  let s' := StackChunkFrameStream.next_for_interpreter_frame m s in
  is_MIXED (StackChunkFrameStream.frame_kind s) = true ->
  StackChunkFrameStream.is_interpreted m s = true ->
  StackChunkFrameStream.is_done s = false ->
  0 <= StackChunkFrameStream._sp s ->
  0 <= StackChunkFrameStream._end s < 2 ^ 63 ->
  StackChunkFrameStream._sp s <= F ->
  0 < sender_sp_offset <= L + 1 ->
  F + wordSize * (L + 1) < 2 ^ 63 ->
  StackChunkFrameStream._sp s < StackChunkFrameStream._sp s'
    <= StackChunkFrameStream._end s /\
  StackChunkFrameStream._sp s' = StackChunkFrameStream.next_sp_for_interpreter_frame m s /\
  StackChunkFrameStream._end s' = StackChunkFrameStream._end s /\
  (if StackChunkFrameStream._end s <=? F + wordSize * (L + 1)
   then StackChunkFrameStream._sp s' = StackChunkFrameStream._end s /\
        StackChunkFrameStream._unextended_sp s' = StackChunkFrameStream._end s /\
        StackChunkFrameStream.is_done s' = true
   else StackChunkFrameStream._sp s' = F + wordSize * sender_sp_offset /\
        StackChunkFrameStream.is_done s' = false).
Proof.
  intros F L s' HM HI Hnd Hsp Hend Hfp Hoff Hbot.
  apply next_for_interpreter_frame_spec; [| exact Hnd].
  unfold StackChunkFrameStream.interpreted_frame_ok. fold F. fold L. tauto.
Qed.

(** ** Alignment of thawed compiled frames (C6) *)

Lemma land_15 v : Z.land v 15 = v mod 16.
Proof. change 15 with (Z.ones 4). now rewrite Z.land_ones by lia. Qed.

Lemma align_down_16 v : align_down v 16 = v - v mod 16.
Proof.
  unfold align_down. change (16 - 1) with (Z.ones 4).
  rewrite <- Z.ldiff_land, Z.ldiff_ones_r by lia.
  rewrite Z.shiftl_mul_pow2, Z.shiftr_div_pow2 by lia.
  pose proof (Z.div_mod v (2 ^ 4) ltac:(lia)). change (2 ^ 4) with 16 in *. lia.
Qed.

Lemma word_aligned_mod_16 v : word_aligned v -> v mod 16 = 0 \/ v mod 16 = 8.
Proof.
  unfold word_aligned, wordSize. intros Hal.
  pose proof (Z.mod_pos_bound v 16 ltac:(lia)).
  pose proof (Z.div_mod v 16 ltac:(lia)). pose proof (Z.div_mod v 8 ltac:(lia)).
  lia.
Qed.

Lemma frame_align_words_bit size :
  ContinuationHelper.frame_align_words size = size mod 2.
Proof.
  unfold ContinuationHelper.frame_align_words.
  change 1 with (Z.ones 1). now rewrite Z.land_ones by lia.
Qed.

(** [Thaw::align] on a word-aligned pointer: the result is 16-byte aligned,
    it is the pointer itself or the word below it, and it is what
    [frame_align_pointer] computes. *)
Lemma thaw_align_spec `{FrameLayout} `{FrameQueries}
    (hf : frame) (vsp : Z) (caller : frame) (bottom : bool) :
  word_aligned vsp -> is_intptr vsp ->
  (Thaw.align hf vsp caller bottom).1
    = (if Z.land vsp 15 =? 0 then vsp else vsp - wordSize) /\
  (Thaw.align hf vsp caller bottom).1 mod 16 = 0 /\
  (Thaw.align hf vsp caller bottom).1 = ContinuationHelper.frame_align_pointer vsp /\
  (Thaw.align hf vsp caller bottom).2
    = (if Z.land vsp 15 =? 0 then caller
       else set_sp caller (ptr_minus (sp caller) 1)).
Proof.
  intros Hal Hr. unfold Thaw.align, ContinuationHelper.frame_align_pointer.
  rewrite align_down_16, land_15.
  destruct (word_aligned_mod_16 vsp Hal) as [Hm | Hm]; rewrite Hm; cbn.
  - repeat split; lia.
  - assert (Hex : ptr_minus vsp 1 = vsp - 8).
    { apply ptr_minus_exact. unfold is_intptr, wordSize in *.
      pose proof (Z.div_mod vsp 16 ltac:(lia)). lia. }
    rewrite Hex. unfold wordSize. repeat split; try lia.
    pose proof (Z.div_mod vsp 16 ltac:(lia)).
    replace (vsp - 8) with ((vsp / 16) * 16) by lia.
    apply Z.mod_mul. lia.
Qed.

(** C6: a compiled frame thawed under the entry frame or under an
    interpreted caller goes through [align].  The computed destination
    pointer [vsp] is kept when it is 16-byte aligned and is lowered by exactly
    one word otherwise, so at most one padding word is inserted, and the
    physical stack pointer of the thawed frame is 16-byte aligned. *)
Theorem C6_thaw_compiled_alignment `{FrameLayout} `{FrameQueries}
    (K : FKind.t) (hf caller : frame) (bottom : bool) (m : memory) :
  let argsize := compiled_frame_stack_argsize hf in
  let vsp := ptr_minus (ptr_minus (unextended_sp caller) (FKind.size K hf)) argsize in
  let caller0 := set_sp caller (ptr_minus (sp caller) argsize) in
  let f := (Thaw.new_frame K hf caller bottom m).1 in
  let caller' := (Thaw.new_frame K hf caller bottom m).2 in
  bottom || is_interpreted_frame caller = true ->
  word_aligned (unextended_sp caller) ->
  (sp f, caller') = Thaw.align hf vsp caller0 bottom /\
  sp f = (if Z.land vsp 15 =? 0 then vsp else vsp - wordSize) /\
  sp f mod 16 = 0 /\
  0 <= ptr_diff vsp (sp f) <= 1 /\
  unextended_sp f = sp f /\
  sp caller' = (if Z.land vsp 15 =? 0 then sp caller0 else ptr_minus (sp caller0) 1).
Proof.
  intros argsize vsp caller0 f caller' Hcase Hal.
  assert (Hvsp_al : word_aligned vsp).
  { unfold word_aligned, vsp. now rewrite !ptr_minus_mod_word. }
  assert (Hvsp_r : is_intptr vsp) by apply intptr_wrap_range.
  destruct (thaw_align_spec hf vsp caller0 bottom Hvsp_al Hvsp_r)
    as (Hval & Hmod & _ & Hcaller).
  assert (Hnew : (sp f, caller') = Thaw.align hf vsp caller0 bottom).
  { subst f caller'. unfold Thaw.new_frame. rewrite Hcase.
    fold argsize. fold vsp. fold caller0.
    destruct (Thaw.align hf vsp caller0 bottom) as [v c]. reflexivity. }
  assert (Hsp : sp f = (Thaw.align hf vsp caller0 bottom).1) by now rewrite <- Hnew.
  assert (Hc : caller' = (Thaw.align hf vsp caller0 bottom).2) by now rewrite <- Hnew.
  repeat split.
  - exact Hnew.
  - now rewrite Hsp.
  - now rewrite Hsp.
  - rewrite Hsp, Hval. rewrite ptr_diff_div. unfold wordSize.
    destruct (Z.land vsp 15 =? 0).
    + replace (vsp - vsp) with 0 by lia. now cbn.
    + replace (vsp - (vsp - 8)) with 8 by lia. now cbn.
  - rewrite Hsp, Hval. rewrite ptr_diff_div. unfold wordSize.
    destruct (Z.land vsp 15 =? 0).
    + replace (vsp - vsp) with 0 by lia. now cbn.
    + replace (vsp - (vsp - 8)) with 8 by lia. now cbn.
  - subst f. unfold Thaw.new_frame. rewrite Hcase.
    fold argsize. fold vsp. fold caller0.
    destruct (Thaw.align hf vsp caller0 bottom) as [v c]. reflexivity.
  - rewrite Hc, Hcaller. now destruct (Z.land vsp 15 =? 0).
Qed.

(** ** The synthetic return frame (C8) *)

(** C8: [push_interpreter_return_frame(sp)] returns [sp] lowered by
    [frame_metadata] words, stores the forced-preempt return stub's pc in the
    new frame's return-address slot, stores in the new frame's link slot the
    frame pointer read from [sp - sender_sp_offset] before the push, and
    changes no other word. *)
Theorem C8_push_interpreter_return_frame `{FrameLayout} `{FrameQueries}
    (sp0 : Z) (m : memory) :
  let sp1 := (Thaw.push_interpreter_return_frame sp0 m).1 in
  let m' := (Thaw.push_interpreter_return_frame sp0 m).2 in
  0 <= sender_sp_ret_address_offset < sender_sp_offset ->
  sender_sp_offset < 2 ^ 60 ->
  sp1 = ptr_minus sp0 ContinuationHelper.frame_metadata /\
  ContinuationHelper.frame_metadata = sender_sp_offset /\
  load m' (ptr_minus sp1 sender_sp_ret_address_offset)
    = cont_interpreter_forced_preempt_return /\
  load m' (ptr_minus sp1 sender_sp_offset) = load m (ptr_minus sp0 sender_sp_offset) /\
  (forall a, a <> ptr_minus sp1 sender_sp_ret_address_offset ->
             a <> ptr_minus sp1 sender_sp_offset ->
             load m' a = load m a).
Proof.
  intros sp1 m' Hret Hoff. subst sp1 m'.
  unfold Thaw.push_interpreter_return_frame. cbn [fst snd].
  repeat split.
  - rewrite load_store_other; [apply load_store_same |].
    intros Heq. apply ptr_minus_inj in Heq; lia.
  - apply load_store_same.
  - intros a Hra Hlink. now rewrite !load_store_other.
Qed.

(** ** The frame of a finished stream (C10) *)

(** C10: once the stream is done, [to_frame()] returns the empty frame
    whose sp and unextended sp are the cursor's position and whose fp, pc,
    code blob and oop map are null.  The result does not depend on the
    memory or on the stream's accessors: no frame word is read. *)
Theorem C10_to_frame_done `{FrameLayout}
    (A A' : StackChunkFrameStream.Accessors) (m m' : memory)
    (s : StackChunkFrameStream.t) :
  StackChunkFrameStream.is_done s = true ->
  @StackChunkFrameStream.to_frame _ A m s
    = mk_frame (StackChunkFrameStream._sp s) (StackChunkFrameStream._sp s)
               nullptr nullptr nullptr nullptr true /\
  sp (@StackChunkFrameStream.to_frame _ A m s) = StackChunkFrameStream._sp s /\
  unextended_sp (@StackChunkFrameStream.to_frame _ A m s) = StackChunkFrameStream._sp s /\
  fp (@StackChunkFrameStream.to_frame _ A m s) = nullptr /\
  pc (@StackChunkFrameStream.to_frame _ A m s) = nullptr /\
  cb (@StackChunkFrameStream.to_frame _ A m s) = nullptr /\
  oop_map (@StackChunkFrameStream.to_frame _ A m s) = nullptr /\
  @StackChunkFrameStream.to_frame _ A' m' s = @StackChunkFrameStream.to_frame _ A m s.
Proof.
  intros Hdone. unfold StackChunkFrameStream.to_frame. rewrite Hdone.
  repeat split.
Qed.

(** ** The two register maps (C7) *)

Lemma RegisterMap_location_set map reg loc sp0 :
  RegisterMap.location (RegisterMap.set_location map reg loc) reg sp0 = loc.
Proof.
  unfold RegisterMap.location, RegisterMap.set_location. cbn.
  now rewrite lookup_insert_eq.
Qed.



(** ** The location of a frozen frame (C9) *)

Lemma java_sender_loop_nth (jvf : list JvmtiEnvBase.javaVFrame) (cur_depth depth : Z) :
  cur_depth <= depth ->
  JvmtiEnvBase.java_sender_loop jvf cur_depth depth
  = drop (Z.to_nat (depth - cur_depth)) jvf.
Proof.
  revert cur_depth. induction jvf as [| f sender IH]; intros cur_depth Hle.
  - now rewrite drop_nil.
  - cbn [JvmtiEnvBase.java_sender_loop].
    destruct (Z.ltb_spec cur_depth depth) as [Hlt | Hge].
    + rewrite IH by lia.
      replace (Z.to_nat (depth - cur_depth))
        with (S (Z.to_nat (depth - (cur_depth + 1)))) by lia.
      reflexivity.
    + replace (Z.to_nat (depth - cur_depth)) with O by lia. reflexivity.
Qed.

(** The frame at a valid depth is found and its method and location are
    reported; this holds for whichever stream produced the frames. *)
Lemma get_frame_location_at (v : JvmtiEnvBase.vthread) (depth : Z)
    (jvf : JvmtiEnvBase.javaVFrame) :
  0 <= depth ->
  JvmtiEnvBase.get_vthread_jvf v !! Z.to_nat depth = Some jvf ->
  JvmtiEnvBase.get_frame_location v depth
  = (JvmtiEnvBase.JVMTI_ERROR_NONE,
     Some (JvmtiEnvBase.jmethod_id (JvmtiEnvBase.method jvf),
           if JvmtiEnvBase.is_native (JvmtiEnvBase.method jvf)
           then -1 else JvmtiEnvBase.bci jvf)).
Proof.
  intros Hd Hnth. unfold JvmtiEnvBase.get_frame_location.
  rewrite java_sender_loop_nth by lia. rewrite Z.sub_0_r.
  destruct (drop (Z.to_nat depth) (JvmtiEnvBase.get_vthread_jvf v)) as [| f rest] eqn:Hdrop.
  - apply (f_equal (fun l => l !! O)) in Hdrop.
    rewrite lookup_drop, Nat.add_0_r, Hnth in Hdrop. discriminate.
  - apply (f_equal (fun l => l !! O)) in Hdrop.
    rewrite lookup_drop, Nat.add_0_r, Hnth in Hdrop. cbn in Hdrop.
    injection Hdrop as <-. reflexivity.
Qed.

(** C9: for a virtual thread whose frames were live on its carrier's stack
    and every valid depth, [get_frame_location] over the unmounted stack
    returns the method identity and the location index (the frame's bci, or
    [-1] for a native method) that it returned for the frame at that depth
    while the stack was mounted. *)
Theorem C9_get_frame_location_unmounted (v : JvmtiEnvBase.vthread) (depth : Z) :
  JvmtiEnvBase.is_mounted v = true ->
  JvmtiEnvBase.has_last_Java_frame v = true ->
  0 <= depth < Z.of_nat (length (JvmtiEnvBase.carrier_vframes v)) ->
  JvmtiEnvBase.get_frame_location (JvmtiEnvBase.unmount v) depth
    = JvmtiEnvBase.get_frame_location v depth /\
  exists jvf,
    JvmtiEnvBase.carrier_vframes v !! Z.to_nat depth = Some jvf /\
    JvmtiEnvBase.get_frame_location (JvmtiEnvBase.unmount v) depth
    = (JvmtiEnvBase.JVMTI_ERROR_NONE,
       Some (JvmtiEnvBase.jmethod_id (JvmtiEnvBase.method jvf),
             if JvmtiEnvBase.is_native (JvmtiEnvBase.method jvf)
             then -1 else JvmtiEnvBase.bci jvf)).
Proof.
  intros Hmounted Hlast Hdepth.
  destruct (lookup_lt_is_Some_2 (JvmtiEnvBase.carrier_vframes v) (Z.to_nat depth)
              ltac:(lia)) as [jvf Hjvf].
  assert (Hun : JvmtiEnvBase.get_frame_location (JvmtiEnvBase.unmount v) depth
                = (JvmtiEnvBase.JVMTI_ERROR_NONE,
                   Some (JvmtiEnvBase.jmethod_id (JvmtiEnvBase.method jvf),
                         if JvmtiEnvBase.is_native (JvmtiEnvBase.method jvf)
                         then -1 else JvmtiEnvBase.bci jvf))).
  { apply get_frame_location_at; [lia | exact Hjvf]. }
  split.
  - rewrite Hun. symmetry. apply get_frame_location_at; [lia |].
    unfold JvmtiEnvBase.get_vthread_jvf. now rewrite Hmounted, Hlast.
  - exists jvf. split; [exact Hjvf | exact Hun].
Qed.

(** ** Further properties of the code *)

(** The walk of the stream over a chunk of well-formed interpreted frames
    ends: after finitely many steps the stream is done with the cursor
    exactly at [_end], no earlier state is done, and the cursor's sp
    increases strictly from each state to the next. *)
Lemma interpreted_walk_terminates_within
    `{FrameLayout} `{StackChunkFrameStream.Accessors} (m : memory) (k : nat) :
  forall s : StackChunkFrameStream.t,
  (Z.to_nat (StackChunkFrameStream._end s - StackChunkFrameStream._sp s) <= k)%nat ->
  StackChunkFrameStream.is_done s = false ->
  (forall n,
     (forall i, (i <= n)%nat ->
        StackChunkFrameStream.is_done (StackChunkFrameStream.steps m i s) = false) ->
     StackChunkFrameStream.interpreted_frame_ok m (StackChunkFrameStream.steps m n s)) ->
  exists n,
    StackChunkFrameStream.is_done (StackChunkFrameStream.steps m (S n) s) = true /\
    StackChunkFrameStream._sp (StackChunkFrameStream.steps m (S n) s)
      = StackChunkFrameStream._end s /\
    (forall i, (i <= n)%nat ->
       StackChunkFrameStream.is_done (StackChunkFrameStream.steps m i s) = false /\
       StackChunkFrameStream._sp (StackChunkFrameStream.steps m i s)
         < StackChunkFrameStream._sp (StackChunkFrameStream.steps m (S i) s)).
Proof.
  induction k as [| k IH]; intros s Hk Hnd Hok.
  all: assert (Hok0 : StackChunkFrameStream.interpreted_frame_ok m s)
         by (apply (Hok O); intros i Hi; now replace i with O by lia).
  - destruct (next_for_interpreter_frame_spec m s Hok0 Hnd) as (Hlt & _). lia.
  - destruct (next_for_interpreter_frame_spec m s Hok0 Hnd)
      as (Hlt & _ & Hend & Hcase).
    destruct (StackChunkFrameStream.is_done
                (StackChunkFrameStream.next_for_interpreter_frame m s)) eqn:Hdone.
    + exists O. cbn [StackChunkFrameStream.steps]. repeat split.
      * exact Hdone.
      * destruct (_ <=? _); [tauto | destruct Hcase; congruence].
      * replace i with O by lia. exact Hnd.
      * replace i with O by lia. cbn [StackChunkFrameStream.steps]. lia.
    + destruct (IH (StackChunkFrameStream.next_for_interpreter_frame m s))
        as (n & Hfin & Hat & Hbefore).
      * rewrite Hend. lia.
      * exact Hdone.
      * intros j Hj. apply (Hok (S j)).
        intros [| i] Hi; [exact Hnd | apply (Hj i); lia].
      * exists (S n). repeat split.
        -- exact Hfin.
        -- rewrite <- Hend. exact Hat.
        -- destruct i as [| i]; [exact Hnd | apply (Hbefore i); lia].
        -- destruct i as [| i].
           ++ cbn [StackChunkFrameStream.steps]. lia.
           ++ apply (Hbefore i). lia.
Qed.

Theorem interpreted_walk_terminates
    `{FrameLayout} `{StackChunkFrameStream.Accessors}
    (m : memory) (s : StackChunkFrameStream.t) :
  StackChunkFrameStream.is_done s = false ->
  (forall n,
     (forall i, (i <= n)%nat ->
        StackChunkFrameStream.is_done (StackChunkFrameStream.steps m i s) = false) ->
     StackChunkFrameStream.interpreted_frame_ok m (StackChunkFrameStream.steps m n s)) ->
  exists n,
    StackChunkFrameStream.is_done (StackChunkFrameStream.steps m (S n) s) = true /\
    StackChunkFrameStream._sp (StackChunkFrameStream.steps m (S n) s)
      = StackChunkFrameStream._end s /\
    (forall i, (i <= n)%nat ->
       StackChunkFrameStream.is_done (StackChunkFrameStream.steps m i s) = false /\
       StackChunkFrameStream._sp (StackChunkFrameStream.steps m i s)
         < StackChunkFrameStream._sp (StackChunkFrameStream.steps m (S i) s)).
Proof.
  apply (interpreted_walk_terminates_within m
           (Z.to_nat (StackChunkFrameStream._end s - StackChunkFrameStream._sp s))).
  lia.
Qed.

(** Thaw patches the callee link with the caller's frame pointer itself,
    whatever the caller's tier, and changes no other word. *)
Theorem thaw_patch_pd_absolute `{FrameLayout} `{FrameQueries}
    (f caller : frame) (m : memory) :
  load (Thaw.patch_pd f caller m) (callee_link_address caller) = fp caller /\
  (forall a, a <> callee_link_address caller ->
             load (Thaw.patch_pd f caller m) a = load m a).
Proof.
  unfold Thaw.patch_pd, patch_callee_link. split.
  - apply load_store_same.
  - intros a Ha. now apply load_store_other.
Qed.

(** [frame_align_pointer] returns the greatest 16-byte aligned address that
    is not above its argument. *)
Theorem frame_align_pointer_spec (p : Z) :
  ContinuationHelper.frame_align_pointer p mod 16 = 0 /\
  ContinuationHelper.frame_align_pointer p <= p < ContinuationHelper.frame_align_pointer p + 16.
Proof.
  unfold ContinuationHelper.frame_align_pointer. rewrite align_down_16.
  pose proof (Z.mod_pos_bound p 16 ltac:(lia)).
  pose proof (Z.div_mod p 16 ltac:(lia)).
  split; [| lia].
  replace (p - p mod 16) with ((p / 16) * 16) by lia.
  apply Z.mod_mul. lia.
Qed.

(** Past the last frame [get_frame_location] reports
    [JVMTI_ERROR_NO_MORE_FRAMES] and writes nothing; so it does at every depth
    for a mounted virtual thread whose carrier has no last Java frame. *)
Theorem get_frame_location_no_more_frames (v : JvmtiEnvBase.vthread) (depth : Z) :
  (if Z.of_nat (length (JvmtiEnvBase.get_vthread_jvf v)) <=? depth
   then JvmtiEnvBase.get_frame_location v depth
        = (JvmtiEnvBase.JVMTI_ERROR_NO_MORE_FRAMES, None)
   else True) /\
  (if JvmtiEnvBase.is_mounted v && negb (JvmtiEnvBase.has_last_Java_frame v)
   then JvmtiEnvBase.get_frame_location v depth
        = (JvmtiEnvBase.JVMTI_ERROR_NO_MORE_FRAMES, None)
   else True).
Proof.
  split.
  - destruct (Z.leb_spec (Z.of_nat (length (JvmtiEnvBase.get_vthread_jvf v))) depth)
      as [Hge | _]; [| exact I].
    unfold JvmtiEnvBase.get_frame_location.
    rewrite java_sender_loop_nth by lia. rewrite Z.sub_0_r.
    now rewrite drop_ge by lia.
  - destruct (JvmtiEnvBase.is_mounted v) eqn:Hm; [| exact I].
    destruct (JvmtiEnvBase.has_last_Java_frame v) eqn:Hl; [exact I |].
    cbn. unfold JvmtiEnvBase.get_frame_location, JvmtiEnvBase.get_vthread_jvf.
    now rewrite Hm, Hl.
Qed.

Lemma ptr_plus_inj p a b :
  - 2 ^ 60 <= a < 2 ^ 60 -> - 2 ^ 60 <= b < 2 ^ 60 ->
  ptr_plus p a = ptr_plus p b -> a = b.
Proof.
  intros Ha Hb Heq. unfold ptr_plus, wordSize in Heq.
  destruct (intptr_wrap_decompose (p + 8 * a)) as [k Hk].
  destruct (intptr_wrap_decompose (p + 8 * b)) as [j Hj].
  rewrite Hk, Hj in Heq. lia.
Qed.

(** [relativize_interpreted_frame_metadata] rewrites three slots of the
    chunk frame and nothing else: [last_sp] receives the offset of the chunk
    frame's unextended sp from its fp, [locals] is recomputed as
    [sender_sp_offset + max_locals - 1], and [initial_sp] is relativized
    against the frame pointer of the live frame. *)
Theorem relativize_interpreted_frame_metadata_effect `{FrameLayout} `{FrameQueries}
    (f hf : frame) (m : memory) :
  let m' := FreezeBase.relativize_interpreted_frame_metadata f hf m in
  - 2 ^ 60 <= interpreter_frame_initial_sp_offset ->
  interpreter_frame_initial_sp_offset < interpreter_frame_locals_offset ->
  interpreter_frame_locals_offset < interpreter_frame_last_sp_offset ->
  interpreter_frame_last_sp_offset < 2 ^ 60 ->
  load m' (addr_at hf interpreter_frame_last_sp_offset)
    = ptr_diff (unextended_sp hf) (fp hf) /\
  load m' (addr_at hf interpreter_frame_locals_offset)
    = sender_sp_offset + max_locals f - 1 /\
  load m' (addr_at hf interpreter_frame_initial_sp_offset)
    = ptr_diff (load m (addr_at hf interpreter_frame_initial_sp_offset)) (fp f) /\
  (forall a, a <> addr_at hf interpreter_frame_last_sp_offset ->
             a <> addr_at hf interpreter_frame_locals_offset ->
             a <> addr_at hf interpreter_frame_initial_sp_offset ->
             load m' a = load m a).
Proof.
  intros m' Hlo H1 H2 Hhi. subst m'.
  unfold FreezeBase.relativize_interpreted_frame_metadata, addr_at.
  assert (Hne : forall a b, - 2 ^ 60 <= a < 2 ^ 60 -> - 2 ^ 60 <= b < 2 ^ 60 -> a <> b ->
                            ptr_plus (fp hf) a <> ptr_plus (fp hf) b).
  { intros a b Ha Hb Hab Heq. apply Hab. now apply (ptr_plus_inj (fp hf)). }
  repeat split.
  - rewrite relativize_one_other by (apply Hne; lia).
    rewrite load_store_other by (apply Hne; lia).
    apply load_store_same.
  - rewrite relativize_one_other by (apply Hne; lia).
    apply load_store_same.
  - rewrite relativize_one_slot.
    now rewrite !load_store_other by (apply Hne; lia).
  - intros a Ha1 Ha2 Ha3.
    rewrite relativize_one_other by exact Ha3.
    now rewrite !load_store_other.
Qed.

(** [derelativize_interpreted_frame_metadata] turns the offsets in the
    [last_sp] and [initial_sp] slots of the thawed frame into addresses
    relative to its frame pointer and changes no other word. *)
Theorem derelativize_interpreted_frame_metadata_effect `{FrameLayout}
    (hf f : frame) (m : memory) :
  let m' := ThawBase.derelativize_interpreted_frame_metadata hf f m in
  - 2 ^ 60 <= interpreter_frame_initial_sp_offset ->
  interpreter_frame_initial_sp_offset < interpreter_frame_last_sp_offset ->
  interpreter_frame_last_sp_offset < 2 ^ 60 ->
  load m' (addr_at f interpreter_frame_last_sp_offset)
    = ptr_plus (fp f) (load m (addr_at f interpreter_frame_last_sp_offset)) /\
  load m' (addr_at f interpreter_frame_initial_sp_offset)
    = ptr_plus (fp f) (load m (addr_at f interpreter_frame_initial_sp_offset)) /\
  (forall a, a <> addr_at f interpreter_frame_last_sp_offset ->
             a <> addr_at f interpreter_frame_initial_sp_offset ->
             load m' a = load m a).
Proof.
  intros m' Hlo Hlt Hhi. subst m'.
  unfold ThawBase.derelativize_interpreted_frame_metadata, addr_at.
  assert (Hne : ptr_plus (fp f) interpreter_frame_last_sp_offset
                <> ptr_plus (fp f) interpreter_frame_initial_sp_offset).
  { intros Heq. apply ptr_plus_inj in Heq; lia. }
  repeat split.
  - rewrite derelativize_one_other by exact Hne. apply derelativize_one_slot.
  - rewrite derelativize_one_slot. f_equal.
    apply derelativize_one_other. congruence.
  - intros a Ha1 Ha2. now rewrite !derelativize_one_other.
Qed.

(** ** The theorems at concrete inputs *)

Section Examples.

#[local] Existing Instance x86_64_layout.
#[local] Existing Instance x86_64_registers.
#[local] Existing Instance example_queries.
#[local] Existing Instance example_accessors.

Lemma C4_top_frame_metadata_recovered_witness :
  (StackChunkFrameStream.get_pc
     (Freeze.set_top_frame_metadata_pd example_hf_interpreted (const_memory 0))
     (StackChunkFrameStream.mk MIXED 8000 4000 4000 nullptr nullptr) = 1500 /\
   StackChunkFrameStream.fp
     (Freeze.set_top_frame_metadata_pd example_hf_interpreted (const_memory 0))
     (StackChunkFrameStream.mk MIXED 8000 4000 4000 nullptr nullptr) = 4040) /\
  (StackChunkFrameStream.get_pc
     (Freeze.set_top_frame_metadata_pd example_hf_compiled_oop (const_memory 0))
     (StackChunkFrameStream.mk COMPILED_ONLY 8000 4000 4000 nullptr nullptr) = 5000 /\
   StackChunkFrameStream.fp
     (Freeze.set_top_frame_metadata_pd example_hf_compiled_oop (const_memory 0))
     (StackChunkFrameStream.mk COMPILED_ONLY 8000 4000 4000 nullptr nullptr) = 4043 /\
   fp example_hf_compiled_oop mod wordSize = 3).
Proof.
  split.
  - destruct (C4_top_frame_metadata_recovered example_hf_interpreted
                (StackChunkFrameStream.mk MIXED 8000 4000 4000 nullptr nullptr)
                (const_memory 0))
      as (Hpc & _ & Hfp);
      [ reflexivity | reflexivity | cbn; lia
      | intros _; split; [reflexivity | split; [reflexivity | unfold is_intptr; cbn; lia]]
      | ].
    split; [exact Hpc | exact Hfp].
  - destruct (C4_top_frame_metadata_recovered example_hf_compiled_oop
                (StackChunkFrameStream.mk COMPILED_ONLY 8000 4000 4000 nullptr nullptr)
                (const_memory 0))
      as (Hpc & _ & Hfp);
      [ reflexivity | reflexivity | cbn; lia | intros Hinterpreted; discriminate Hinterpreted | ].
    split; [exact Hpc |]. split; [exact Hfp | reflexivity].
Defined.

Lemma C5_interpreter_frame_step_order_witness :
  (StackChunkFrameStream._sp
     (StackChunkFrameStream.next_for_interpreter_frame example_chunk (stream_in_chunk 2000))
     = 1080 /\
   StackChunkFrameStream.is_done
     (StackChunkFrameStream.next_for_interpreter_frame example_chunk (stream_in_chunk 2000))
     = false) /\
  (StackChunkFrameStream._sp
     (StackChunkFrameStream.next_for_interpreter_frame example_chunk (stream_in_chunk 1104))
     = 1104 /\
   StackChunkFrameStream._unextended_sp
     (StackChunkFrameStream.next_for_interpreter_frame example_chunk (stream_in_chunk 1104))
     = 1104 /\
   StackChunkFrameStream.is_done
     (StackChunkFrameStream.next_for_interpreter_frame example_chunk (stream_in_chunk 1104))
     = true).
Proof.
  split.
  - destruct (C5_interpreter_frame_step_order example_chunk (stream_in_chunk 2000))
      as (_ & _ & _ & Hcase);
      [ reflexivity | reflexivity | reflexivity | cbn; lia | cbn; lia
      | by_computation | by_computation | by_computation | ].
    exact Hcase.
  - destruct (C5_interpreter_frame_step_order example_chunk (stream_in_chunk 1104))
      as (_ & _ & _ & Hcase);
      [ reflexivity | reflexivity | reflexivity | cbn; lia | cbn; lia
      | by_computation | by_computation | by_computation | ].
    exact Hcase.
Defined.

Lemma C6_thaw_compiled_alignment_witness :
  (sp (Thaw.new_frame example_compiled example_hf_compiled example_entry true
         (const_memory 0)).1 = 9920 /\
   sp (Thaw.new_frame example_compiled example_hf_compiled example_entry true
         (const_memory 0)).1 mod 16 = 0) /\
  (sp (Thaw.new_frame example_compiled example_hf_compiled example_interpreted_caller false
         (const_memory 0)).1 = 9936 /\
   sp (Thaw.new_frame example_compiled example_hf_compiled example_interpreted_caller false
         (const_memory 0)).1 mod 16 = 0).
Proof.
  split.
  - destruct (C6_thaw_compiled_alignment example_compiled example_hf_compiled
                example_entry true (const_memory 0))
      as (_ & Hsp & Hmod & _); [ reflexivity | reflexivity | ].
    split; [exact Hsp | exact Hmod].
  - destruct (C6_thaw_compiled_alignment example_compiled example_hf_compiled
                example_interpreted_caller false (const_memory 0))
      as (_ & Hsp & Hmod & _); [ reflexivity | reflexivity | ].
    split; [exact Hsp | exact Hmod].
Defined.

Lemma C8_push_interpreter_return_frame_witness :
  (Thaw.push_interpreter_return_frame 5000 (store (const_memory 0) 4984 7777)).1 = 4984 /\
  load (Thaw.push_interpreter_return_frame 5000 (store (const_memory 0) 4984 7777)).2 4976
    = 1500 /\
  load (Thaw.push_interpreter_return_frame 5000 (store (const_memory 0) 4984 7777)).2 4968
    = 7777.
Proof.
  destruct (C8_push_interpreter_return_frame 5000 (store (const_memory 0) 4984 7777))
    as (Hsp & _ & Hpc & Hfp & _); [ cbn; lia | cbn; lia | ].
  split; [exact Hsp |]. split; [exact Hpc | exact Hfp].
Defined.

Lemma C10_to_frame_done_witness :
  StackChunkFrameStream.to_frame example_chunk
    (StackChunkFrameStream.mk MIXED 2000 2000 2000 nullptr nullptr)
  = mk_frame 2000 2000 nullptr nullptr nullptr nullptr true.
Proof.
  destruct (C10_to_frame_done example_accessors example_accessors example_chunk
              example_chunk (StackChunkFrameStream.mk MIXED 2000 2000 2000 nullptr nullptr))
    as (Hfr & _); [ reflexivity | ].
  exact Hfr.
Defined.

Lemma C9_get_frame_location_unmounted_witness :
  JvmtiEnvBase.get_frame_location (JvmtiEnvBase.unmount example_vthread) 1
    = JvmtiEnvBase.get_frame_location example_vthread 1 /\
  JvmtiEnvBase.get_frame_location (JvmtiEnvBase.unmount example_vthread) 1
    = (JvmtiEnvBase.JVMTI_ERROR_NONE, Some (22, -1)).
Proof.
  destruct (C9_get_frame_location_unmounted example_vthread 1)
    as (Hsame & _); [ reflexivity | reflexivity | cbn; lia | ].
  split; [exact Hsame | reflexivity].
Defined.

Lemma interpreted_walk_terminates_witness :
  exists n,
    StackChunkFrameStream.is_done
      (StackChunkFrameStream.steps example_chunk (S n) (stream_in_chunk 1104)) = true /\
    StackChunkFrameStream._sp
      (StackChunkFrameStream.steps example_chunk (S n) (stream_in_chunk 1104)) = 1104.
Proof.
  destruct (interpreted_walk_terminates example_chunk (stream_in_chunk 1104))
    as (n & Hdone & Hsp & _).
  - reflexivity.
  - intros [| n] Hbefore.
    + by_computation.
    + specialize (Hbefore 1%nat ltac:(lia)). discriminate Hbefore.
  - exists n. split; [exact Hdone | exact Hsp].
Defined.

Lemma relativize_interpreted_frame_metadata_effect_witness :
  load (FreezeBase.relativize_interpreted_frame_metadata example_f example_hf_interpreted
          (const_memory 20016))
       (addr_at example_hf_interpreted interpreter_frame_last_sp_offset) = -5 /\
  load (FreezeBase.relativize_interpreted_frame_metadata example_f example_hf_interpreted
          (const_memory 20016))
       (addr_at example_hf_interpreted interpreter_frame_locals_offset) = 4 /\
  load (FreezeBase.relativize_interpreted_frame_metadata example_f example_hf_interpreted
          (const_memory 20016))
       (addr_at example_hf_interpreted interpreter_frame_initial_sp_offset) = -6.
Proof.
  destruct (relativize_interpreted_frame_metadata_effect example_f example_hf_interpreted
              (const_memory 20016))
    as (Hlast & Hlocals & Hinitial & _);
    [ cbn; lia | cbn; lia | cbn; lia | cbn; lia | ].
  split; [exact Hlast |]. split; [exact Hlocals | exact Hinitial].
Defined.

Lemma derelativize_interpreted_frame_metadata_effect_witness :
  load (ThawBase.derelativize_interpreted_frame_metadata example_hf_interpreted example_f
          (const_memory (-6)))
       (addr_at example_f interpreter_frame_initial_sp_offset) = 20016.
Proof.
  destruct (derelativize_interpreted_frame_metadata_effect example_hf_interpreted example_f
              (const_memory (-6)))
    as (_ & Hinitial & _); [ cbn; lia | cbn; lia | cbn; lia | ].
  exact Hinitial.
Defined.

(** [new_hframe] across the tier combinations: an interpreted callee under
    an interpreted, an empty and a compiled caller, then a compiled callee
    under the same three. *)
Example new_hframe_interpreted_under_interpreted :
  fp (Freeze.new_hframe example_interpreted example_f caller_interpreted (const_memory 0)).1.1
    = 9000 - 8 * (3 + 2) + 8 * 1.
Proof. reflexivity. Qed.

Example new_hframe_interpreted_under_empty :
  fp (Freeze.new_hframe example_interpreted example_f caller_empty (const_memory 0)).1.1
    = 9000 - 8 * (3 + 2) + 8 * 1.
Proof. reflexivity. Qed.

Example new_hframe_interpreted_under_compiled :
  fp (Freeze.new_hframe example_interpreted example_f caller_compiled (const_memory 0)).1.1
    = 9000 - 8 * (3 + 2).
Proof. reflexivity. Qed.

Example new_hframe_compiled_under_interpreted :
  sp (Freeze.new_hframe example_compiled example_f caller_interpreted (const_memory 0)).1.1
    = 9000 - 8 * 6 - 8 * 3.
Proof. reflexivity. Qed.

Example new_hframe_compiled_under_empty :
  sp (Freeze.new_hframe example_compiled example_f caller_empty (const_memory 0)).1.1
    = 9000 - 8 * 6.
Proof. reflexivity. Qed.

Example new_hframe_compiled_under_compiled :
  sp (Freeze.new_hframe example_compiled example_f caller_compiled (const_memory 0)).1.1
    = 9000 - 8 * 6.
Proof. reflexivity. Qed.

(** The link of a callee frozen under an interpreted caller is relative to
    the link slot, under a compiled caller it is the frame pointer. *)
Example patch_pd_interpreted_caller :
  load (Freeze.patch_pd example_hf_compiled caller_interpreted (const_memory 0)) 8984
    = (9104 - 8984) / 8.
Proof. reflexivity. Qed.

Example patch_pd_compiled_caller :
  load (Freeze.patch_pd example_hf_compiled caller_compiled (const_memory 0)) 8984 = 9104.
Proof. reflexivity. Qed.

(** The restricted map in a debug build: the frame-pointer register is
    accepted, another register fails the assertion. *)
Example small_map_other_register :
  SmallRegisterMap.location true rbp_VMReg 1000 = Some 984 /\
  SmallRegisterMap.location true (VMReg_next rbp_VMReg) 1000 = Some 984 /\
  SmallRegisterMap.location true 0 1000 = None /\
  SmallRegisterMap.location false 0 1000 = Some 984.
Proof. repeat split. Qed.

End Examples.

(** ** Frame counts and stack traces *)

Lemma int_wrap_id z : - 2 ^ 31 <= z < 2 ^ 31 -> int_wrap z = z.
Proof. intros Hz. unfold int_wrap. rewrite Z.mod_small by lia. lia. Qed.

Lemma frame_count_loop_length (jvf : list JvmtiEnvBase.javaVFrame) (count : Z) :
  0 <= count -> count + Z.of_nat (length jvf) < 2 ^ 31 ->
  JvmtiStack.frame_count_loop jvf count = count + Z.of_nat (length jvf).
Proof.
  revert count. induction jvf as [| f sender IH]; intros count Hc Hlen; cbn in *.
  - lia.
  - rewrite int_wrap_id by lia. rewrite IH by lia. lia.
Qed.

Lemma get_frame_count_length (jvf : list JvmtiEnvBase.javaVFrame) :
  Z.of_nat (length jvf) < 2 ^ 31 ->
  JvmtiStack.get_frame_count jvf = Z.of_nat (length jvf).
Proof.
  intros Hlen. unfold JvmtiStack.get_frame_count.
  rewrite frame_count_loop_length by lia. lia.
Qed.

Lemma fill_frame_buffer_take (jvf : list JvmtiEnvBase.javaVFrame) (count max_count : Z) :
  JvmtiStack.fill_frame_buffer jvf count max_count
  = JvmtiStack.frame_info <$> take (Z.to_nat (max_count - count)) jvf.
Proof.
  revert count. induction jvf as [| f sender IH]; intros count; cbn.
  - now rewrite take_nil.
  - destruct (Z.ltb_spec count max_count) as [Hlt | Hge].
    + rewrite IH.
      replace (Z.to_nat (max_count - count))
        with (S (Z.to_nat (max_count - (count + 1)))) by lia.
      reflexivity.
    + replace (Z.to_nat (max_count - count)) with O by lia. reflexivity.
Qed.

Lemma cursor_loop_drop (l : list JvmtiEnvBase.javaVFrame) (j start_depth : Z) (t : nat) :
  j - start_depth = Z.of_nat t ->
  JvmtiStack.cursor_loop l j start_depth
  = (drop (Nat.min t (length l)) l, j - Z.of_nat (Nat.min t (length l))).
Proof.
  revert j t. induction l as [| f sender IH]; intros j t Ht; cbn.
  - rewrite Nat.min_0_r. cbn. f_equal. lia.
  - destruct (Z.ltb_spec start_depth j) as [Hlt | Hge].
    + destruct t as [| t]; [lia |].
      rewrite (IH (j - 1) t) by lia. cbn. f_equal. lia.
    + replace t with O by lia. cbn. f_equal. lia.
Qed.

Lemma advance_drop (n : nat) (l : list JvmtiEnvBase.javaVFrame) :
  (n <= length l)%nat -> JvmtiStack.advance n l = Some (drop n l).
Proof.
  revert l. induction n as [| n IH]; intros l Hn; cbn.
  - now rewrite drop_0.
  - destruct l as [| f sender]; cbn in *; [lia |]. apply IH. lia.
Qed.

Lemma back_scan_nil (fuel : nat) (start_depth : Z)
    (prev pp : list JvmtiEnvBase.javaVFrame) (j : Z) :
  JvmtiStack.back_scan fuel start_depth [] prev pp j = Some (prev, pp, j).
Proof. destruct fuel; reflexivity. Qed.

Lemma back_scan_step (fuel : nat) (start_depth : Z)
    (l prev pp : list JvmtiEnvBase.javaVFrame) (j : Z) :
  l <> [] ->
  JvmtiStack.back_scan (S fuel) start_depth l prev pp j
  = JvmtiStack.back_scan fuel start_depth
      (JvmtiStack.cursor_loop l 0 start_depth).1 l prev
      (JvmtiStack.cursor_loop l 0 start_depth).2.
Proof.
  intros Hne. destruct l as [| f l0]; [congruence |].
  cbn [JvmtiStack.back_scan].
  now destruct (JvmtiStack.cursor_loop (f :: l0) 0 start_depth).
Qed.

(** The backward scan of [get_stack_trace] for [start_depth = -k]: it ends
    with [jvf_prev] at the last group of [r] frames, [1 <= r <= k], the groups
    before it having [k] frames each, with [jvf_prev_prev] one group earlier
    and [j = -r]. *)
Lemma back_scan_groups (k : nat) :
  (1 <= k)%nat ->
  forall (fuel : nat) (l prev pp : list JvmtiEnvBase.javaVFrame) (j0 : Z),
  l <> [] -> (length l <= fuel)%nat ->
  exists r q : nat,
    (1 <= r <= k)%nat /\ length l = (q * k + r)%nat /\
    JvmtiStack.back_scan fuel (- Z.of_nat k) l prev pp j0
    = Some (drop (length l - r) l,
            (if (length l - r =? 0)%nat then prev else drop (length l - r - k) l),
            - Z.of_nat r).
Proof.
  intros Hk. induction fuel as [| fuel IH]; intros l prev pp j0 Hne Hfuel.
  - destruct l; [congruence | cbn in Hfuel; lia].
  - assert (Hpos : (1 <= length l)%nat).
    { destruct l; [congruence | cbn; lia]. }
    rewrite back_scan_step by exact Hne.
    rewrite (cursor_loop_drop l 0 (- Z.of_nat k) k) by lia.
    cbn [fst snd].
    destruct (Nat.le_gt_cases (length l) k) as [Hshort | Hlong].
    + rewrite Nat.min_r by lia. rewrite drop_all, back_scan_nil.
      exists (length l), O.
      split; [lia |]. split; [lia |].
      rewrite Nat.sub_diag. cbn [Nat.eqb]. rewrite drop_0.
      repeat f_equal; lia.
    + rewrite Nat.min_l by lia.
      destruct (IH (drop k l) l prev (0 - Z.of_nat k)) as (r & q & Hr & Hlen & Hscan).
      * intros Hnil. apply (f_equal length) in Hnil.
        rewrite length_drop in Hnil. cbn [length] in Hnil. lia.
      * rewrite length_drop. lia.
      * rewrite length_drop in Hlen, Hscan.
        exists r, (S q). split; [exact Hr |]. split; [lia |].
        rewrite Hscan. rewrite drop_drop.
        replace (k + (length l - k - r))%nat with (length l - r)%nat by lia.
        replace ((length l - r =? 0)%nat) with false
          by (symmetry; apply Nat.eqb_neq; lia).
        destruct (Nat.eqb_spec (length l - k - r) 0) as [Hz | Hnz].
        -- replace (length l - r - k)%nat with O by lia. now rewrite drop_0.
        -- rewrite drop_drop.
           assert (1 <= q)%nat by (destruct q; [lia | lia]).
           replace (k + (length l - k - r - k))%nat with (length l - r - k)%nat by nia.
           reflexivity.
Qed.

(** Where [get_stack_trace] starts for [start_depth != 0]: at [start_depth]
    frames from the top when it is positive, and with [-start_depth] frames
    remaining when it is negative; [JVMTI_ERROR_ILLEGAL_ARGUMENT] when the
    stack has no such frame. *)
Lemma start_frame_spec (jvf : list JvmtiEnvBase.javaVFrame) (start_depth : Z) :
  start_depth <> 0 ->
  JvmtiStack.start_frame jvf start_depth
  = Some (if ((0 <? start_depth) && (Z.of_nat (length jvf) <=? start_depth))
             || ((start_depth <? 0) && (Z.of_nat (length jvf) <? - start_depth))
          then inl Jvmti.JVMTI_ERROR_ILLEGAL_ARGUMENT
          else inr (drop (Z.to_nat (if 0 <=? start_depth then start_depth
                                    else Z.of_nat (length jvf) + start_depth)) jvf)).
Proof.
  intros Hnz. unfold JvmtiStack.start_frame.
  destruct (Z.ltb_spec 0 start_depth) as [Hpos | Hneg].
  - rewrite java_sender_loop_nth by lia. rewrite Z.sub_0_r.
    replace (start_depth <? 0) with false by (symmetry; apply Z.ltb_ge; lia).
    replace (0 <=? start_depth) with true by (symmetry; apply Z.leb_le; lia).
    cbn [andb orb]. rewrite orb_false_r.
    destruct (Z.leb_spec (Z.of_nat (length jvf)) start_depth) as [Hdeep | Hin].
    + now rewrite drop_ge by lia.
    + destruct (drop (Z.to_nat start_depth) jvf) as [| f rest] eqn:Hdrop; [| reflexivity].
      apply (f_equal length) in Hdrop. rewrite length_drop in Hdrop. cbn in Hdrop. lia.
  - assert (Hlt : start_depth < 0) by lia.
    replace (start_depth <? 0) with true by (symmetry; apply Z.ltb_lt; lia).
    replace (0 <=? start_depth) with false by (symmetry; apply Z.leb_gt; lia).
    cbn [andb orb].
    set (k := Z.to_nat (- start_depth)).
    assert (Hk : start_depth = - Z.of_nat k) by lia.
    destruct (decide (jvf = [])) as [-> | Hne0].
    { clear k Hk. destruct start_depth as [| p | p]; [lia | lia | reflexivity]. }
    set (l := jvf) in *.
    destruct (back_scan_groups k ltac:(lia) (length l) l [] [] 0)
      as (r & q & Hr & Hlen & Hscan); [exact Hne0 | lia |].
    rewrite Hk at 1. rewrite Hscan.
    destruct (Z.eqb_spec (- Z.of_nat r) start_depth) as [Heq | Hne].
    + assert (r = k) by lia. subst r.
      replace (Z.of_nat (length l) <? - start_depth) with false
        by (symmetry; apply Z.ltb_ge; lia).
      repeat f_equal. lia.
    + destruct (Nat.eqb_spec (length l - r) 0) as [Hz | Hnz'].
      * replace (Z.of_nat (length l) <? - start_depth) with true
          by (symmetry; apply Z.ltb_lt; lia).
        reflexivity.
      * assert (1 <= q)%nat by (destruct q; lia).
        replace (Z.of_nat (length l) <? - start_depth) with false
          by (symmetry; apply Z.ltb_ge; nia).
        destruct (drop (length l - r - k) l) as [| g rest] eqn:Hdrop.
        { apply (f_equal length) in Hdrop. rewrite length_drop in Hdrop.
          cbn [length] in Hdrop. nia. }
        rewrite <- Hdrop.
        rewrite advance_drop by (rewrite length_drop; nia).
        rewrite drop_drop. repeat f_equal. nia.
Qed.

(** [get_stack_trace] always ends.  With [n] frames on the stack it reports
    [JVMTI_ERROR_ILLEGAL_ARGUMENT], writing nothing, when [start_depth > 0]
    and [start_depth >= n] or when [start_depth < 0] and [-start_depth > n].
    Otherwise it writes at most [max_count] frames in order, youngest first,
    starting [start_depth] frames from the top for [start_depth >= 0] and
    with [-start_depth] frames remaining for [start_depth < 0], and stores
    their number in [*count_ptr]. *)
Theorem get_stack_trace_spec (jvf : list JvmtiEnvBase.javaVFrame)
    (start_depth max_count : Z) :
  JvmtiStack.get_stack_trace jvf start_depth max_count
  = Some (if ((0 <? start_depth) && (Z.of_nat (length jvf) <=? start_depth))
             || ((start_depth <? 0) && (Z.of_nat (length jvf) <? - start_depth))
          then (Jvmti.JVMTI_ERROR_ILLEGAL_ARGUMENT, None, [])
          else
            let start := Z.to_nat (if 0 <=? start_depth then start_depth
                                   else Z.of_nat (length jvf) + start_depth) in
            let frames := JvmtiStack.frame_info
                            <$> take (Z.to_nat max_count) (drop start jvf) in
            (Jvmti.JVMTI_ERROR_NONE, Some (Z.of_nat (length frames)), frames)).
Proof.
  unfold JvmtiStack.get_stack_trace.
  destruct (Z.eqb_spec start_depth 0) as [-> | Hnz]; cbn [negb].
  - cbn [Z.ltb Z.compare andb orb Z.leb Z.to_nat]. rewrite drop_0.
    rewrite fill_frame_buffer_take, Z.sub_0_r. reflexivity.
  - rewrite start_frame_spec by exact Hnz.
    destruct (_ || _); [reflexivity |].
    rewrite fill_frame_buffer_take, Z.sub_0_r. reflexivity.
Qed.

Lemma java_sender_loop_head (jvf : list JvmtiEnvBase.javaVFrame) (depth : Z) :
  0 <= depth ->
  head (JvmtiEnvBase.java_sender_loop jvf 0 depth) = jvf !! Z.to_nat depth.
Proof.
  intros Hd. rewrite java_sender_loop_nth by lia. rewrite Z.sub_0_r.
  rewrite head_lookup, lookup_drop. f_equal. lia.
Qed.

Lemma get_frame_location_head (v : JvmtiEnvBase.vthread) (depth : Z) :
  JvmtiEnvBase.get_frame_location v depth
  = match head (JvmtiEnvBase.java_sender_loop (JvmtiEnvBase.get_vthread_jvf v) 0 depth) with
    | None => (JvmtiEnvBase.JVMTI_ERROR_NO_MORE_FRAMES, None)
    | Some jvf => (JvmtiEnvBase.JVMTI_ERROR_NONE, Some (JvmtiStack.frame_info jvf))
    end.
Proof.
  unfold JvmtiEnvBase.get_frame_location.
  now destruct (JvmtiEnvBase.java_sender_loop _ 0 depth).
Qed.

(** [GetFrameCount], [GetFrameLocation] and [GetStackTrace] agree on a
    virtual thread: at a depth below the frame count [get_frame_location]
    finds a frame and [get_stack_trace] started at that depth with room for
    one frame writes the same method and location; at a depth from the frame
    count on the former reports [JVMTI_ERROR_NO_MORE_FRAMES] and, for a
    positive depth, the latter [JVMTI_ERROR_ILLEGAL_ARGUMENT]. *)
Theorem frame_location_agrees_with_stack_trace (v : JvmtiEnvBase.vthread) (depth : Z) :
  0 <= depth ->
  Z.of_nat (length (JvmtiEnvBase.get_vthread_jvf v)) < 2 ^ 31 ->
  if depth <? JvmtiStack.get_frame_count_vthread v then
    exists x,
      JvmtiEnvBase.get_frame_location v depth = (JvmtiEnvBase.JVMTI_ERROR_NONE, Some x) /\
      JvmtiStack.get_stack_trace (JvmtiEnvBase.get_vthread_jvf v) depth 1
      = Some (Jvmti.JVMTI_ERROR_NONE, Some 1, [x])
  else
    JvmtiEnvBase.get_frame_location v depth
    = (JvmtiEnvBase.JVMTI_ERROR_NO_MORE_FRAMES, None) /\
    (if 0 <? depth
     then JvmtiStack.get_stack_trace (JvmtiEnvBase.get_vthread_jvf v) depth 1
          = Some (Jvmti.JVMTI_ERROR_ILLEGAL_ARGUMENT, None, [])
     else JvmtiStack.get_stack_trace (JvmtiEnvBase.get_vthread_jvf v) depth 1
          = Some (Jvmti.JVMTI_ERROR_NONE, Some 0, [])).
Proof.
  intros Hd Hlen. unfold JvmtiStack.get_frame_count_vthread.
  rewrite get_frame_count_length by exact Hlen.
  set (jvf := JvmtiEnvBase.get_vthread_jvf v) in *.
  rewrite get_frame_location_head, java_sender_loop_head by lia. fold jvf.
  rewrite get_stack_trace_spec.
  replace (depth <? 0) with false by (symmetry; apply Z.ltb_ge; lia).
  replace (0 <=? depth) with true by (symmetry; apply Z.leb_le; lia).
  cbn [andb]. rewrite orb_false_r.
  destruct (Z.ltb_spec depth (Z.of_nat (length jvf))) as [Hin | Hout].
  - destruct (lookup_lt_is_Some_2 jvf (Z.to_nat depth) ltac:(lia)) as [f Hf].
    exists (JvmtiStack.frame_info f). rewrite Hf. split; [reflexivity |].
    replace (Z.of_nat (length jvf) <=? depth) with false
      by (symmetry; apply Z.leb_gt; lia).
    rewrite andb_false_r. cbv zeta.
    rewrite (drop_S jvf f (Z.to_nat depth)) by exact Hf.
    reflexivity.
  - rewrite (lookup_ge_None_2 jvf (Z.to_nat depth)) by lia.
    split; [reflexivity |].
    replace (Z.of_nat (length jvf) <=? depth) with true
      by (symmetry; apply Z.leb_le; lia).
    rewrite andb_true_r.
    destruct (Z.ltb_spec 0 depth) as [Hpos | Hzero]; [reflexivity |].
    assert (depth = 0) by lia. subst depth.
    assert (jvf = []) as -> by (destruct jvf; [reflexivity | cbn in Hout; lia]).
    reflexivity.
Qed.

(** Every entry of a stack trace taken from the top is what
    [get_frame_location] reports at the entry's index. *)
Theorem stack_trace_entries_are_frame_locations (v : JvmtiEnvBase.vthread)
    (max_count : Z) (d : nat) (x : Z * Z)
    (count : option Z) (buffer : list (Z * Z)) :
  JvmtiStack.get_stack_trace (JvmtiEnvBase.get_vthread_jvf v) 0 max_count
    = Some (Jvmti.JVMTI_ERROR_NONE, count, buffer) ->
  buffer !! d = Some x ->
  JvmtiEnvBase.get_frame_location v (Z.of_nat d) = (JvmtiEnvBase.JVMTI_ERROR_NONE, Some x).
Proof.
  rewrite get_stack_trace_spec. cbn [Z.ltb Z.compare andb orb Z.leb Z.to_nat].
  rewrite drop_0. intros [= <- <-] Hx.
  rewrite list_lookup_fmap in Hx.
  destruct (take (Z.to_nat max_count) (JvmtiEnvBase.get_vthread_jvf v) !! d)
    as [f |] eqn:Hf; [| discriminate].
  cbn in Hx. injection Hx as <-.
  apply lookup_take_Some in Hf as [Hf _].
  rewrite get_frame_location_head, java_sender_loop_head by lia.
  now rewrite Nat2Z.id, Hf.
Qed.

Lemma java_sender_loop_suffix (jvf : list JvmtiEnvBase.javaVFrame) (depth : Z)
    (f : JvmtiEnvBase.javaVFrame) :
  f ∈ JvmtiEnvBase.java_sender_loop jvf 0 depth -> f ∈ jvf.
Proof.
  destruct (Z.le_gt_cases 0 depth) as [Hd | Hd].
  - rewrite java_sender_loop_nth by lia. intros Hin.
    rewrite <- (take_drop (Z.to_nat (depth - 0)) jvf). apply elem_of_app. now right.
  - destruct jvf as [| g sender]; cbn; [easy |].
    replace (0 <? depth) with false by (symmetry; apply Z.ltb_ge; lia). easy.
Qed.

(** The overload of [get_frame_location] for a [JavaThread] with a last Java
    frame reports, at every depth, what the overload for a virtual thread
    reports for a thread mounted on the same frames, in a product and in a
    debug build alike, as long as the frames are java frames. *)
Theorem get_frame_location_overloads_agree
    (can_support_virtual_threads PRODUCT : bool)
    (is_java_frame : JvmtiEnvBase.javaVFrame -> bool)
    (jt : JvmtiStack.JavaThread) (depth : Z) :
  JvmtiStack.has_last_Java_frame jt = true ->
  Forall (fun f => is_java_frame f = true)
         (JvmtiStack.get_last_java_vframe can_support_virtual_threads jt) ->
  JvmtiStack.get_frame_location can_support_virtual_threads PRODUCT is_java_frame jt depth
  = Some (match JvmtiEnvBase.get_frame_location
                  (JvmtiEnvBase.mk_vthread true true
                     (JvmtiStack.get_last_java_vframe can_support_virtual_threads jt) [])
                  depth with
          | (JvmtiEnvBase.JVMTI_ERROR_NONE, r) => (Jvmti.JVMTI_ERROR_NONE, r)
          | (JvmtiEnvBase.JVMTI_ERROR_NO_MORE_FRAMES, r) =>
              (Jvmti.JVMTI_ERROR_NO_MORE_FRAMES, r)
          end).
Proof.
  intros Hlast Hjava.
  unfold JvmtiStack.get_frame_location, JvmtiStack.vframeFor,
         JvmtiEnvBase.get_frame_location, JvmtiEnvBase.get_vthread_jvf.
  rewrite Hlast. cbn [negb JvmtiEnvBase.is_mounted JvmtiEnvBase.has_last_Java_frame
                      JvmtiEnvBase.carrier_vframes].
  destruct (JvmtiEnvBase.java_sender_loop _ 0 depth) as [| vf rest] eqn:Hloop;
    [reflexivity |].
  assert (Hvf : is_java_frame vf = true).
  { rewrite Forall_forall in Hjava. apply Hjava.
    apply (java_sender_loop_suffix _ depth). rewrite Hloop. apply elem_of_cons. now left. }
  rewrite Hvf. cbn [negb andb]. rewrite andb_false_r. reflexivity.
Qed.

(** A thread without a last Java frame is reported as an empty stack: the
    frame count is [0], no depth has a frame, and a stack trace is empty, with
    [JVMTI_ERROR_ILLEGAL_ARGUMENT] exactly for a non-zero [start_depth], the
    error code [get_stack_trace] gives for an empty stack. *)
Theorem no_last_Java_frame_is_empty_stack
    (can_support_virtual_threads PRODUCT : bool)
    (is_java_frame : JvmtiEnvBase.javaVFrame -> bool)
    (jt : JvmtiStack.JavaThread) (depth start_depth max_count : Z) :
  JvmtiStack.has_last_Java_frame jt = false ->
  JvmtiStack.get_frame_count_thread can_support_virtual_threads jt = 0 /\
  JvmtiStack.get_frame_location can_support_virtual_threads PRODUCT is_java_frame jt depth
    = Some (Jvmti.JVMTI_ERROR_NO_MORE_FRAMES, None) /\
  JvmtiStack.get_stack_trace_thread can_support_virtual_threads jt start_depth max_count
    = Some (if start_depth =? 0 then (Jvmti.JVMTI_ERROR_NONE, Some 0, [])
            else (Jvmti.JVMTI_ERROR_ILLEGAL_ARGUMENT, Some 0, [])) /\
  (fun r : JvmtiStack.stack_trace_result => r.1.1)
    <$> JvmtiStack.get_stack_trace_thread can_support_virtual_threads jt
          start_depth max_count
  = (fun r : JvmtiStack.stack_trace_result => r.1.1)
    <$> JvmtiStack.get_stack_trace [] start_depth max_count.
Proof.
  intros Hlast.
  unfold JvmtiStack.get_frame_count_thread, JvmtiStack.get_frame_location,
         JvmtiStack.vframeFor, JvmtiStack.get_stack_trace_thread.
  rewrite Hlast. cbn [negb]. repeat split.
  - now destruct (start_depth =? 0).
  - rewrite get_stack_trace_spec. cbn [length Z.of_nat].
    destruct start_depth as [| p | p]; reflexivity.
Qed.

(** ** Environments: the class-file-load hook *)

(** Enabling the class-file-load hook is recorded once.  After
    [record_class_file_load_hook_enabled] the hook counts as enabled; the
    first call makes the environment retransformable exactly when it has the
    capability [can_retransform_classes], and prohibits that capability
    otherwise; a later call changes nothing, whatever the capability has
    become in between. *)
Theorem class_file_load_hook_recorded_once
    (no_threads no_threads' later_capability : bool) (e : JvmtiEnvironment.t) :
  let e' := JvmtiEnvironment.record_class_file_load_hook_enabled no_threads e in
  let e'' := JvmtiEnvironment.record_class_file_load_hook_enabled no_threads'
               (JvmtiEnvironment.set_can_retransform_classes e' later_capability) in
  JvmtiEnvironment._class_file_load_hook_ever_enabled e' = true /\
  JvmtiEnvironment.record_class_file_load_hook_enabled no_threads' e' = e' /\
  e'' = JvmtiEnvironment.set_can_retransform_classes e' later_capability /\
  JvmtiEnvironment._is_retransformable e'' = JvmtiEnvironment._is_retransformable e' /\
  (if JvmtiEnvironment._class_file_load_hook_ever_enabled e then e' = e
   else
     JvmtiEnvironment._is_retransformable e' = JvmtiEnvironment.can_retransform_classes e /\
     JvmtiEnvironment.prohibited_can_retransform_classes e'
       = negb (JvmtiEnvironment.can_retransform_classes e)
         || JvmtiEnvironment.prohibited_can_retransform_classes e).
Proof.
  destruct e as [magic next tag count prefixes array ever retr can prohibited].
  destruct ever, can, no_threads, no_threads', later_capability, prohibited;
    cbn; repeat split.
Qed.

(** ** Environments: native method prefixes *)

Lemma copy_prefixes_result (n : nat) :
  forall (i : nat) (prefixes strdup_result : nat -> Z)
         (strings : gmap Z string) (new_prefixes : list Z),
  match JvmtiEnvironment.copy_prefixes n i prefixes strdup_result strings new_prefixes with
  | None => True
  | Some (inl (err, _, frees)) =>
      (err = Jvmti.JVMTI_ERROR_NULL_POINTER \/ err = Jvmti.JVMTI_ERROR_OUT_OF_MEMORY) /\
      (forall p, p ∈ frees -> p ∈ new_prefixes \/ exists j, p = strdup_result j)
  | Some (inr (_, array)) =>
      array = new_prefixes ++ (strdup_result <$> seq i n)
  end.
Proof.
  induction n as [| n IH]; intros i prefixes strdup_result strings new_prefixes;
    cbn [JvmtiEnvironment.copy_prefixes].
  - cbn. now rewrite app_nil_r.
  - destruct (prefixes i =? nullptr).
    { split; [now left |]. intros p Hp. left. apply elem_of_take in Hp as (k & Hk & _).
      eapply list_elem_of_lookup_2; exact Hk. }
    destruct (strings !! prefixes i) as [content |]; [| exact I].
    destruct (strdup_result i =? nullptr).
    { split; [now right |]. intros p Hp. left. apply elem_of_take in Hp as (k & Hk & _).
      eapply list_elem_of_lookup_2; exact Hk. }
    specialize (IH (S i) prefixes strdup_result
                  (<[strdup_result i := content]> strings)
                  (new_prefixes ++ [strdup_result i])).
    destruct (JvmtiEnvironment.copy_prefixes n (S i) prefixes strdup_result _ _)
      as [[[[err s1] frees] | [s1 array]] |]; [| | exact I].
    + destruct IH as [Herr Hfrees]. split; [exact Herr |].
      intros p Hp. destruct (Hfrees p Hp) as [Hin | Hdup]; [| now right].
      apply elem_of_app in Hin as [Hin | Hin]; [now left |].
      apply list_elem_of_singleton in Hin. right. now exists i.
    + rewrite IH. cbn [seq fmap list_fmap]. now rewrite <- app_assoc.
Qed.

(** A failed [set_native_method_prefixes] leaves the environment as it was
    and frees only blocks that the call allocated itself; a successful one
    installs [prefix_count] prefixes, or none when [prefix_count] is [0] or
    the environment is no longer valid, and the installed array has one
    element per prefix. *)
Theorem set_native_method_prefixes_failure_atomic `{JvmtiEnvironment.Magic}
    (e : JvmtiEnvironment.t) (strings : gmap Z string)
    (prefix_count : Z) (prefixes : nat -> Z)
    (malloc_result : Z) (strdup_result : nat -> Z)
    (out : JvmtiEnvironment.prefixes_outcome) :
  JvmtiEnvironment.set_native_method_prefixes e strings prefix_count prefixes
    malloc_result strdup_result = Some out ->
  match JvmtiEnvironment.error out with
  | Jvmti.JVMTI_ERROR_NONE =>
      JvmtiEnvironment.environment out
      = (if (prefix_count =? 0) || negb (JvmtiEnvironment.is_valid e)
         then JvmtiEnvironment.install_prefixes e 0 nullptr []
         else JvmtiEnvironment.install_prefixes e prefix_count malloc_result
                (strdup_result <$> seq 0 (Z.to_nat prefix_count))) /\
      JvmtiEnvironment.freed out
      = (if negb (JvmtiEnvironment._native_method_prefix_count e =? 0)
         then take (Z.to_nat (JvmtiEnvironment._native_method_prefix_count e))
                   (JvmtiEnvironment.native_method_prefix_array e)
              ++ [JvmtiEnvironment._native_method_prefixes e]
         else [])
  | _ =>
      JvmtiEnvironment.environment out = e /\
      (forall p, p ∈ JvmtiEnvironment.freed out ->
                 p = malloc_result \/ exists j, p = strdup_result j)
  end.
Proof.
  unfold JvmtiEnvironment.set_native_method_prefixes.
  destruct ((prefix_count =? 0) || negb (JvmtiEnvironment.is_valid e)).
  { intros [= <-].
    destruct (negb (JvmtiEnvironment._native_method_prefix_count e =? 0)); now cbn. }
  destruct (malloc_result =? nullptr).
  { intros [= <-]. cbn. split; [reflexivity |]. intros p Hp. inversion Hp. }
  pose proof (copy_prefixes_result (Z.to_nat prefix_count) 0 prefixes strdup_result
                strings []) as Hloop.
  destruct (JvmtiEnvironment.copy_prefixes _ 0 prefixes strdup_result strings [])
    as [[[[err s1] frees] | [s1 array]] |]; [| | discriminate].
  - destruct Hloop as [Herr Hfrees]. intros [= <-]. cbn.
    assert (Hfreed : forall p, p ∈ frees ++ [malloc_result] ->
                               p = malloc_result \/ exists j, p = strdup_result j).
    { intros p Hp. apply elem_of_app in Hp as [Hp | Hp].
      - destruct (Hfrees p Hp) as [Hnil | Hdup]; [inversion Hnil | now right].
      - apply list_elem_of_singleton in Hp. now left. }
    destruct Herr as [-> | ->]; now split.
  - cbn in Hloop. subst array. intros [= <-].
    destruct (negb (JvmtiEnvironment._native_method_prefix_count e =? 0)); now cbn.
Qed.

Lemma lookup_free_all (ps : list Z) (strings : gmap Z string) (p : Z) :
  p ∉ ps -> JvmtiEnvironment.free_all ps strings !! p = strings !! p.
Proof.
  induction ps as [| q ps IH]; intros Hp; [reflexivity |].
  apply not_elem_of_cons in Hp as [Hq Hps]. cbn.
  rewrite lookup_delete_ne by congruence. now apply IH.
Qed.

Lemma take_pred_fmap_seq (f : nat -> Z) (n : nat) :
  take (n - 1) (f <$> seq 0 n) = f <$> seq 0 (n - 1).
Proof.
  rewrite <- fmap_take. f_equal.
  destruct n as [| n]; [reflexivity |].
  replace (S n - 1)%nat with n by lia.
  rewrite seq_S, take_app_length'; [reflexivity | now rewrite length_seq].
Qed.

Lemma copy_prefixes_first_failure (prefixes strdup_result : nat -> Z) (f : nat) :
  (prefixes f = nullptr \/ strdup_result f = nullptr) ->
  forall (n i : nat) (strings : gmap Z string) (new_prefixes : list Z),
  (i <= f < i + n)%nat ->
  (forall j, (i <= j < f)%nat -> prefixes j <> nullptr /\ strdup_result j <> nullptr) ->
  (forall j, (i <= j <= f)%nat -> prefixes j <> nullptr -> is_Some (strings !! prefixes j)) ->
  exists s1,
    JvmtiEnvironment.copy_prefixes n i prefixes strdup_result strings new_prefixes
    = Some (inl (if prefixes f =? nullptr then Jvmti.JVMTI_ERROR_NULL_POINTER
                 else Jvmti.JVMTI_ERROR_OUT_OF_MEMORY,
                 JvmtiEnvironment.free_all
                   (take (f - 1) (new_prefixes ++ (strdup_result <$> seq i (f - i)))) s1,
                 take (f - 1) (new_prefixes ++ (strdup_result <$> seq i (f - i))))) /\
    (forall p, is_Some (strings !! p) -> is_Some (s1 !! p)) /\
    (forall j, (i <= j < f)%nat -> is_Some (s1 !! strdup_result j)).
Proof.
  intros Hfail n. induction n as [| n IH]; intros i strings new_prefixes Hrange Hgood Hstr;
    [lia |].
  cbn [JvmtiEnvironment.copy_prefixes].
  destruct (decide (i = f)) as [-> | Hne].
  - replace (f - f)%nat with 0%nat by lia. cbn [seq fmap list_fmap]. rewrite app_nil_r.
    exists strings. destruct (Z.eqb_spec (prefixes f) nullptr) as [Hp | Hp].
    + split; [reflexivity |]. split; [auto | intros j Hj; lia].
    + destruct (Hstr f ltac:(lia) Hp) as [content ->].
      destruct Hfail as [Hf | Hf]; [contradiction |].
      rewrite Hf, Z.eqb_refl. split; [reflexivity |]. split; [auto | intros j Hj; lia].
  - destruct (Hgood i ltac:(lia)) as [Hp Hd].
    destruct (Z.eqb_spec (prefixes i) nullptr) as [| _]; [contradiction |].
    destruct (Hstr i ltac:(lia) Hp) as [content Hcontent]. rewrite Hcontent.
    destruct (Z.eqb_spec (strdup_result i) nullptr) as [| _]; [contradiction |].
    destruct (IH (S i) (<[strdup_result i := content]> strings)
                (new_prefixes ++ [strdup_result i])) as (s1 & Hrun & Hmono & Hdups).
    + lia.
    + intros j Hj. apply Hgood. lia.
    + intros j Hj Hpj. destruct (Hstr j ltac:(lia) Hpj) as [c Hc].
      destruct (decide (strdup_result i = prefixes j)) as [Heq | Hneq].
      * rewrite <- Heq, lookup_insert_eq. eauto.
      * rewrite lookup_insert_ne by exact Hneq. eauto.
    + exists s1.
      replace (f - i)%nat with (S (f - S i)) by lia.
      cbn [seq fmap list_fmap].
      replace (new_prefixes ++ strdup_result i :: (strdup_result <$> seq (S i) (f - S i)))
        with ((new_prefixes ++ [strdup_result i]) ++ (strdup_result <$> seq (S i) (f - S i)))
        by now rewrite <- app_assoc.
      split; [exact Hrun |]. split.
      * intros p [c Hc]. apply Hmono.
        destruct (decide (strdup_result i = p)) as [Heq | Hneq].
        -- rewrite <- Heq, lookup_insert_eq. eauto.
        -- rewrite lookup_insert_ne by exact Hneq. eauto.
      * intros j Hj. destruct (decide (j = i)) as [-> | Hji].
        -- apply Hmono. rewrite lookup_insert_eq. eauto.
        -- apply Hdups. lia.
Qed.

(** When the first prefix that is [NULL], or whose copy fails, has index
    [f], [set_native_method_prefixes] returns the error with the environment
    unchanged, and frees the new array and the copies [0 .. f-2]: the copy
    made last, of prefix [f-1], is not freed and stays allocated. *)
Theorem set_native_method_prefixes_first_failure `{JvmtiEnvironment.Magic}
    (e : JvmtiEnvironment.t) (strings : gmap Z string)
    (prefix_count : Z) (prefixes : nat -> Z)
    (malloc_result : Z) (strdup_result : nat -> Z) (f : nat) :
  JvmtiEnvironment.is_valid e = true ->
  malloc_result <> nullptr ->
  (f < Z.to_nat prefix_count)%nat ->
  (forall j, (j < f)%nat -> prefixes j <> nullptr /\ strdup_result j <> nullptr) ->
  (forall j, (j <= f)%nat -> prefixes j <> nullptr -> is_Some (strings !! prefixes j)) ->
  prefixes f = nullptr \/ strdup_result f = nullptr ->
  NoDup (malloc_result :: (strdup_result <$> seq 0 f)) ->
  exists out,
    JvmtiEnvironment.set_native_method_prefixes e strings prefix_count prefixes
      malloc_result strdup_result = Some out /\
    JvmtiEnvironment.error out
    = (if prefixes f =? nullptr then Jvmti.JVMTI_ERROR_NULL_POINTER
       else Jvmti.JVMTI_ERROR_OUT_OF_MEMORY) /\
    JvmtiEnvironment.environment out = e /\
    JvmtiEnvironment.freed out = (strdup_result <$> seq 0 (f - 1)) ++ [malloc_result] /\
    ((0 < f)%nat ->
     (strdup_result (f - 1)%nat ∉ JvmtiEnvironment.freed out) /\
     is_Some (JvmtiEnvironment.strings_after out !! strdup_result (f - 1)%nat)).
Proof.
  intros Hvalid Hmalloc Hf Hgood Hstr Hfail Hnodup.
  unfold JvmtiEnvironment.set_native_method_prefixes.
  rewrite Hvalid.
  destruct (Z.eqb_spec prefix_count 0) as [-> | _]; [cbn in Hf; lia |].
  cbn [negb orb].
  destruct (Z.eqb_spec malloc_result nullptr) as [| _]; [contradiction |].
  destruct (copy_prefixes_first_failure prefixes strdup_result f Hfail
              (Z.to_nat prefix_count) 0 strings [])
    as (s1 & Hrun & Hmono & Hdups).
  { lia. } { intros j Hj. apply Hgood. lia. } { intros j Hj. apply Hstr. lia. }
  rewrite Hrun. clear Hrun.
  replace (f - 0)%nat with f by lia. cbn [app].
  rewrite take_pred_fmap_seq.
  eexists. split; [reflexivity |]. cbn.
  split; [reflexivity |]. split; [reflexivity |]. split; [reflexivity |].
  intros Hpos.
  apply NoDup_cons in Hnodup as [Hm Hnd].
  assert (Hlast : strdup_result (f - 1)%nat ∉ (strdup_result <$> seq 0 (f - 1))).
  { replace f with (S (f - 1)) in Hnd by lia.
    rewrite seq_S, fmap_app in Hnd. cbn in Hnd.
    apply NoDup_app in Hnd as (_ & Hdisj & _).
    intros Hin. apply (Hdisj _ Hin). now left. }
  assert (Hneq : strdup_result (f - 1)%nat <> malloc_result).
  { intros Heq. apply Hm. rewrite <- Heq.
    apply list_elem_of_fmap_2, elem_of_seq. lia. }
  split.
  - intros Hin. apply elem_of_app in Hin as [Hin | Hin]; [now apply Hlast |].
    apply list_elem_of_singleton in Hin. contradiction.
  - rewrite lookup_delete_ne by congruence.
    rewrite lookup_free_all by exact Hlast.
    apply Hdups. lia.
Qed.

Lemma copy_prefixes_success (prefixes strdup_result : nat -> Z) (n : nat) :
  forall (i : nat) (strings : gmap Z string) (new_prefixes : list Z),
  (forall j, (i <= j < i + n)%nat ->
             prefixes j <> nullptr /\ strdup_result j <> nullptr /\
             is_Some (strings !! prefixes j)) ->
  NoDup (strdup_result <$> seq i n) ->
  (forall j k, (i <= j < i + n)%nat -> (i <= k < i + n)%nat ->
               strdup_result j <> prefixes k) ->
  exists s1,
    JvmtiEnvironment.copy_prefixes n i prefixes strdup_result strings new_prefixes
    = Some (inr (s1, new_prefixes ++ (strdup_result <$> seq i n))) /\
    (forall j, (i <= j < i + n)%nat -> s1 !! strdup_result j = strings !! prefixes j) /\
    (forall p, p ∉ (strdup_result <$> seq i n) -> s1 !! p = strings !! p).
Proof.
  induction n as [| n IH]; intros i strings new_prefixes Hgood Hnodup Hfresh;
    cbn [JvmtiEnvironment.copy_prefixes].
  - exists strings. cbn. rewrite app_nil_r. split; [reflexivity |].
    split; [intros j Hj; lia | reflexivity].
  - destruct (Hgood i ltac:(lia)) as (Hp & Hd & [content Hcontent]).
    destruct (Z.eqb_spec (prefixes i) nullptr) as [| _]; [contradiction |].
    rewrite Hcontent.
    destruct (Z.eqb_spec (strdup_result i) nullptr) as [| _]; [contradiction |].
    cbn [seq fmap list_fmap] in Hnodup. apply NoDup_cons in Hnodup as [Hi Hnd].
    destruct (IH (S i) (<[strdup_result i := content]> strings)
                (new_prefixes ++ [strdup_result i])) as (s1 & Hrun & Hcopies & Hframe).
    + intros j Hj. destruct (Hgood j ltac:(lia)) as (Hpj & Hdj & Hsj).
      split; [exact Hpj |]. split; [exact Hdj |].
      rewrite lookup_insert_ne; [exact Hsj |]. apply Hfresh; lia.
    + exact Hnd.
    + intros j k Hj Hk. apply Hfresh; lia.
    + exists s1. cbn [seq fmap list_fmap].
      replace (new_prefixes ++ strdup_result i :: (strdup_result <$> seq (S i) n))
        with ((new_prefixes ++ [strdup_result i]) ++ (strdup_result <$> seq (S i) n))
        by now rewrite <- app_assoc.
      split; [exact Hrun |]. split.
      * intros j Hj. destruct (decide (j = i)) as [-> | Hji].
        -- rewrite Hframe by exact Hi. now rewrite lookup_insert_eq.
        -- rewrite Hcopies by lia. apply lookup_insert_ne. apply Hfresh; lia.
      * intros p Hp'. apply not_elem_of_cons in Hp' as [Hpi Hprest].
        rewrite Hframe by exact Hprest. apply lookup_insert_ne. congruence.
Qed.

Lemma set_native_method_prefixes_success_spec `{JvmtiEnvironment.Magic}
    (e : JvmtiEnvironment.t) (strings : gmap Z string)
    (prefix_count : Z) (prefixes : nat -> Z)
    (malloc_result : Z) (strdup_result : nat -> Z) :
  let n := Z.to_nat prefix_count in
  let old :=
    if negb (JvmtiEnvironment._native_method_prefix_count e =? 0)
    then take (Z.to_nat (JvmtiEnvironment._native_method_prefix_count e))
              (JvmtiEnvironment.native_method_prefix_array e)
         ++ [JvmtiEnvironment._native_method_prefixes e]
    else [] in
  JvmtiEnvironment.is_valid e = true ->
  0 < prefix_count ->
  malloc_result <> nullptr ->
  (forall j, (j < n)%nat ->
             prefixes j <> nullptr /\ strdup_result j <> nullptr /\
             is_Some (strings !! prefixes j)) ->
  NoDup (strdup_result <$> seq 0 n) ->
  (forall j k, (j < n)%nat -> (k < n)%nat -> strdup_result j <> prefixes k) ->
  (forall j, (j < n)%nat -> strdup_result j ∉ old) ->
  exists out,
    JvmtiEnvironment.set_native_method_prefixes e strings prefix_count prefixes
      malloc_result strdup_result = Some out /\
    JvmtiEnvironment.error out = Jvmti.JVMTI_ERROR_NONE /\
    JvmtiEnvironment.environment out
    = JvmtiEnvironment.install_prefixes e prefix_count malloc_result
        (strdup_result <$> seq 0 n) /\
    JvmtiEnvironment.freed out = old /\
    (forall j, (j < n)%nat ->
               JvmtiEnvironment.strings_after out !! strdup_result j
               = strings !! prefixes j) /\
    (forall p, p ∉ (strdup_result <$> seq 0 n) -> p ∉ old ->
               JvmtiEnvironment.strings_after out !! p = strings !! p).
Proof.
  intros n old Hvalid Hcount Hmalloc Hgood Hnodup Hfresh Hold.
  unfold JvmtiEnvironment.set_native_method_prefixes.
  rewrite Hvalid.
  destruct (Z.eqb_spec prefix_count 0) as [| _]; [lia |].
  cbn [negb orb].
  destruct (Z.eqb_spec malloc_result nullptr) as [| _]; [contradiction |].
  destruct (copy_prefixes_success prefixes strdup_result n 0 strings [])
    as (s1 & Hrun & Hcopies & Hframe).
  { intros j Hj. apply Hgood. lia. } { exact Hnodup. }
  { intros j k Hj Hk. apply Hfresh; lia. }
  fold n. rewrite Hrun. cbn [app].
  subst old.
  destruct (negb (JvmtiEnvironment._native_method_prefix_count e =? 0)).
  - eexists. split; [reflexivity |]. cbn.
    split; [reflexivity |]. split; [reflexivity |]. split; [reflexivity |]. split.
    + intros j Hj. rewrite lookup_free_all by (apply Hold; exact Hj).
      apply Hcopies. lia.
    + intros p Hp Hpold. rewrite lookup_free_all by exact Hpold. now apply Hframe.
  - eexists. split; [reflexivity |]. cbn.
    split; [reflexivity |]. split; [reflexivity |]. split; [reflexivity |]. split.
    + intros j Hj. apply Hcopies. lia.
    + intros p Hp _. now apply Hframe.
Qed.

(** With every prefix a string and every allocation successful and fresh,
    [set_native_method_prefixes] installs the copies in the order of the
    prefixes, each copy holding the content of its prefix, and frees the old
    prefixes and the old array, in this order, and nothing else. *)
Theorem set_native_method_prefixes_success `{JvmtiEnvironment.Magic}
    (e : JvmtiEnvironment.t) (strings : gmap Z string)
    (prefix_count : Z) (prefixes : nat -> Z)
    (malloc_result : Z) (strdup_result : nat -> Z) :
  let n := Z.to_nat prefix_count in
  let old :=
    if negb (JvmtiEnvironment._native_method_prefix_count e =? 0)
    then take (Z.to_nat (JvmtiEnvironment._native_method_prefix_count e))
              (JvmtiEnvironment.native_method_prefix_array e)
         ++ [JvmtiEnvironment._native_method_prefixes e]
    else [] in
  JvmtiEnvironment.is_valid e = true ->
  0 < prefix_count ->
  malloc_result <> nullptr ->
  (forall j, (j < n)%nat ->
             prefixes j <> nullptr /\ strdup_result j <> nullptr /\
             is_Some (strings !! prefixes j)) ->
  NoDup (strdup_result <$> seq 0 n) ->
  (forall j k, (j < n)%nat -> (k < n)%nat -> strdup_result j <> prefixes k) ->
  (forall j, (j < n)%nat -> strdup_result j ∉ old) ->
  exists out,
    JvmtiEnvironment.set_native_method_prefixes e strings prefix_count prefixes
      malloc_result strdup_result = Some out /\
    JvmtiEnvironment.error out = Jvmti.JVMTI_ERROR_NONE /\
    JvmtiEnvironment.environment out
    = JvmtiEnvironment.install_prefixes e prefix_count malloc_result
        (strdup_result <$> seq 0 n) /\
    JvmtiEnvironment.freed out = old /\
    (forall j, (j < n)%nat ->
               JvmtiEnvironment.strings_after out !! strdup_result j
               = strings !! prefixes j).
Proof.
  intros n old Hvalid Hcount Hmalloc Hgood Hnodup Hfresh Hold.
  destruct (set_native_method_prefixes_success_spec e strings prefix_count prefixes
              malloc_result strdup_result Hvalid Hcount Hmalloc Hgood Hnodup Hfresh Hold)
    as (out & Hrun & Herror & Henv & Hfreed & Hcopies & _).
  exists out. auto.
Qed.

(** ** Environments: the list of environments *)

Lemma env_list_functional (h : gmap Z JvmtiEnvironment.t) (p : Z) (l1 l2 : list Z) :
  JvmtiEnvironment.env_list h p l1 -> JvmtiEnvironment.env_list h p l2 -> l1 = l2.
Proof.
  intros H1. revert l2. induction H1 as [| p e l Hp He Hl IH]; intros l2 H2.
  - inversion H2; subst; [reflexivity | congruence].
  - inversion H2 as [| p' e' l' Hp' He' Hl']; subst; [congruence |].
    rewrite He in He'. injection He' as <-. f_equal. now apply IH.
Qed.

Lemma env_list_suffix (h : gmap Z JvmtiEnvironment.t) (p : Z) (l : list Z) :
  JvmtiEnvironment.env_list h p l ->
  forall q, q ∈ l ->
  exists l1 l2, l = l1 ++ q :: l2 /\ JvmtiEnvironment.env_list h q (q :: l2).
Proof.
  induction 1 as [| p e l Hp He Hl IH]; intros q Hq; [inversion Hq |].
  apply elem_of_cons in Hq as [-> | Hq].
  - exists [], l. split; [reflexivity |]. econstructor; eassumption.
  - destruct (IH q Hq) as (l1 & l2 & -> & Hsuffix).
    exists (p :: l1), l2. split; [reflexivity | exact Hsuffix].
Qed.

Lemma env_list_head_not_in_tail (h : gmap Z JvmtiEnvironment.t) (p : Z) (l : list Z) :
  JvmtiEnvironment.env_list h p (p :: l) -> p ∉ l.
Proof.
  intros Hlist Hin.
  inversion Hlist as [| p' e l' Hp He Hl]; subst.
  destruct (env_list_suffix _ _ _ Hl p Hin) as (l1 & l2 & Heq & Hsuffix).
  pose proof (env_list_functional _ _ _ _ Hlist Hsuffix) as Hsame.
  injection Hsame as Hsame. subst l2.
  apply (f_equal length) in Heq. rewrite length_app in Heq. cbn in Heq. lia.
Qed.

Lemma env_list_NoDup (h : gmap Z JvmtiEnvironment.t) (p : Z) (l : list Z) :
  JvmtiEnvironment.env_list h p l -> NoDup l.
Proof.
  induction 1 as [| p e l Hp He Hl IH]; [constructor |].
  apply NoDup_cons. split; [| exact IH].
  eapply env_list_head_not_in_tail. econstructor; eassumption.
Qed.

Lemma env_list_agree (h h' : gmap Z JvmtiEnvironment.t) (p : Z) (l : list Z) :
  JvmtiEnvironment.env_list h p l ->
  (forall q, q ∈ l -> h' !! q = h !! q) ->
  JvmtiEnvironment.env_list h' p l.
Proof.
  induction 1 as [| p e l Hp He Hl IH]; intros Hagree; [constructor |].
  econstructor; [exact Hp | |].
  - rewrite Hagree by now left. exact He.
  - apply IH. intros q Hq. apply Hagree. now right.
Qed.

Lemma env_list_lookup (h : gmap Z JvmtiEnvironment.t) (p : Z) (l : list Z) :
  JvmtiEnvironment.env_list h p l ->
  forall q, q ∈ l -> q <> nullptr /\ is_Some (h !! q).
Proof.
  induction 1 as [| p e l Hp He Hl IH]; intros q Hq; [inversion Hq |].
  apply elem_of_cons in Hq as [-> | Hq]; [eauto | now apply IH].
Qed.

Lemma last_cons_default (l : list Z) (a d : Z) : List.last (a :: l) d = List.last l a.
Proof.
  revert a d. induction l as [| b l IH]; intros a d; [reflexivity |].
  change (List.last (a :: b :: l) d) with (List.last (b :: l) d).
  now rewrite !IH.
Qed.

Lemma last_environment_spec (h : gmap Z JvmtiEnvironment.t) (p : Z) (l : list Z) :
  JvmtiEnvironment.env_list h p l ->
  forall (fuel : nat) (previous_env : Z),
  (length l <= fuel)%nat ->
  JvmtiEnvironment.last_environment fuel h p previous_env
  = Some (List.last l previous_env).
Proof.
  induction 1 as [| p e l Hp He Hl IH]; intros fuel previous_env Hfuel.
  - destruct fuel; reflexivity.
  - destruct fuel as [| fuel]; [cbn in Hfuel; lia |].
    cbn [JvmtiEnvironment.last_environment].
    destruct (Z.eqb_spec p nullptr) as [| _]; [contradiction |].
    rewrite He, last_cons_default. apply IH. cbn in Hfuel. lia.
Qed.

Lemma env_list_snoc (h : gmap Z JvmtiEnvironment.t) (this : Z)
    (e_this : JvmtiEnvironment.t) (p : Z) (l : list Z) :
  JvmtiEnvironment.env_list h p l ->
  this <> nullptr -> h !! this = Some e_this ->
  JvmtiEnvironment._next e_this = nullptr ->
  l <> [] -> this ∉ l ->
  forall (d : Z) (pe : JvmtiEnvironment.t),
  h !! List.last l d = Some pe ->
  JvmtiEnvironment.env_list
    (<[List.last l d := JvmtiEnvironment.set_next_environment pe this]> h)
    p (l ++ [this]).
Proof.
  intros Hlist Hthis He_this Hnext.
  induction Hlist as [| p e l Hp He Hl IH]; intros Hne Hnotin d pe Hpe; [congruence |].
  apply not_elem_of_cons in Hnotin as [Hneq Hnotin].
  rewrite last_cons_default in *.
  destruct l as [| q l].
  - cbn in *. rewrite He in Hpe. injection Hpe as <-.
    inversion Hl as [Hnull |]; subst.
    econstructor; [exact Hp | apply lookup_insert_eq |].
    cbn. econstructor; [exact Hthis | | ].
    + rewrite lookup_insert_ne by congruence. exact He_this.
    + rewrite Hnext. constructor.
  - assert (Hin : List.last (q :: l) p ∈ q :: l).
    { clear. revert q p. induction l as [| b l IH]; intros q p; [now left |].
      change (List.last (q :: b :: l) p) with (List.last (b :: l) p).
      right. rewrite last_cons_default. rewrite <- (last_cons_default l b q). apply IH. }
    assert (Hpq : p <> List.last (q :: l) p).
    { intros Heq.
      apply (env_list_head_not_in_tail h p (q :: l));
        [econstructor; eassumption | rewrite Heq at 1; exact Hin]. }
    cbn [app]. econstructor; [exact Hp | |].
    + rewrite lookup_insert_ne by congruence. exact He.
    + apply (IH ltac:(discriminate) Hnotin p pe Hpe).
Qed.

(** [initialize] adds the environment at the end of the list: with the
    environments [l] linked from the head and a new environment [this] that
    is not among them, the list becomes [l ++ [this]], the environments keep
    all their fields but [_next], and [_globally_initialized] is set. *)
Theorem initialize_appends (fuel : nat) (this : Z) (e_this : JvmtiEnvironment.t)
    (s : JvmtiEnvironment.globals) (l : list Z) :
  JvmtiEnvironment.env_list (JvmtiEnvironment.envs s)
    (JvmtiEnvironment._head_environment s) l ->
  this <> nullptr ->
  JvmtiEnvironment.envs s !! this = Some e_this ->
  JvmtiEnvironment._next e_this = nullptr ->
  this ∉ l ->
  (length l <= fuel)%nat ->
  exists s',
    JvmtiEnvironment.initialize fuel this s = Some s' /\
    JvmtiEnvironment.env_list (JvmtiEnvironment.envs s')
      (JvmtiEnvironment._head_environment s') (l ++ [this]) /\
    JvmtiEnvironment._globally_initialized s' = true /\
    JvmtiEnvironment._needs_clean_up s' = JvmtiEnvironment._needs_clean_up s /\
    (forall q e, JvmtiEnvironment.envs s !! q = Some e ->
                 exists e', JvmtiEnvironment.envs s' !! q = Some e' /\
                            e' = JvmtiEnvironment.set_next_environment e
                                   (JvmtiEnvironment._next e')).
Proof.
  intros Hlist Hthis He_this Hnext Hnotin Hfuel.
  unfold JvmtiEnvironment.initialize.
  rewrite (last_environment_spec _ _ _ Hlist fuel nullptr Hfuel).
  assert (Hinit : (if negb (JvmtiEnvironment._globally_initialized s) then true
                   else JvmtiEnvironment._globally_initialized s) = true)
    by now destruct (JvmtiEnvironment._globally_initialized s).
  assert (Heta : forall e : JvmtiEnvironment.t,
             e = JvmtiEnvironment.set_next_environment e (JvmtiEnvironment._next e))
    by now intros [].
  destruct l as [| q l].
  - inversion Hlist as [Hhead |]. cbn.
    eexists. split; [reflexivity |]. cbn. rewrite Hinit.
    split; [| split; [reflexivity | split; [reflexivity | eauto]]].
    econstructor; [exact Hthis | exact He_this |]. rewrite Hnext. constructor.
  - set (last_env := List.last (q :: l) nullptr).
    assert (Hin : last_env ∈ q :: l).
    { subst last_env. clear. revert q. generalize nullptr.
      induction l as [| b l IH]; intros d q; [now left |].
      change (List.last (q :: b :: l) d) with (List.last (b :: l) d).
      right. apply IH. }
    destruct (env_list_lookup _ _ _ Hlist _ Hin) as [Hnonnull [pe Hpe]].
    destruct (Z.eqb_spec last_env nullptr) as [| _]; [contradiction |].
    rewrite Hpe.
    eexists. split; [reflexivity |]. cbn. rewrite Hinit.
    split; [| split; [reflexivity | split; [reflexivity |]]].
    + apply (env_list_snoc _ this e_this _ _ Hlist Hthis He_this Hnext
               ltac:(discriminate) Hnotin nullptr pe Hpe).
    + intros q' e He. destruct (decide (q' = last_env)) as [-> | Hneq].
      * rewrite lookup_insert_eq. rewrite Hpe in He. injection He as <-.
        eexists. split; [reflexivity |]. now destruct pe.
      * rewrite lookup_insert_ne by exact (not_eq_sym Hneq). eauto.
Qed.

Lemma set_next_environment_eta (e : JvmtiEnvironment.t) :
  e = JvmtiEnvironment.set_next_environment e (JvmtiEnvironment._next e).
Proof. now destruct e. Qed.

Lemma set_next_environment_twice (e : JvmtiEnvironment.t) (a b : Z) :
  JvmtiEnvironment.set_next_environment (JvmtiEnvironment.set_next_environment e a) b
  = JvmtiEnvironment.set_next_environment e b.
Proof. reflexivity. Qed.

Lemma filter_valid_agree `{JvmtiEnvironment.Magic}
    (h h' : gmap Z JvmtiEnvironment.t) (l : list Z) :
  (forall q, q ∈ l -> h' !! q = h !! q) ->
  List.filter (JvmtiEnvironment.valid_at h') l = List.filter (JvmtiEnvironment.valid_at h) l.
Proof.
  intros Hagree. apply List.filter_ext_in. intros q Hq.
  unfold JvmtiEnvironment.valid_at. rewrite Hagree; [reflexivity |].
  now apply list_elem_of_In.
Qed.

Lemma clean_up_loop_spec `{JvmtiEnvironment.Magic} (l : list Z) :
  forall (fuel : nat) (h : gmap Z JvmtiEnvironment.t) (head env previous_env : Z),
  JvmtiEnvironment.env_list h env l ->
  (length l <= fuel)%nat ->
  (if previous_env =? nullptr then head = env
   else (previous_env ∉ l) /\
        exists pe, h !! previous_env = Some pe /\ JvmtiEnvironment._next pe = env) ->
  exists h' head',
    JvmtiEnvironment.clean_up_loop fuel h head env previous_env = Some (h', head') /\
    (if previous_env =? nullptr
     then JvmtiEnvironment.env_list h' head' (List.filter (JvmtiEnvironment.valid_at h) l)
     else head' = head /\
          exists pe pe',
            h !! previous_env = Some pe /\ h' !! previous_env = Some pe' /\
            pe' = JvmtiEnvironment.set_next_environment pe (JvmtiEnvironment._next pe') /\
            JvmtiEnvironment.env_list h' (JvmtiEnvironment._next pe')
              (List.filter (JvmtiEnvironment.valid_at h) l)) /\
    (forall q, q ∉ l -> q <> previous_env \/ previous_env = nullptr -> h' !! q = h !! q) /\
    (forall q, q ∈ l ->
       if JvmtiEnvironment.valid_at h q
       then exists e e', h !! q = Some e /\ h' !! q = Some e' /\
                         e' = JvmtiEnvironment.set_next_environment e
                                (JvmtiEnvironment._next e')
       else h' !! q = None).
Proof.
  induction l as [| p l IH]; intros fuel h head env previous_env Hlist Hfuel Hprev.
  - inversion Hlist as [Henv |]; subst.
    exists h, head. split; [destruct fuel; reflexivity |]. cbn [List.filter].
    split; [| split; [reflexivity | intros q Hq; inversion Hq]].
    destruct (Z.eqb_spec previous_env nullptr) as [Hnull | Hnonnull].
    + rewrite Hprev. constructor.
    + destruct Hprev as (_ & pe & Hpe & Hnext).
      split; [reflexivity |]. exists pe, pe.
      split; [exact Hpe |]. split; [exact Hpe |].
      split; [apply set_next_environment_eta | rewrite Hnext; constructor].
  - inversion Hlist as [| p' e l' Hp He Hl]; subst.
    destruct fuel as [| fuel]; [cbn in Hfuel; lia |].
    assert (Hfuel' : (length l <= fuel)%nat) by (cbn in Hfuel; lia).
    pose proof (env_list_head_not_in_tail _ _ _ Hlist) as Hpl.
    cbn [JvmtiEnvironment.clean_up_loop].
    destruct (Z.eqb_spec p nullptr) as [| _]; [contradiction |].
    rewrite He.
    assert (Hvalid_p : JvmtiEnvironment.valid_at h p = JvmtiEnvironment.is_valid e)
      by (unfold JvmtiEnvironment.valid_at; now rewrite He).
    cbn [List.filter]. rewrite Hvalid_p.
    destruct (JvmtiEnvironment.is_valid e) eqn:Hvalid.
    + (* the environment stays *)
      destruct (IH fuel h head (JvmtiEnvironment._next e) p Hl Hfuel')
        as (h' & head' & Hrun & Hres & Hframe & Helems).
      { destruct (Z.eqb_spec p nullptr) as [| _]; [contradiction |].
        split; [exact Hpl | eauto]. }
      destruct (Z.eqb_spec p nullptr) as [| _]; [contradiction |].
      destruct Hres as (Hhead & pe0 & pe' & Hpe0 & Hpe' & Hfields & Hrest).
      rewrite He in Hpe0. injection Hpe0 as <-.
      exists h', head'. split; [exact Hrun |].
      split; [| split].
      * destruct (Z.eqb_spec previous_env nullptr) as [Hnull | Hnonnull].
        -- rewrite Hhead, Hprev. econstructor; eassumption.
        -- destruct Hprev as (Hnotin & pe & Hpe & Hnext).
           apply not_elem_of_cons in Hnotin as [Hneq Hnotin].
           split; [exact Hhead |]. exists pe, pe.
           split; [exact Hpe |].
           split; [rewrite Hframe by (try assumption; left; congruence); exact Hpe |].
           split; [apply set_next_environment_eta |].
           rewrite Hnext. econstructor; eassumption.
      * intros q Hq Hqprev. apply not_elem_of_cons in Hq as [Hqp Hq].
        apply Hframe; [exact Hq | now left].
      * intros q Hq. apply elem_of_cons in Hq as [-> | Hq]; [| now apply Helems].
        rewrite Hvalid_p. eauto.
    + (* the environment is unlinked and deleted *)
      destruct (Z.eqb_spec previous_env nullptr) as [Hnull | Hnonnull].
      * subst previous_env.
        assert (Hagree : forall q, q ∈ l -> delete p h !! q = h !! q).
        { intros q Hq. apply lookup_delete_ne. intros ->. contradiction. }
        destruct (IH fuel (delete p h) (JvmtiEnvironment._next e)
                    (JvmtiEnvironment._next e) nullptr)
          as (h' & head' & Hrun & Hres & Hframe & Helems).
        { apply (env_list_agree h); assumption. } { exact Hfuel'. } { reflexivity. }
        cbn in Hres. rewrite (filter_valid_agree h) in Hres by exact Hagree.
        exists h', head'. split; [exact Hrun |].
        split; [exact Hres |]. split.
        -- intros q Hq Hqprev. apply not_elem_of_cons in Hq as [Hqp Hq].
           rewrite Hframe by (try assumption; now right). now apply lookup_delete_ne.
        -- intros q Hq. apply elem_of_cons in Hq as [-> | Hq].
           ++ rewrite Hvalid_p.
              rewrite Hframe by (try assumption; now right). apply lookup_delete_eq.
           ++ specialize (Helems q Hq).
              assert (Hv : JvmtiEnvironment.valid_at (delete p h) q = JvmtiEnvironment.valid_at h q)
                by (unfold JvmtiEnvironment.valid_at; now rewrite Hagree).
              rewrite Hv in Helems.
              destruct (JvmtiEnvironment.valid_at h q); [| exact Helems].
              destruct Helems as (e1 & e' & He1 & He' & Hfields').
              rewrite Hagree in He1 by exact Hq. eauto.
      * destruct Hprev as (Hnotin & pe & Hpe & Hnext).
        apply not_elem_of_cons in Hnotin as [Hneq Hnotin].
        rewrite Hpe.
        set (h1 := <[previous_env :=
                       JvmtiEnvironment.set_next_environment pe (JvmtiEnvironment._next e)]> h).
        assert (Hagree : forall q, q ∈ l -> delete p h1 !! q = h !! q).
        { intros q Hq. rewrite lookup_delete_ne by (intros ->; contradiction).
          subst h1. apply lookup_insert_ne. intros ->. contradiction. }
        destruct (IH fuel (delete p h1) head (JvmtiEnvironment._next e) previous_env)
          as (h' & head' & Hrun & Hres & Hframe & Helems).
        { apply (env_list_agree h); assumption. } { exact Hfuel'. }
        { destruct (Z.eqb_spec previous_env nullptr) as [| _]; [contradiction |].
          split; [exact Hnotin |].
          exists (JvmtiEnvironment.set_next_environment pe (JvmtiEnvironment._next e)).
          split; [| reflexivity].
          rewrite lookup_delete_ne by congruence. subst h1. apply lookup_insert_eq. }
        destruct (Z.eqb_spec previous_env nullptr) as [| _]; [contradiction |].
        destruct Hres as (Hhead & pe1 & pe' & Hpe1 & Hpe' & Hfields & Hrest).
        rewrite lookup_delete_ne in Hpe1 by congruence.
        unfold h1 in Hpe1. rewrite lookup_insert_eq in Hpe1. injection Hpe1 as <-.
        rewrite set_next_environment_twice in Hfields.
        rewrite (filter_valid_agree h) in Hrest by exact Hagree.
        exists h', head'. split; [exact Hrun |].
        split; [| split].
        -- split; [exact Hhead |]. exists pe, pe'. auto.
        -- intros q Hq Hqprev. apply not_elem_of_cons in Hq as [Hqp Hq].
           destruct Hqprev as [Hqprev | Hqprev]; [| contradiction].
           rewrite Hframe by (try assumption; now left).
           rewrite lookup_delete_ne by congruence. apply lookup_insert_ne. congruence.
        -- intros q Hq. apply elem_of_cons in Hq as [-> | Hq].
           ++ rewrite Hvalid_p.
              rewrite Hframe by (try assumption; left; congruence). apply lookup_delete_eq.
           ++ specialize (Helems q Hq).
              assert (Hv : JvmtiEnvironment.valid_at (delete p h1) q = JvmtiEnvironment.valid_at h q)
                by (unfold JvmtiEnvironment.valid_at; now rewrite Hagree).
              rewrite Hv in Helems.
              destruct (JvmtiEnvironment.valid_at h q); [| exact Helems].
              destruct Helems as (e1 & e' & He1 & He' & Hfields').
              rewrite Hagree in He1 by exact Hq. eauto.
Qed.

Lemma periodic_clean_up_keeps_valid_spec `{JvmtiEnvironment.Magic}
    (fuel : nat) (s : JvmtiEnvironment.globals) (l : list Z) :
  JvmtiEnvironment.env_list (JvmtiEnvironment.envs s)
    (JvmtiEnvironment._head_environment s) l ->
  (length l <= fuel)%nat ->
  exists s',
    JvmtiEnvironment.periodic_clean_up fuel s = Some s' /\
    JvmtiEnvironment.env_list (JvmtiEnvironment.envs s')
      (JvmtiEnvironment._head_environment s')
      (List.filter (JvmtiEnvironment.valid_at (JvmtiEnvironment.envs s)) l) /\
    (forall q, q ∈ l ->
       JvmtiEnvironment.valid_at (JvmtiEnvironment.envs s) q = false ->
       JvmtiEnvironment.envs s' !! q = None) /\
    (forall q e', JvmtiEnvironment.envs s' !! q = Some e' ->
       exists e, JvmtiEnvironment.envs s !! q = Some e /\
                 e' = JvmtiEnvironment.set_next_environment e
                        (JvmtiEnvironment._next e')).
Proof.
  intros Hlist Hfuel. unfold JvmtiEnvironment.periodic_clean_up.
  destruct (clean_up_loop_spec l fuel (JvmtiEnvironment.envs s)
              (JvmtiEnvironment._head_environment s)
              (JvmtiEnvironment._head_environment s) nullptr Hlist Hfuel eq_refl)
    as (h' & head' & Hrun & Hres & Hframe & Helems).
  rewrite Hrun. cbn in Hres.
  eexists. split; [reflexivity |]. cbn.
  split; [exact Hres |]. split.
  - intros q Hq Hinvalid. specialize (Helems q Hq). now rewrite Hinvalid in Helems.
  - intros q e' He'. destruct (decide (q ∈ l)) as [Hq | Hq].
    + specialize (Helems q Hq).
      destruct (JvmtiEnvironment.valid_at (JvmtiEnvironment.envs s) q).
      * destruct Helems as (e & e1 & He & He1 & Hfields).
        rewrite He' in He1. injection He1 as <-. eauto.
      * congruence.
    + rewrite Hframe in He' by (try assumption; now right).
      exists e'. split; [exact He' | apply set_next_environment_eta].
Qed.

(** [periodic_clean_up] unlinks and deletes exactly the environments that
    are not valid: the list becomes the valid environments in their old
    order, the others are gone, and every environment that is left has all
    its fields but [_next] as before. *)
Theorem periodic_clean_up_keeps_valid `{JvmtiEnvironment.Magic}
    (fuel : nat) (s : JvmtiEnvironment.globals) (l : list Z) :
  JvmtiEnvironment.env_list (JvmtiEnvironment.envs s)
    (JvmtiEnvironment._head_environment s) l ->
  (length l <= fuel)%nat ->
  exists s',
    JvmtiEnvironment.periodic_clean_up fuel s = Some s' /\
    JvmtiEnvironment.env_list (JvmtiEnvironment.envs s')
      (JvmtiEnvironment._head_environment s')
      (List.filter (JvmtiEnvironment.valid_at (JvmtiEnvironment.envs s)) l) /\
    (forall q, q ∈ l ->
       JvmtiEnvironment.valid_at (JvmtiEnvironment.envs s) q = false ->
       JvmtiEnvironment.envs s' !! q = None) /\
    (forall q e', JvmtiEnvironment.envs s' !! q = Some e' ->
       exists e, JvmtiEnvironment.envs s !! q = Some e /\
                 e' = JvmtiEnvironment.set_next_environment e
                        (JvmtiEnvironment._next e')).
Proof. apply periodic_clean_up_keeps_valid_spec. Qed.

(** ** Environments: disposal *)

Lemma env_list_update_same_next (h : gmap Z JvmtiEnvironment.t) (q : Z)
    (e e' : JvmtiEnvironment.t) (p : Z) (l : list Z) :
  JvmtiEnvironment.env_list h p l ->
  h !! q = Some e ->
  JvmtiEnvironment._next e' = JvmtiEnvironment._next e ->
  JvmtiEnvironment.env_list (<[q := e']> h) p l.
Proof.
  intros Hlist He Hnext.
  induction Hlist as [| p e0 l Hp He0 Hl IH]; [constructor |].
  destruct (decide (q = p)) as [-> | Hneq].
  - rewrite He in He0. injection He0 as <-.
    econstructor; [exact Hp | apply lookup_insert_eq |]. now rewrite Hnext.
  - econstructor; [exact Hp | | exact IH].
    rewrite lookup_insert_ne by exact Hneq. exact He0.
Qed.

Lemma foldl_inside (threads : list bool) (inside : bool) :
  foldl (fun inside t => inside || t) inside threads
  = inside || existsb (fun t => t) threads.
Proof.
  revert inside. induction threads as [| t threads IH]; intros inside; cbn.
  - now rewrite orb_false_r.
  - rewrite IH. now rewrite orb_assoc.
Qed.

(** A disposed environment stays linked, not valid, until the next clean-up
    that no thread blocks.  After [env_dispose] the list of environments is
    as before and [_needs_clean_up] is set; [check_for_periodic_clean_up]
    then does nothing while a thread is inside an environment iteration, and
    otherwise unlinks and deletes the disposed environment with the other
    invalid ones and clears [_needs_clean_up]. *)
Theorem env_dispose_then_clean_up `{JvmtiEnvironment.Magic}
    (relinquished : bool -> bool) (this : Z) (s : JvmtiEnvironment.globals)
    (strings : gmap Z string) (l : list Z) (fuel : nat)
    (threads : list bool) (dying : bool) :
  JvmtiEnvironment.JVMTI_MAGIC <> JvmtiEnvironment.DISPOSED_MAGIC ->
  JvmtiEnvironment.env_list (JvmtiEnvironment.envs s)
    (JvmtiEnvironment._head_environment s) l ->
  this ∈ l ->
  (length l <= fuel)%nat ->
  exists s1 strings1 freed1,
    JvmtiEnvironment.env_dispose relinquished this s strings
    = Some (s1, strings1, freed1) /\
    JvmtiEnvironment._needs_clean_up s1 = true /\
    JvmtiEnvironment.env_list (JvmtiEnvironment.envs s1)
      (JvmtiEnvironment._head_environment s1) l /\
    JvmtiEnvironment.valid_at (JvmtiEnvironment.envs s1) this = false /\
    if existsb (fun t => t) threads || dying
    then JvmtiEnvironment.check_for_periodic_clean_up fuel threads dying s1 = Some s1
    else exists s2,
      JvmtiEnvironment.check_for_periodic_clean_up fuel threads dying s1 = Some s2 /\
      JvmtiEnvironment._needs_clean_up s2 = false /\
      JvmtiEnvironment.envs s2 !! this = None /\
      JvmtiEnvironment.env_list (JvmtiEnvironment.envs s2)
        (JvmtiEnvironment._head_environment s2)
        (List.filter
           (fun q => JvmtiEnvironment.valid_at (JvmtiEnvironment.envs s) q
                     && negb (q =? this)) l).
Proof.
  intros Hmagic Hlist Hthis Hfuel.
  destruct (env_list_lookup _ _ _ Hlist _ Hthis) as [Hnonnull [e He]].
  unfold JvmtiEnvironment.env_dispose. rewrite He.
  unfold JvmtiEnvironment.set_native_method_prefixes.
  rewrite Z.eqb_refl. cbn [orb].
  set (e2 := JvmtiEnvironment.set_can_retransform_classes _ _).
  set (out := if negb (JvmtiEnvironment._native_method_prefix_count e2 =? 0)
              then _ else _).
  set (e3 := JvmtiEnvironment.set_tag_map (JvmtiEnvironment.environment out) nullptr).
  assert (Hmagic3 : JvmtiEnvironment._magic e3 = JvmtiEnvironment.DISPOSED_MAGIC).
  { subst e3 out. now destruct (negb (JvmtiEnvironment._native_method_prefix_count e2 =? 0)). }
  assert (Hnext3 : JvmtiEnvironment._next e3 = JvmtiEnvironment._next e).
  { subst e3 out. now destruct (negb (JvmtiEnvironment._native_method_prefix_count e2 =? 0)). }
  eexists _, _, _. split; [reflexivity |]. cbn.
  assert (Hlist1 : JvmtiEnvironment.env_list (<[this := e3]> (JvmtiEnvironment.envs s))
                     (JvmtiEnvironment._head_environment s) l)
    by (eapply env_list_update_same_next; eassumption).
  assert (Hinvalid : JvmtiEnvironment.valid_at (<[this := e3]> (JvmtiEnvironment.envs s)) this
                     = false).
  { unfold JvmtiEnvironment.valid_at, JvmtiEnvironment.is_valid.
    rewrite lookup_insert_eq, Hmagic3. apply Z.eqb_neq. congruence. }
  split; [reflexivity |]. split; [exact Hlist1 |]. split; [exact Hinvalid |].
  unfold JvmtiEnvironment.check_for_periodic_clean_up. cbn.
  rewrite foldl_inside. cbn [orb].
  destruct (existsb (fun t => t) threads); [reflexivity |].
  destruct dying; [reflexivity |]. cbn [orb negb andb].
  destruct (periodic_clean_up_keeps_valid_spec fuel
              (JvmtiEnvironment.mk_globals (<[this := e3]> (JvmtiEnvironment.envs s))
                 (JvmtiEnvironment._head_environment s)
                 (JvmtiEnvironment._globally_initialized s) false) l Hlist1 Hfuel)
    as (s2 & Hrun & Hlist2 & Hgone & _).
  exists s2. split; [exact Hrun |].
  split.
  { unfold JvmtiEnvironment.periodic_clean_up in Hrun. cbn in Hrun.
    destruct (JvmtiEnvironment.clean_up_loop _ _ _ _ _) as [[h2 head2] |];
      [| discriminate].
    now injection Hrun as <-. }
  split; [apply Hgone; [exact Hthis | exact Hinvalid] |].
  cbn in Hlist2.
  replace (List.filter _ l)
    with (List.filter (JvmtiEnvironment.valid_at (<[this := e3]> (JvmtiEnvironment.envs s))) l);
    [exact Hlist2 |].
  apply List.filter_ext. intros q.
  destruct (Z.eqb_spec q this) as [-> | Hneq].
  - rewrite Hinvalid. now rewrite andb_false_r.
  - unfold JvmtiEnvironment.valid_at. rewrite lookup_insert_ne by congruence.
    now rewrite andb_true_r.
Qed.

(** ** Environments: reading the prefixes back *)

Lemma mapM_ext_in {A B : Type} (f g : A -> option B) (l : list A) :
  (forall x, x ∈ l -> f x = g x) -> mapM f l = mapM g l.
Proof.
  induction l as [| x l IH]; intros Hext; [reflexivity |].
  cbn. rewrite (Hext x) by now left.
  rewrite IH; [reflexivity |]. intros y Hy. apply Hext. now right.
Qed.

Lemma mapM_fmap_compose {A B C : Type} (f : B -> option C) (g : A -> B) (l : list A) :
  mapM f (g <$> l) = mapM (fun x => f (g x)) l.
Proof.
  induction l as [| x l IH]; [reflexivity |]. cbn. now rewrite IH.
Qed.

Lemma all_prefixes_loop_spec (h : gmap Z JvmtiEnvironment.t) (strings : gmap Z string)
    (p : Z) (l : list Z) :
  JvmtiEnvironment.env_list h p l ->
  forall fuel, (length l <= fuel)%nat ->
  JvmtiEnvironment.all_prefixes_loop fuel h strings p
  = concat (A:=string) <$> mapM (fun q => h !! q ≫= JvmtiEnvironment.prefix_strings strings) l.
Proof.
  induction 1 as [| p e l Hp He Hl IH]; intros fuel Hfuel.
  - destruct fuel; reflexivity.
  - destruct fuel as [| fuel]; [cbn in Hfuel; lia |].
    cbn [JvmtiEnvironment.all_prefixes_loop].
    destruct (Z.eqb_spec p nullptr) as [| _]; [contradiction |].
    rewrite He, IH by (cbn in Hfuel; lia).
    cbn. rewrite He. cbn. unfold JvmtiEnvironment.prefix_strings.
    destruct (mapM _ (take _ _)) as [copies |]; [| reflexivity]. cbn.
    destruct (mapM _ l) as [rest |]; reflexivity.
Qed.

(** [get_all_native_method_prefixes] returns the prefixes of all
    environments in the order of the list of environments, and within an
    environment in the order of its array, with their number; it reads
    [_native_method_prefix_count] elements of each array. *)
Theorem get_all_native_method_prefixes_order (fuel : nat)
    (s : JvmtiEnvironment.globals) (strings : gmap Z string) (l : list Z) :
  JvmtiEnvironment.env_list (JvmtiEnvironment.envs s)
    (JvmtiEnvironment._head_environment s) l ->
  (length l <= fuel)%nat ->
  JvmtiEnvironment.get_all_native_method_prefixes fuel s strings
  = (fun per_environment =>
       (concat per_environment, Z.of_nat (length (concat per_environment))))
    <$> mapM (fun q => JvmtiEnvironment.envs s !! q
                       ≫= JvmtiEnvironment.prefix_strings strings) l.
Proof.
  intros Hlist Hfuel. unfold JvmtiEnvironment.get_all_native_method_prefixes.
  rewrite (all_prefixes_loop_spec _ strings _ _ Hlist fuel Hfuel).
  now destruct (mapM _ l).
Qed.

(** The prefixes that [set_native_method_prefixes] installs in an
    environment are what [get_all_native_method_prefixes] returns for it, in
    the same order and with the same content, between the prefixes of the
    environments before it and after it in the list. *)
Theorem native_method_prefixes_round_trip `{JvmtiEnvironment.Magic}
    (fuel : nat) (s : JvmtiEnvironment.globals) (l : list Z)
    (this : Z) (e : JvmtiEnvironment.t) (strings : gmap Z string)
    (prefix_count : Z) (prefixes : nat -> Z)
    (malloc_result : Z) (strdup_result : nat -> Z) :
  let n := Z.to_nat prefix_count in
  let old :=
    if negb (JvmtiEnvironment._native_method_prefix_count e =? 0)
    then take (Z.to_nat (JvmtiEnvironment._native_method_prefix_count e))
              (JvmtiEnvironment.native_method_prefix_array e)
         ++ [JvmtiEnvironment._native_method_prefixes e]
    else [] in
  JvmtiEnvironment.env_list (JvmtiEnvironment.envs s)
    (JvmtiEnvironment._head_environment s) l ->
  (length l <= fuel)%nat ->
  JvmtiEnvironment.envs s !! this = Some e ->
  JvmtiEnvironment.is_valid e = true ->
  0 < prefix_count ->
  malloc_result <> nullptr ->
  (forall j, (j < n)%nat ->
             prefixes j <> nullptr /\ strdup_result j <> nullptr /\
             is_Some (strings !! prefixes j)) ->
  NoDup (strdup_result <$> seq 0 n) ->
  (forall j k, (j < n)%nat -> (k < n)%nat -> strdup_result j <> prefixes k) ->
  (forall j, (j < n)%nat -> strdup_result j ∉ old) ->
  (forall q e_q p,
     q ∈ l -> q <> this -> JvmtiEnvironment.envs s !! q = Some e_q ->
     p ∈ take (Z.to_nat (JvmtiEnvironment._native_method_prefix_count e_q))
              (JvmtiEnvironment.native_method_prefix_array e_q) ->
     (p ∉ old) /\ (p ∉ (strdup_result <$> seq 0 n))) ->
  exists out,
    JvmtiEnvironment.set_native_method_prefixes e strings prefix_count prefixes
      malloc_result strdup_result = Some out /\
    JvmtiEnvironment.get_all_native_method_prefixes fuel
      (JvmtiEnvironment.mk_globals
         (<[this := JvmtiEnvironment.environment out]> (JvmtiEnvironment.envs s))
         (JvmtiEnvironment._head_environment s)
         (JvmtiEnvironment._globally_initialized s)
         (JvmtiEnvironment._needs_clean_up s))
      (JvmtiEnvironment.strings_after out)
    = (fun per_environment =>
         (concat per_environment, Z.of_nat (length (concat per_environment))))
      <$> mapM (fun q =>
                  if q =? this
                  then mapM (fun j => strings !! prefixes j) (seq 0 n)
                  else JvmtiEnvironment.envs s !! q
                       ≫= JvmtiEnvironment.prefix_strings strings) l.
Proof.
  intros n old Hlist Hfuel He Hvalid Hcount Hmalloc Hgood Hnodup Hfresh Hold Hothers.
  destruct (set_native_method_prefixes_success_spec e strings prefix_count prefixes
              malloc_result strdup_result Hvalid Hcount Hmalloc Hgood Hnodup Hfresh Hold)
    as (out & Hrun & Herror & Henv & Hfreed & Hcopies & Hframe).
  exists out. split; [exact Hrun |].
  unfold JvmtiEnvironment.get_all_native_method_prefixes. cbn.
  rewrite (all_prefixes_loop_spec _ (JvmtiEnvironment.strings_after out) _ l);
    [| | exact Hfuel].
  2:{ eapply env_list_update_same_next; [exact Hlist | exact He |].
      now rewrite Henv. }
  rewrite (mapM_ext_in _
             (fun q => if q =? this
                       then mapM (fun j => strings !! prefixes j) (seq 0 n)
                       else JvmtiEnvironment.envs s !! q
                            ≫= JvmtiEnvironment.prefix_strings strings)).
  { now destruct (mapM _ l). }
  intros q Hq. destruct (Z.eqb_spec q this) as [-> | Hneq].
  - rewrite lookup_insert_eq. cbn. rewrite Henv.
    unfold JvmtiEnvironment.prefix_strings. cbn. fold n.
    rewrite take_ge by (rewrite length_fmap, length_seq; lia).
    rewrite mapM_fmap_compose. apply mapM_ext_in.
    intros j Hj. apply Hcopies. apply elem_of_seq in Hj. lia.
  - rewrite lookup_insert_ne by congruence.
    destruct (JvmtiEnvironment.envs s !! q) as [e_q |] eqn:He_q; [| reflexivity].
    cbn. unfold JvmtiEnvironment.prefix_strings. apply mapM_ext_in.
    intros p Hp. destruct (Hothers q e_q p Hq Hneq He_q Hp) as [Hpold Hpnew].
    now apply Hframe.
Qed.

(** ** ResourceTracker *)

Lemma allocate_all_spec (results : list (Jvmti.jvmtiError * Z)) :
  forall rt : ResourceTracker.t,
  ResourceTracker.allocate_all results rt
  = ResourceTracker.mk
      (ResourceTracker._allocations rt
       ++ (snd <$> List.filter (fun r => ResourceTracker.is_NONE r.1) results))
      (ResourceTracker._failed rt
       || negb (forallb (fun r => ResourceTracker.is_NONE r.1) results)).
Proof.
  unfold ResourceTracker.allocate_all.
  induction results as [| [err ptr] results IH]; intros [allocations failed]; cbn.
  - now rewrite app_nil_r, orb_false_r.
  - rewrite IH. destruct err; cbn;
      rewrite ?orb_true_r, ?orb_true_l, <- ?app_assoc; reflexivity.
Qed.

(** A [ResourceTracker] gives back all or nothing: when every [allocate]
    succeeded its destructor deallocates nothing, and when one failed it
    deallocates every block that was allocated, before or after the failure,
    in the order of allocation. *)
Theorem resource_tracker_all_or_nothing (results : list (Jvmti.jvmtiError * Z)) :
  ResourceTracker.destroy
    (ResourceTracker.allocate_all results ResourceTracker.ResourceTracker)
  = if forallb (fun r => ResourceTracker.is_NONE r.1) results then []
    else snd <$> List.filter (fun r => ResourceTracker.is_NONE r.1) results.
Proof.
  rewrite allocate_all_spec. unfold ResourceTracker.destroy. cbn.
  now destruct (forallb _ results).
Qed.

(** ** Owned monitors *)

Lemma found_spec (owned : list JvmtiMonitors.jvmtiMonitorStackDepthInfo) (obj : Z) :
  JvmtiMonitors.found owned obj = true <-> obj ∈ (fst <$> owned).
Proof.
  induction owned as [| [o k] owned IH]; cbn.
  - split; [discriminate | intros Hin; inversion Hin].
  - destruct (Z.eqb_spec o obj) as [-> | Hneq].
    + split; [intros _; now left | reflexivity].
    + rewrite IH. split; [intros Hin; now right |].
      intros Hin. apply elem_of_cons in Hin as [Heq | Hin]; [congruence | exact Hin].
Qed.

Lemma found_false (owned : list JvmtiMonitors.jvmtiMonitorStackDepthInfo) (obj : Z) :
  JvmtiMonitors.found owned obj = false <-> obj ∉ (fst <$> owned).
Proof.
  rewrite <- found_spec. destruct (JvmtiMonitors.found owned obj); split; intros; congruence.
Qed.

Lemma found_guard (owned : list JvmtiMonitors.jvmtiMonitorStackDepthInfo) (obj : Z) :
  (0 <? Z.of_nat (length owned)) && JvmtiMonitors.found owned obj
  = JvmtiMonitors.found owned obj.
Proof. destruct owned; reflexivity. Qed.

Lemma locks_cons (wait_obj pending_obj : Z) (mi : JvmtiMonitors.MonitorInfo)
    (mons : list JvmtiMonitors.MonitorInfo) (obj : Z) :
  JvmtiMonitors.locks wait_obj pending_obj (mi :: mons) obj
  = (negb (JvmtiMonitors.owner_is_scalar_replaced mi)
     && (JvmtiMonitors.owner mi =? obj)
     && negb (obj =? nullptr) && negb (wait_obj =? obj) && negb (pending_obj =? obj))
    || JvmtiMonitors.locks wait_obj pending_obj mons obj.
Proof.
  unfold JvmtiMonitors.locks. cbn [existsb].
  destruct (negb (JvmtiMonitors.owner_is_scalar_replaced mi)
            && (JvmtiMonitors.owner mi =? obj)), (existsb _ mons),
    (negb (obj =? nullptr)), (negb (wait_obj =? obj)), (negb (pending_obj =? obj));
    reflexivity.
Qed.

Lemma locked_objects_loop_effect (allocate : nat -> Jvmti.jvmtiError)
    (wait_obj pending_obj stack_depth : Z) (mons : list JvmtiMonitors.MonitorInfo) :
  forall owned : list JvmtiMonitors.jvmtiMonitorStackDepthInfo,
  let result :=
    JvmtiMonitors.locked_objects_loop allocate wait_obj pending_obj mons owned stack_depth in
  exists added,
    result.2 = owned ++ added /\
    NoDup (fst <$> added) /\
    (forall info, info ∈ added ->
       info.2 = stack_depth /\
       JvmtiMonitors.locks wait_obj pending_obj mons info.1 = true /\
       info.1 ∉ (fst <$> owned)) /\
    (result.1 = Jvmti.JVMTI_ERROR_NONE ->
     forall obj, JvmtiMonitors.locks wait_obj pending_obj mons obj = true ->
                 obj ∈ (fst <$> result.2)).
Proof.
  induction mons as [| mi rest IH]; intros owned; cbn zeta.
  - exists []. cbn. rewrite app_nil_r. split; [reflexivity |].
    split; [constructor |]. split; [intros info Hin; inversion Hin |].
    intros _ obj Hlocks. discriminate.
  - assert (Hskip :
      negb (JvmtiMonitors.owner_is_scalar_replaced mi)
      && negb (JvmtiMonitors.owner mi =? nullptr)
      && negb (wait_obj =? JvmtiMonitors.owner mi)
      && negb (pending_obj =? JvmtiMonitors.owner mi) = false
      \/ JvmtiMonitors.owner mi ∈ (fst <$> owned) ->
      let result :=
        JvmtiMonitors.locked_objects_loop allocate wait_obj pending_obj rest owned
          stack_depth in
      exists added,
        result.2 = owned ++ added /\
        NoDup (fst <$> added) /\
        (forall info, info ∈ added ->
           info.2 = stack_depth /\
           JvmtiMonitors.locks wait_obj pending_obj (mi :: rest) info.1 = true /\
           info.1 ∉ (fst <$> owned)) /\
        (result.1 = Jvmti.JVMTI_ERROR_NONE ->
         forall obj, JvmtiMonitors.locks wait_obj pending_obj (mi :: rest) obj = true ->
                     obj ∈ (fst <$> result.2))).
    { intros Hwhy. destruct (IH owned) as (added & Heq & Hnodup & Hadded & Hall).
      exists added. split; [exact Heq |]. split; [exact Hnodup |]. split.
      - intros info Hin. destruct (Hadded info Hin) as (Hd & Hl & Hn).
        split; [exact Hd |]. split; [| exact Hn].
        rewrite locks_cons, Hl. apply orb_true_r.
      - intros Herr obj Hlocks. rewrite locks_cons in Hlocks.
        apply orb_true_iff in Hlocks as [Hmi | Hrest]; [| now apply Hall].
        apply andb_true_iff in Hmi as [Hmi Hp]. apply andb_true_iff in Hmi as [Hmi Hw].
        apply andb_true_iff in Hmi as [Hmi Hn]. apply andb_true_iff in Hmi as [Hs Ho].
        apply Z.eqb_eq in Ho. subst obj.
        destruct Hwhy as [Hfalse | Hfound].
        + rewrite Hs, Hn, Hw, Hp in Hfalse. discriminate.
        + rewrite Heq, fmap_app. apply elem_of_app. now left. }
    cbn [JvmtiMonitors.locked_objects_loop].
    destruct (JvmtiMonitors.owner_is_scalar_replaced mi) eqn:Hscalar;
      [apply Hskip; now left |].
    destruct (JvmtiMonitors.owner mi =? nullptr) eqn:Hnull; [apply Hskip; now left |].
    destruct (wait_obj =? JvmtiMonitors.owner mi) eqn:Hwait; [apply Hskip; now left |].
    destruct (pending_obj =? JvmtiMonitors.owner mi) eqn:Hpending;
      [apply Hskip; now left |].
    rewrite found_guard.
    destruct (JvmtiMonitors.found owned (JvmtiMonitors.owner mi)) eqn:Hfound;
      [apply Hskip; right; now apply found_spec |].
    apply found_false in Hfound.
    assert (Hmi : JvmtiMonitors.locks wait_obj pending_obj (mi :: rest)
                    (JvmtiMonitors.owner mi) = true).
    { rewrite locks_cons, Hscalar, Z.eqb_refl, Hnull, Hwait, Hpending. reflexivity. }
    destruct (allocate (length owned)) eqn:Halloc;
      try (exists []; cbn; rewrite app_nil_r; split; [reflexivity |];
           split; [constructor |]; split; [intros info Hin; inversion Hin |];
           intros Herr; discriminate).
    destruct (IH (owned ++ [(JvmtiMonitors.owner mi, stack_depth)]))
      as (added & Heq & Hnodup & Hadded & Hall).
    exists ((JvmtiMonitors.owner mi, stack_depth) :: added).
    split; [rewrite Heq, <- app_assoc; reflexivity |].
    split.
    { cbn. apply NoDup_cons. split; [| exact Hnodup].
      intros Hin. apply list_elem_of_fmap in Hin as (info & Hfst & Hin).
      destruct (Hadded info Hin) as (_ & _ & Hn). apply Hn.
      rewrite fmap_app, <- Hfst. apply elem_of_app. right. now left. }
    split.
    { intros info Hin. apply elem_of_cons in Hin as [-> | Hin].
      - cbn. auto.
      - destruct (Hadded info Hin) as (Hd & Hl & Hn).
        split; [exact Hd |]. split.
        + rewrite locks_cons, Hl. apply orb_true_r.
        + intros Hin'. apply Hn. rewrite fmap_app. apply elem_of_app. now left. }
    intros Herr obj Hlocks. rewrite locks_cons in Hlocks.
    apply orb_true_iff in Hlocks as [Hobj | Hrest]; [| now apply Hall].
    apply andb_true_iff in Hobj as [Hobj _]. apply andb_true_iff in Hobj as [Hobj _].
    apply andb_true_iff in Hobj as [Hobj _]. apply andb_true_iff in Hobj as [_ Ho].
    apply Z.eqb_eq in Ho. subst obj.
    rewrite Heq, !fmap_app, <- app_assoc. apply elem_of_app. right. now left.
Qed.

Lemma get_locked_objects_in_frame_loop (allocate : nat -> Jvmti.jvmtiError)
    (wait_obj pending_obj stack_depth : Z) (mons : list JvmtiMonitors.MonitorInfo)
    (owned : list JvmtiMonitors.jvmtiMonitorStackDepthInfo) :
  JvmtiMonitors.get_locked_objects_in_frame allocate wait_obj pending_obj mons owned
    stack_depth
  = JvmtiMonitors.locked_objects_loop allocate wait_obj pending_obj mons owned stack_depth.
Proof. now destruct mons. Qed.

(** [get_locked_objects_in_frame] only appends to the list, and what it
    appends are owners of monitors of the frame that are not scalar
    replaced: none is [NULL], the object the thread waits for, the object
    it is pending on, or an object already in the list; none is appended
    twice; each is recorded with the given stack depth.  When no allocation
    fails, every such owner is in the list afterwards. *)
Theorem get_locked_objects_in_frame_effect (allocate : nat -> Jvmti.jvmtiError)
    (wait_obj pending_obj stack_depth : Z) (mons : list JvmtiMonitors.MonitorInfo)
    (owned : list JvmtiMonitors.jvmtiMonitorStackDepthInfo) :
  let result :=
    JvmtiMonitors.get_locked_objects_in_frame allocate wait_obj pending_obj mons owned
      stack_depth in
  exists added,
    result.2 = owned ++ added /\
    NoDup (fst <$> added) /\
    (forall info, info ∈ added ->
       info.2 = stack_depth /\
       JvmtiMonitors.locks wait_obj pending_obj mons info.1 = true /\
       info.1 ∉ (fst <$> owned)) /\
    (result.1 = Jvmti.JVMTI_ERROR_NONE ->
     forall obj, JvmtiMonitors.locks wait_obj pending_obj mons obj = true ->
                 obj ∈ (fst <$> result.2)).
Proof.
  rewrite get_locked_objects_in_frame_loop. apply locked_objects_loop_effect.
Qed.

Lemma do_monitor_fold_error (allocate : nat -> Jvmti.jvmtiError) (java_thread : Z)
    (monitors : list (Z * Z)) :
  forall (err : Jvmti.jvmtiError) (owned : list JvmtiMonitors.jvmtiMonitorStackDepthInfo),
  err <> Jvmti.JVMTI_ERROR_NONE ->
  foldl (fun jmc mon => JvmtiMonitors.do_monitor allocate java_thread mon jmc)
        (err, owned) monitors = (err, owned).
Proof.
  induction monitors as [| mon monitors IH]; intros err owned Herr; [reflexivity |].
  cbn [foldl]. replace (JvmtiMonitors.do_monitor allocate java_thread mon (err, owned))
    with (err, owned) by (destruct err; [congruence | reflexivity ..]).
  now apply IH.
Qed.

Lemma do_monitor_fold_effect (allocate : nat -> Jvmti.jvmtiError) (java_thread : Z)
    (monitors : list (Z * Z)) :
  forall owned : list JvmtiMonitors.jvmtiMonitorStackDepthInfo,
  let result :=
    foldl (fun jmc mon => JvmtiMonitors.do_monitor allocate java_thread mon jmc)
          (Jvmti.JVMTI_ERROR_NONE, owned) monitors in
  exists added,
    result.2 = owned ++ added /\
    NoDup (fst <$> added) /\
    (forall info, info ∈ added ->
       info.2 = -1 /\ (info.1 ∉ (fst <$> owned)) /\ (java_thread, info.1) ∈ monitors) /\
    (result.1 = Jvmti.JVMTI_ERROR_NONE ->
     forall obj, (java_thread, obj) ∈ monitors -> obj ∈ (fst <$> result.2)).
Proof.
  induction monitors as [| [mon_owner obj0] monitors IH]; intros owned; cbn zeta.
  - exists []. cbn. rewrite app_nil_r. split; [reflexivity |].
    split; [constructor |]. split; [intros info Hin; inversion Hin |].
    intros _ obj Hin. inversion Hin.
  - cbn [foldl JvmtiMonitors.do_monitor fst snd].
    assert (Hskip :
      mon_owner <> java_thread \/ obj0 ∈ (fst <$> owned) ->
      let result :=
        foldl (fun jmc mon => JvmtiMonitors.do_monitor allocate java_thread mon jmc)
              (Jvmti.JVMTI_ERROR_NONE, owned) monitors in
      exists added,
        result.2 = owned ++ added /\
        NoDup (fst <$> added) /\
        (forall info, info ∈ added ->
           info.2 = -1 /\ (info.1 ∉ (fst <$> owned)) /\
           (java_thread, info.1) ∈ (mon_owner, obj0) :: monitors) /\
        (result.1 = Jvmti.JVMTI_ERROR_NONE ->
         forall obj, (java_thread, obj) ∈ (mon_owner, obj0) :: monitors ->
                     obj ∈ (fst <$> result.2))).
    { intros Hwhy. destruct (IH owned) as (added & Heq & Hnodup & Hadded & Hall).
      exists added. split; [exact Heq |]. split; [exact Hnodup |]. split.
      - intros info Hin. destruct (Hadded info Hin) as (Hd & Hn & Hm).
        split; [exact Hd |]. split; [exact Hn | now right].
      - intros Herr obj Hin. apply elem_of_cons in Hin as [Heq' | Hin]; [| now apply Hall].
        injection Heq' as <- <-.
        destruct Hwhy as [Hneq | Hfound]; [congruence |].
        rewrite Heq, fmap_app. apply elem_of_app. now left. }
    destruct (Z.eqb_spec mon_owner java_thread) as [-> | Hneq]; [| apply Hskip; now left].
    destruct (JvmtiMonitors.found owned obj0) eqn:Hfound;
      [apply Hskip; right; now apply found_spec |].
    apply found_false in Hfound.
    destruct (allocate (length owned)) eqn:Halloc;
      try (rewrite do_monitor_fold_error by discriminate;
           exists []; cbn; rewrite app_nil_r; split; [reflexivity |];
           split; [constructor |]; split; [intros info Hin; inversion Hin |];
           intros Herr; discriminate).
    destruct (IH (owned ++ [(obj0, -1)])) as (added & Heq & Hnodup & Hadded & Hall).
    exists ((obj0, -1) :: added).
    split; [rewrite Heq, <- app_assoc; reflexivity |].
    split.
    { cbn. apply NoDup_cons. split; [| exact Hnodup].
      intros Hin. apply list_elem_of_fmap in Hin as (info & Hfst & Hin).
      destruct (Hadded info Hin) as (_ & Hn & _). apply Hn.
      rewrite fmap_app, <- Hfst. apply elem_of_app. right. now left. }
    split.
    { intros info Hin. apply elem_of_cons in Hin as [-> | Hin].
      - cbn. split; [reflexivity |]. split; [exact Hfound | now left].
      - destruct (Hadded info Hin) as (Hd & Hn & Hm).
        split; [exact Hd |]. split; [| now right].
        intros Hin'. apply Hn. rewrite fmap_app. apply elem_of_app. now left. }
    intros Herr obj Hin. apply elem_of_cons in Hin as [Heq' | Hin]; [| now apply Hall].
    injection Heq' as <-.
    rewrite Heq, !fmap_app, <- app_assoc. apply elem_of_app. right. now left.
Qed.

Lemma owned_monitors_loop_effect (allocate : nat -> Jvmti.jvmtiError)
    (MaxJavaStackTraceDepth wait_obj pending_obj : Z)
    (jvf : list (list JvmtiMonitors.MonitorInfo)) :
  forall (depth : Z) (owned : list JvmtiMonitors.jvmtiMonitorStackDepthInfo),
  let result :=
    JvmtiMonitors.owned_monitors_loop allocate MaxJavaStackTraceDepth wait_obj pending_obj
      jvf depth owned in
  exists added,
    result.2 = owned ++ added /\
    NoDup (fst <$> added) /\
    (forall info, info ∈ added ->
       (info.1 ∉ (fst <$> owned)) /\
       exists (i : nat) mons,
         jvf !! i = Some mons /\
         JvmtiMonitors.locks wait_obj pending_obj mons info.1 = true /\
         (0 <= depth -> depth + Z.of_nat (length jvf) < 2 ^ 31 ->
          if MaxJavaStackTraceDepth =? 0 then info.2 = depth - 1
          else info.2 = depth + Z.of_nat i /\ info.2 < MaxJavaStackTraceDepth /\
               forall (j : nat) mons_j,
                 (j < i)%nat -> jvf !! j = Some mons_j ->
                 JvmtiMonitors.locks wait_obj pending_obj mons_j info.1 = false)) /\
    (result.1 = Jvmti.JVMTI_ERROR_NONE ->
     0 <= depth -> depth + Z.of_nat (length jvf) < 2 ^ 31 ->
     forall (i : nat) mons obj,
       jvf !! i = Some mons ->
       MaxJavaStackTraceDepth = 0 \/ depth + Z.of_nat i < MaxJavaStackTraceDepth ->
       JvmtiMonitors.locks wait_obj pending_obj mons obj = true ->
       obj ∈ (fst <$> result.2)).
Proof.
  induction jvf as [| mons sender IH]; intros depth owned; cbn zeta.
  - exists []. cbn. rewrite app_nil_r. split; [reflexivity |].
    split; [constructor |]. split; [intros info Hin; inversion Hin |].
    intros _ _ _ i mons obj Hi. discriminate.
  - cbn [JvmtiMonitors.owned_monitors_loop].
    set (taken := if MaxJavaStackTraceDepth =? 0 then true
                  else depth <? MaxJavaStackTraceDepth).
    set (depth' := if MaxJavaStackTraceDepth =? 0 then depth else int_wrap (depth + 1)).
    replace (if MaxJavaStackTraceDepth =? 0 then (true, depth)
             else (depth <? MaxJavaStackTraceDepth, int_wrap (depth + 1)))
      with (taken, depth')
      by (subst taken depth'; now destruct (MaxJavaStackTraceDepth =? 0)).
    assert (Hdepth' : 0 <= depth -> depth + Z.of_nat (length (mons :: sender)) < 2 ^ 31 ->
              depth' = (if MaxJavaStackTraceDepth =? 0 then depth else depth + 1) /\
              int_wrap (depth' - 1)
              = (if MaxJavaStackTraceDepth =? 0 then depth - 1 else depth) /\
              0 <= depth' /\ depth' + Z.of_nat (length sender) < 2 ^ 31).
    { intros H0 Hlen. cbn [length] in Hlen. subst depth'.
      destruct (MaxJavaStackTraceDepth =? 0).
      - rewrite int_wrap_id by lia. lia.
      - rewrite (int_wrap_id (depth + 1)) by lia.
        rewrite int_wrap_id by lia. lia. }
    destruct taken eqn:Htaken.
    + rewrite get_locked_objects_in_frame_loop.
      destruct (locked_objects_loop_effect allocate wait_obj pending_obj
                  (int_wrap (depth' - 1)) mons owned)
        as (added1 & Heq1 & Hnodup1 & Hadded1 & Hall1).
      destruct (JvmtiMonitors.locked_objects_loop allocate wait_obj pending_obj mons owned
                  (int_wrap (depth' - 1))) as [err1 owned1].
      cbn [fst snd] in Heq1, Hall1.
      assert (Hentries1 : forall info, info ∈ added1 ->
                (info.1 ∉ (fst <$> owned)) /\
                exists (i : nat) mons0,
                  (mons :: sender) !! i = Some mons0 /\
                  JvmtiMonitors.locks wait_obj pending_obj mons0 info.1 = true /\
                  (0 <= depth -> depth + Z.of_nat (length (mons :: sender)) < 2 ^ 31 ->
                   if MaxJavaStackTraceDepth =? 0 then info.2 = depth - 1
                   else info.2 = depth + Z.of_nat i /\ info.2 < MaxJavaStackTraceDepth /\
                        forall (j : nat) mons_j,
                          (j < i)%nat -> (mons :: sender) !! j = Some mons_j ->
                          JvmtiMonitors.locks wait_obj pending_obj mons_j info.1 = false)).
      { intros info Hin. destruct (Hadded1 info Hin) as (Hd & Hl & Hn).
        split; [exact Hn |]. exists 0%nat, mons. split; [reflexivity |].
        split; [exact Hl |]. intros H0 Hlen.
        destruct (Hdepth' H0 Hlen) as (_ & Hsd & _). rewrite Hsd in Hd.
        subst taken. destruct (Z.eqb_spec MaxJavaStackTraceDepth 0); [exact Hd |].
        apply Z.ltb_lt in Htaken.
        split; [lia |]. split; [lia |]. intros j mons_j Hj. lia. }
      destruct err1;
        try (exists added1; split; [exact Heq1 |]; split; [exact Hnodup1 |];
             split; [exact Hentries1 |]; cbn; intros Herr; discriminate).
      destruct (IH depth' owned1) as (added2 & Heq2 & Hnodup2 & Hadded2 & Hall2).
      exists (added1 ++ added2).
      split; [rewrite Heq2, Heq1, <- app_assoc; reflexivity |].
      split.
      { rewrite fmap_app. apply NoDup_app. split; [exact Hnodup1 |]. split; [| exact Hnodup2].
        intros o Ho1 Ho2. apply list_elem_of_fmap in Ho2 as (info & -> & Hin).
        destruct (Hadded2 info Hin) as (Hn & _). apply Hn.
        rewrite Heq1, fmap_app. apply elem_of_app. now right. }
      split.
      { intros info Hin. apply elem_of_app in Hin as [Hin | Hin]; [now apply Hentries1 |].
        destruct (Hadded2 info Hin) as (Hn & i & mons_i & Hi & Hl & Hd).
        split.
        { intros Hin'. apply Hn. rewrite Heq1, fmap_app. apply elem_of_app. now left. }
        exists (S i), mons_i. split; [exact Hi |]. split; [exact Hl |].
        intros H0 Hlen. destruct (Hdepth' H0 Hlen) as (Hd' & _ & H0' & Hlen').
        specialize (Hd H0' Hlen'). rewrite Hd' in Hd.
        destruct (Z.eqb_spec MaxJavaStackTraceDepth 0); [exact Hd |].
        destruct Hd as (Hd & Hmax & Hfirst).
        split; [lia |]. split; [exact Hmax |].
        intros [| j] mons_j Hj Hmons_j.
        - injection Hmons_j as <-.
          destruct (JvmtiMonitors.locks wait_obj pending_obj mons info.1) eqn:Hlocks;
            [| reflexivity].
          exfalso. apply Hn. now apply (Hall1 eq_refl).
        - apply (Hfirst j); [lia | exact Hmons_j]. }
      intros Herr H0 Hlen [| i] mons_i obj Hi Hmax Hl.
      * injection Hi as <-. rewrite Heq2, fmap_app. apply elem_of_app. left.
        now apply (Hall1 eq_refl).
      * destruct (Hdepth' H0 Hlen) as (Hd' & _ & H0' & Hlen').
        apply (Hall2 Herr H0' Hlen' i mons_i obj Hi); [| exact Hl].
        rewrite Hd'. destruct (Z.eqb_spec MaxJavaStackTraceDepth 0); [now left |].
        right. destruct Hmax as [Hmax | Hmax]; [contradiction | lia].
    + subst taken.
      destruct (Z.eqb_spec MaxJavaStackTraceDepth 0) as [| Hmax0]; [discriminate |].
      apply Z.ltb_ge in Htaken.
      destruct (IH depth' owned) as (added & Heq & Hnodup & Hadded & Hall).
      exists added. split; [exact Heq |]. split; [exact Hnodup |]. split.
      * intros info Hin. destruct (Hadded info Hin) as (Hn & i & mons_i & Hi & Hl & Hd).
        split; [exact Hn |]. exists (S i), mons_i. split; [exact Hi |].
        split; [exact Hl |]. intros H0 Hlen.
        destruct (Hdepth' H0 Hlen) as (Hd' & _ & H0' & Hlen').
        specialize (Hd H0' Hlen'). rewrite Hd' in Hd.
        destruct (Z.eqb_spec MaxJavaStackTraceDepth 0); [contradiction |]. lia.
      * intros Herr H0 Hlen [| i] mons_i obj Hi Hmax Hl.
        -- destruct Hmax as [Hmax | Hmax]; [contradiction | lia].
        -- destruct (Hdepth' H0 Hlen) as (Hd' & _ & H0' & Hlen').
           apply (Hall Herr H0' Hlen' i mons_i obj Hi); [| exact Hl].
           rewrite Hd'. destruct (Z.eqb_spec MaxJavaStackTraceDepth 0); [contradiction |].
           right. destruct Hmax as [Hmax | Hmax]; [contradiction | lia].
Qed.

Lemma get_owned_monitors_spec (allocate : nat -> Jvmti.jvmtiError)
    (MaxJavaStackTraceDepth java_thread wait_obj pending_obj : Z)
    (jvf : list (list JvmtiMonitors.MonitorInfo)) (monitors : list (Z * Z))
    (owned : list JvmtiMonitors.jvmtiMonitorStackDepthInfo) :
  let result :=
    JvmtiMonitors.get_owned_monitors allocate MaxJavaStackTraceDepth java_thread
      wait_obj pending_obj jvf monitors owned in
  exists on_stack off_stack,
    result.2 = owned ++ on_stack ++ off_stack /\
    NoDup (fst <$> (on_stack ++ off_stack)) /\
    (forall info, info ∈ on_stack ->
       (info.1 ∉ (fst <$> owned)) /\
       exists (i : nat) mons,
         jvf !! i = Some mons /\
         JvmtiMonitors.locks wait_obj pending_obj mons info.1 = true /\
         (Z.of_nat (length jvf) < 2 ^ 31 ->
          if MaxJavaStackTraceDepth =? 0 then info.2 = -1
          else info.2 = Z.of_nat i /\ info.2 < MaxJavaStackTraceDepth /\
               forall (j : nat) mons_j,
                 (j < i)%nat -> jvf !! j = Some mons_j ->
                 JvmtiMonitors.locks wait_obj pending_obj mons_j info.1 = false)) /\
    (forall info, info ∈ off_stack ->
       info.2 = -1 /\ (info.1 ∉ (fst <$> owned)) /\ (java_thread, info.1) ∈ monitors) /\
    (result.1 = Jvmti.JVMTI_ERROR_NONE ->
     (forall obj, (java_thread, obj) ∈ monitors -> obj ∈ (fst <$> result.2)) /\
     (Z.of_nat (length jvf) < 2 ^ 31 ->
      forall (i : nat) mons obj,
        jvf !! i = Some mons ->
        MaxJavaStackTraceDepth = 0 \/ Z.of_nat i < MaxJavaStackTraceDepth ->
        JvmtiMonitors.locks wait_obj pending_obj mons obj = true ->
        obj ∈ (fst <$> result.2))).
Proof.
  cbn zeta. unfold JvmtiMonitors.get_owned_monitors.
  destruct (owned_monitors_loop_effect allocate MaxJavaStackTraceDepth wait_obj pending_obj
              jvf 0 owned) as (added1 & Heq1 & Hnodup1 & Hadded1 & Hall1).
  destruct (JvmtiMonitors.owned_monitors_loop allocate MaxJavaStackTraceDepth wait_obj
              pending_obj jvf 0 owned) as [err1 owned1].
  cbn [fst snd] in Heq1, Hall1.
  assert (Hentries1 : forall info, info ∈ added1 ->
            (info.1 ∉ (fst <$> owned)) /\
            exists (i : nat) mons,
              jvf !! i = Some mons /\
              JvmtiMonitors.locks wait_obj pending_obj mons info.1 = true /\
              (Z.of_nat (length jvf) < 2 ^ 31 ->
               if MaxJavaStackTraceDepth =? 0 then info.2 = -1
               else info.2 = Z.of_nat i /\ info.2 < MaxJavaStackTraceDepth /\
                    forall (j : nat) mons_j,
                      (j < i)%nat -> jvf !! j = Some mons_j ->
                      JvmtiMonitors.locks wait_obj pending_obj mons_j info.1 = false)).
  { intros info Hin. destruct (Hadded1 info Hin) as (Hn & i & mons & Hi & Hl & Hd).
    split; [exact Hn |]. exists i, mons. split; [exact Hi |]. split; [exact Hl |].
    intros Hlen. specialize (Hd ltac:(lia) ltac:(lia)).
    destruct (MaxJavaStackTraceDepth =? 0); [lia |].
    destruct Hd as (Hd & Hmax & Hfirst). split; [lia |]. split; [exact Hmax | exact Hfirst]. }
  destruct err1;
    try (exists added1, []; rewrite app_nil_r; split; [exact Heq1 |];
         split; [exact Hnodup1 |]; split; [exact Hentries1 |];
         split; [intros info Hin; inversion Hin |]; cbn; intros Herr; discriminate).
  destruct (do_monitor_fold_effect allocate java_thread monitors owned1)
    as (added2 & Heq2 & Hnodup2 & Hadded2 & Hall2).
  exists added1, added2.
  split; [rewrite Heq2, Heq1, <- app_assoc; reflexivity |].
  split.
  { rewrite fmap_app. apply NoDup_app. split; [exact Hnodup1 |]. split; [| exact Hnodup2].
    intros o Ho1 Ho2. apply list_elem_of_fmap in Ho2 as (info & -> & Hin).
    destruct (Hadded2 info Hin) as (_ & Hn & _). apply Hn.
    rewrite Heq1, fmap_app. apply elem_of_app. now right. }
  split; [exact Hentries1 |].
  split.
  { intros info Hin. destruct (Hadded2 info Hin) as (Hd & Hn & Hm).
    split; [exact Hd |]. split; [| exact Hm].
    intros Hin'. apply Hn. rewrite Heq1, fmap_app. apply elem_of_app. now left. }
  intros Herr. split; [exact (Hall2 Herr) |].
  intros Hlen i mons obj Hi Hmax Hl.
  rewrite Heq2, fmap_app. apply elem_of_app. left.
  apply (Hall1 eq_refl ltac:(lia) ltac:(lia) i mons obj Hi); [| exact Hl].
  destruct Hmax as [Hmax | Hmax]; [now left | right; lia].
Qed.

(** [get_owned_monitors] never reports an object twice: it only appends to
    the list it is given, and when the objects of that list are distinct, so
    are the objects of the list afterwards, whether the walk ends with an
    error or not. *)
Theorem get_owned_monitors_no_duplicates (allocate : nat -> Jvmti.jvmtiError)
    (MaxJavaStackTraceDepth java_thread : Z) (has_last_Java_frame : bool)
    (wait_obj pending_obj : Z)
    (jvf : list (list JvmtiMonitors.MonitorInfo)) (monitors : list (Z * Z))
    (owned : list JvmtiMonitors.jvmtiMonitorStackDepthInfo) :
  NoDup (fst <$> owned) ->
  let result :=
    JvmtiMonitors.get_owned_monitors_thread allocate MaxJavaStackTraceDepth java_thread
      has_last_Java_frame wait_obj pending_obj jvf monitors owned in
  (exists added, result.2 = owned ++ added) /\ NoDup (fst <$> result.2).
Proof.
  intros Hnodup. cbn zeta. unfold JvmtiMonitors.get_owned_monitors_thread.
  destruct has_last_Java_frame.
  - destruct (get_owned_monitors_spec allocate MaxJavaStackTraceDepth java_thread wait_obj
                pending_obj jvf monitors owned)
      as (on_stack & off_stack & Heq & Hnd & Hon & Hoff & _).
    split; [eauto |]. rewrite Heq, fmap_app. apply NoDup_app.
    split; [exact Hnodup |]. split; [| exact Hnd].
    intros o Ho Hin. apply list_elem_of_fmap in Hin as (info & -> & Hin).
    apply elem_of_app in Hin as [Hin | Hin].
    + now destruct (Hon info Hin) as [Hn _].
    + now destruct (Hoff info Hin) as (_ & Hn & _).
  - destruct (do_monitor_fold_effect allocate java_thread monitors owned)
      as (added & Heq & Hnd & Hadded & _).
    split; [eauto |]. rewrite Heq, fmap_app. apply NoDup_app.
    split; [exact Hnodup |]. split; [| exact Hnd].
    intros o Ho Hin. apply list_elem_of_fmap in Hin as (info & -> & Hin).
    now destruct (Hadded info Hin) as (_ & Hn & _).
Qed.

(** The stack depth that [get_owned_monitors] reports.  An entry with a
    depth other than [-1] names the first frame, counted from the top, that
    locks the object, and that depth is below [MaxJavaStackTraceDepth]; an
    entry with depth [-1] is a monitor that the closure found owned by the
    thread, or, when [MaxJavaStackTraceDepth] is [0], an object locked in
    some frame: with that setting no frame depth is reported at all. *)
Theorem get_owned_monitors_stack_depth (allocate : nat -> Jvmti.jvmtiError)
    (MaxJavaStackTraceDepth java_thread wait_obj pending_obj : Z)
    (jvf : list (list JvmtiMonitors.MonitorInfo)) (monitors : list (Z * Z))
    (owned : list JvmtiMonitors.jvmtiMonitorStackDepthInfo) :
  Z.of_nat (length jvf) < 2 ^ 31 ->
  let result :=
    JvmtiMonitors.get_owned_monitors allocate MaxJavaStackTraceDepth java_thread
      wait_obj pending_obj jvf monitors owned in
  exists added,
    result.2 = owned ++ added /\
    forall info, info ∈ added ->
      if info.2 =? -1
      then (MaxJavaStackTraceDepth = 0 /\
            exists (i : nat) mons,
              jvf !! i = Some mons /\
              JvmtiMonitors.locks wait_obj pending_obj mons info.1 = true)
           \/ (java_thread, info.1) ∈ monitors
      else MaxJavaStackTraceDepth <> 0 /\
           0 <= info.2 < MaxJavaStackTraceDepth /\
           exists mons,
             jvf !! Z.to_nat info.2 = Some mons /\
             JvmtiMonitors.locks wait_obj pending_obj mons info.1 = true /\
             forall (j : nat) mons_j,
               (j < Z.to_nat info.2)%nat -> jvf !! j = Some mons_j ->
               JvmtiMonitors.locks wait_obj pending_obj mons_j info.1 = false.
Proof.
  intros Hlen. cbn zeta.
  destruct (get_owned_monitors_spec allocate MaxJavaStackTraceDepth java_thread wait_obj
              pending_obj jvf monitors owned)
    as (on_stack & off_stack & Heq & Hnd & Hon & Hoff & _).
  exists (on_stack ++ off_stack). split; [exact Heq |].
  intros info Hin. apply elem_of_app in Hin as [Hin | Hin].
  - destruct (Hon info Hin) as (_ & i & mons & Hi & Hl & Hd). specialize (Hd Hlen).
    destruct (Z.eqb_spec MaxJavaStackTraceDepth 0) as [Hmax0 | Hmax0].
    + rewrite Hd. cbn. left. eauto.
    + destruct Hd as (Hd & Hmax & Hfirst).
      destruct (Z.eqb_spec info.2 (-1)) as [Hminus | _]; [lia |].
      split; [exact Hmax0 |]. split; [lia |].
      rewrite Hd, Nat2Z.id. eauto.
  - destruct (Hoff info Hin) as (Hd & _ & Hm). rewrite Hd. cbn. now right.
Qed.

Lemma count_in_frame_unchanged (hobj : Z) (mons : list JvmtiMonitors.MonitorInfo) :
  forall ret : Z,
  existsb (fun mi => negb (JvmtiMonitors.owner_is_scalar_replaced mi)
                     && (JvmtiMonitors.owner mi =? hobj)) mons
  && negb (hobj =? nullptr) = false ->
  JvmtiMonitors.count_in_frame hobj mons ret = ret.
Proof.
  induction mons as [| mi mons IH]; intros ret Hnone; [reflexivity |].
  cbn [existsb] in Hnone. cbn [JvmtiMonitors.count_in_frame].
  destruct (JvmtiMonitors.owner_is_scalar_replaced mi); cbn in Hnone |- *.
  - now apply IH.
  - destruct (Z.eqb_spec (JvmtiMonitors.owner mi) hobj) as [-> | Hneq]; cbn in Hnone |- *.
    + rewrite Hnone. cbn. rewrite andb_false_l || idtac. apply IH.
      now rewrite Hnone, andb_false_r.
    + rewrite andb_false_r. now apply IH.
Qed.

Lemma count_in_frames_unchanged (hobj : Z) (jvf : list (list JvmtiMonitors.MonitorInfo)) :
  forall ret : Z,
  (forall mons, mons ∈ jvf ->
     existsb (fun mi => negb (JvmtiMonitors.owner_is_scalar_replaced mi)
                        && (JvmtiMonitors.owner mi =? hobj)) mons
     && negb (hobj =? nullptr) = false) ->
  JvmtiMonitors.count_in_frames hobj jvf ret = ret.
Proof.
  induction jvf as [| mons sender IH]; intros ret Hnone; [reflexivity |].
  cbn [JvmtiMonitors.count_in_frames].
  rewrite count_in_frame_unchanged by (apply Hnone; now left).
  apply IH. intros mons' Hin. apply Hnone. now right.
Qed.

(** When [get_owned_monitors] returns without an error, its list holds
    every monitor that the closure found owned by the thread, and every
    object for which [count_locked_objects] is not [0], unless the thread
    waits for it or is pending on it, provided [MaxJavaStackTraceDepth] does
    not cut the walk off. *)
Theorem get_owned_monitors_complete (allocate : nat -> Jvmti.jvmtiError)
    (MaxJavaStackTraceDepth java_thread wait_obj pending_obj : Z)
    (jvf : list (list JvmtiMonitors.MonitorInfo)) (monitors : list (Z * Z))
    (owned : list JvmtiMonitors.jvmtiMonitorStackDepthInfo) :
  Z.of_nat (length jvf) < 2 ^ 31 ->
  (JvmtiMonitors.get_owned_monitors allocate MaxJavaStackTraceDepth java_thread
     wait_obj pending_obj jvf monitors owned).1 = Jvmti.JVMTI_ERROR_NONE ->
  let result :=
    JvmtiMonitors.get_owned_monitors allocate MaxJavaStackTraceDepth java_thread
      wait_obj pending_obj jvf monitors owned in
  (forall obj, (java_thread, obj) ∈ monitors -> obj ∈ (fst <$> result.2)) /\
  (forall hobj,
     JvmtiMonitors.count_locked_objects true jvf hobj <> 0 ->
     hobj <> wait_obj -> hobj <> pending_obj ->
     MaxJavaStackTraceDepth = 0 \/ Z.of_nat (length jvf) <= MaxJavaStackTraceDepth ->
     hobj ∈ (fst <$> result.2)).
Proof.
  intros Hlen Herr. cbn zeta.
  destruct (get_owned_monitors_spec allocate MaxJavaStackTraceDepth java_thread wait_obj
              pending_obj jvf monitors owned)
    as (on_stack & off_stack & Heq & Hnd & Hon & Hoff & Hall).
  destruct (Hall Herr) as [Hclosure Hframes].
  split; [exact Hclosure |].
  intros hobj Hcount Hwait Hpending Hmax.
  unfold JvmtiMonitors.count_locked_objects in Hcount. cbn in Hcount.
  destruct (decide (Exists
              (fun mons => JvmtiMonitors.locks wait_obj pending_obj mons hobj = true) jvf))
    as [Hex | Hnone].
  - apply Exists_exists in Hex as (mons & Hin & Hl).
    apply list_elem_of_lookup_1 in Hin as [i Hi].
    apply (Hframes Hlen i mons hobj Hi); [| exact Hl].
    destruct Hmax as [Hmax | Hmax]; [now left |].
    right. apply lookup_lt_Some in Hi. lia.
  - exfalso. apply Hcount. apply count_in_frames_unchanged.
    intros mons Hin.
    destruct (existsb _ mons && negb (hobj =? nullptr)) eqn:Hq; [| reflexivity].
    exfalso. apply Hnone. apply Exists_exists. exists mons. split; [exact Hin |].
    unfold JvmtiMonitors.locks.
    apply andb_true_iff in Hq as [Hq1 Hq2]. rewrite Hq1, Hq2. cbn.
    destruct (Z.eqb_spec wait_obj hobj); [congruence |].
    destruct (Z.eqb_spec pending_obj hobj); [congruence | reflexivity].
Qed.

(** ** The collector of stack traces *)

Lemma fill_stacks_spec (capacity : Z) (nodes : list MultipleStackTracesCollector.jvmtiStackInfo) :
  forall b : MultipleStackTracesCollector.block,
  Forall MultipleStackTracesCollector.node_ok nodes ->
  (length nodes <= MultipleStackTracesCollector.si b)%nat ->
  (MultipleStackTracesCollector.si b
   <= length (MultipleStackTracesCollector._stack_info b))%nat ->
  Z.of_nat (length (MultipleStackTracesCollector.frame_infos b))
  + MultipleStackTracesCollector.total_frames nodes <= capacity ->
  exists b',
    MultipleStackTracesCollector.fill_stacks nodes capacity b = Some b' /\
    MultipleStackTracesCollector.si b'
    = (MultipleStackTracesCollector.si b - length nodes)%nat /\
    MultipleStackTracesCollector.frame_infos b'
    = MultipleStackTracesCollector.frame_infos b
      ++ concat (MultipleStackTracesCollector.copied_frames <$> nodes) /\
    MultipleStackTracesCollector._stack_info b'
    = take (MultipleStackTracesCollector.si b - length nodes)
           (MultipleStackTracesCollector._stack_info b)
      ++ (Some <$> reverse
            (MultipleStackTracesCollector.layout nodes
               (length (MultipleStackTracesCollector.frame_infos b))))
      ++ drop (MultipleStackTracesCollector.si b)
              (MultipleStackTracesCollector._stack_info b).
Proof.
  induction nodes as [| sin next IH]; intros [infos frames si] Hok Hsi Hlen Hcap;
    cbn [MultipleStackTracesCollector.si MultipleStackTracesCollector.frame_infos
         MultipleStackTracesCollector._stack_info] in *.
  - eexists. split; [reflexivity |]. cbn.
    rewrite Nat.sub_0_r, app_nil_r, take_drop. auto.
  - apply Forall_cons in Hok as [[Hcount Hbuffer] Hok].
    cbn [length] in Hsi. destruct si as [| si']; [lia |].
    cbn [MultipleStackTracesCollector.total_frames foldr] in Hcap.
    fold (MultipleStackTracesCollector.total_frames next) in Hcap.
    assert (Hnext_nonneg : 0 <= MultipleStackTracesCollector.total_frames next).
    { clear -Hok. unfold MultipleStackTracesCollector.total_frames.
      induction Hok as [| x l [Hx _] _ IHl]; cbn [foldr]; lia. }
    cbn [MultipleStackTracesCollector.fill_stacks MultipleStackTracesCollector.si
         MultipleStackTracesCollector.frame_infos
         MultipleStackTracesCollector._stack_info].
    assert (Hslots : forall x : option MultipleStackTracesCollector.stack_info_out,
              forall tail : list MultipleStackTracesCollector.stack_info_out,
              take (si' - length next) (<[si' := x]> infos)
              ++ (Some <$> reverse tail) ++ drop si' (<[si' := x]> infos)
              = take (S si' - length (sin :: next)) infos
                ++ ((Some <$> reverse tail) ++ [x]) ++ drop (S si') infos).
    { intros x tail. rewrite take_insert_ge by lia.
      rewrite (insert_take_drop infos si' x) by lia.
      rewrite drop_app_length' by (rewrite length_take; lia).
      cbn [length]. replace (S si' - S (length next))%nat with (si' - length next)%nat by lia.
      now rewrite <- !app_assoc. }
    destruct (Z.eqb_spec (MultipleStackTracesCollector.frame_count sin) 0) as [Hzero | Hnonzero].
    + destruct (IH (MultipleStackTracesCollector.mk_block
                      (<[si' := Some (MultipleStackTracesCollector.thread sin,
                                      MultipleStackTracesCollector.state sin,
                                      MultipleStackTracesCollector.frame_count sin, None)]>
                         infos) frames si'))
        as (b' & Hrun & Hsi' & Hframes & Hinfos);
        cbn [MultipleStackTracesCollector.si MultipleStackTracesCollector.frame_infos
             MultipleStackTracesCollector._stack_info];
        try lia; try exact Hok.
      { rewrite length_insert. lia. }
      exists b'. split; [exact Hrun |]. split; [rewrite Hsi'; cbn; lia |].
      cbn [MultipleStackTracesCollector.si MultipleStackTracesCollector.frame_infos
           MultipleStackTracesCollector._stack_info] in Hframes, Hinfos. split.
      * rewrite Hframes. cbn [fmap list_fmap concat].
        unfold MultipleStackTracesCollector.copied_frames at 2.
        rewrite Hzero. reflexivity.
      * rewrite Hinfos, Hslots.
        cbn [MultipleStackTracesCollector.layout]. rewrite Hzero.
        change (Z.to_nat 0) with 0%nat.
        rewrite Z.eqb_refl, Nat.add_0_r, reverse_cons, fmap_app. reflexivity.
    + destruct (Hbuffer Hnonzero) as (buffer & Hbuf & Hle). rewrite Hbuf.
      replace ((MultipleStackTracesCollector.frame_count sin <? 0)
               || (Z.of_nat (length buffer) <? MultipleStackTracesCollector.frame_count sin)
               || (capacity <? Z.of_nat (length frames)
                               + MultipleStackTracesCollector.frame_count sin))
        with false.
      2:{ symmetry. rewrite !orb_false_iff. repeat split; apply Z.ltb_ge; lia. }
      assert (Hcopied : length (take (Z.to_nat (MultipleStackTracesCollector.frame_count sin))
                                     buffer)
                        = Z.to_nat (MultipleStackTracesCollector.frame_count sin))
        by (rewrite length_take; lia).
      destruct (IH (MultipleStackTracesCollector.mk_block
                      (<[si' := Some (MultipleStackTracesCollector.thread sin,
                                      MultipleStackTracesCollector.state sin,
                                      MultipleStackTracesCollector.frame_count sin,
                                      Some (length frames))]> infos)
                      (frames ++ take (Z.to_nat (MultipleStackTracesCollector.frame_count sin))
                                      buffer) si'))
        as (b' & Hrun & Hsi' & Hframes & Hinfos);
        cbn [MultipleStackTracesCollector.si MultipleStackTracesCollector.frame_infos
             MultipleStackTracesCollector._stack_info];
        try lia; try exact Hok.
      { rewrite length_insert. lia. }
      { rewrite length_app, Hcopied. lia. }
      exists b'. split; [exact Hrun |]. split; [rewrite Hsi'; cbn; lia |].
      cbn [MultipleStackTracesCollector.si MultipleStackTracesCollector.frame_infos
           MultipleStackTracesCollector._stack_info] in Hframes, Hinfos. split.
      * rewrite Hframes. cbn [fmap list_fmap concat].
        unfold MultipleStackTracesCollector.copied_frames at 2.
        rewrite Hbuf. cbn [default]. now rewrite <- app_assoc.
      * rewrite Hinfos, Hslots. rewrite length_app, Hcopied.
        cbn [MultipleStackTracesCollector.layout].
        destruct (Z.eqb_spec (MultipleStackTracesCollector.frame_count sin) 0);
          [contradiction |].
        rewrite reverse_cons, fmap_app. reflexivity.
Qed.

Lemma allocate_and_fill_stacks_spec (thread_count : Z) (c : MultipleStackTracesCollector.t) :
  Forall MultipleStackTracesCollector.node_ok (MultipleStackTracesCollector._head c) ->
  thread_count = Z.of_nat (length (MultipleStackTracesCollector._head c)) ->
  MultipleStackTracesCollector.total_frames (MultipleStackTracesCollector._head c)
  <= MultipleStackTracesCollector._frame_count_total c ->
  exists b,
    MultipleStackTracesCollector.allocate_and_fill_stacks thread_count c = Some b /\
    MultipleStackTracesCollector.si b = 0%nat /\
    MultipleStackTracesCollector._stack_info b
    = (Some <$> reverse (MultipleStackTracesCollector.layout
                           (MultipleStackTracesCollector._head c) 0)) /\
    MultipleStackTracesCollector.frame_infos b
    = concat (MultipleStackTracesCollector.copied_frames
                <$> MultipleStackTracesCollector._head c).
Proof.
  intros Hok -> Hcap. unfold MultipleStackTracesCollector.allocate_and_fill_stacks.
  destruct (Z.ltb_spec (Z.of_nat (length (MultipleStackTracesCollector._head c))) 0);
    [lia |].
  rewrite Nat2Z.id.
  destruct (fill_stacks_spec (MultipleStackTracesCollector._frame_count_total c)
              (MultipleStackTracesCollector._head c)
              (MultipleStackTracesCollector.mk_block
                 (replicate (length (MultipleStackTracesCollector._head c)) None) []
                 (length (MultipleStackTracesCollector._head c))))
    as (b & Hrun & Hsi & Hframes & Hinfos); cbn; try lia; try exact Hok.
  { rewrite length_replicate. lia. }
  exists b. split; [exact Hrun |]. cbn in Hsi, Hframes, Hinfos.
  split; [lia |]. split; [| exact Hframes].
  rewrite Hinfos, Nat.sub_diag. cbn [take app].
  rewrite drop_ge by (rewrite length_replicate; lia). now rewrite app_nil_r.
Qed.

(** [allocate_and_fill_stacks] writes the stack infos from the back and the
    frames from the front.  With [thread_count] the number of nodes of the
    list, every node with a buffer that holds its [frame_count] frames, and
    room for the frames, the stack infos of the block are those of the list
    in reverse order, each with [frame_buffer] at its own frames or [NULL]
    without frames, the frames follow in list order, and [si] ends at the
    start of the block, as the first assertion of the function asks. *)
Theorem allocate_and_fill_stacks_layout (thread_count : Z)
    (c : MultipleStackTracesCollector.t) :
  Forall MultipleStackTracesCollector.node_ok (MultipleStackTracesCollector._head c) ->
  thread_count = Z.of_nat (length (MultipleStackTracesCollector._head c)) ->
  MultipleStackTracesCollector.total_frames (MultipleStackTracesCollector._head c)
  <= MultipleStackTracesCollector._frame_count_total c ->
  exists b,
    MultipleStackTracesCollector.allocate_and_fill_stacks thread_count c = Some b /\
    MultipleStackTracesCollector.si b = 0%nat /\
    MultipleStackTracesCollector._stack_info b
    = (Some <$> reverse (MultipleStackTracesCollector.layout
                           (MultipleStackTracesCollector._head c) 0)) /\
    MultipleStackTracesCollector.frame_infos b
    = concat (MultipleStackTracesCollector.copied_frames
                <$> MultipleStackTracesCollector._head c).
Proof. apply allocate_and_fill_stacks_spec. Qed.

Lemma stack_info_for_ok `{JvmtiThreadState.Constants}
    (can_support_virtual_threads : bool) (max_frame_count jt : Z)
    (thr : option (JvmtiThreadState.JavaThread * JvmtiStack.JavaThread))
    (thread_oop : MultipleStackTracesCollector.thread_oop)
    (info : MultipleStackTracesCollector.jvmtiStackInfo)
    (result : option Jvmti.jvmtiError) :
  MultipleStackTracesCollector.stack_info_for can_support_virtual_threads
    max_frame_count jt thr thread_oop = Some (info, result) ->
  MultipleStackTracesCollector.thread info = jt /\
  Z.of_nat (length (default [] (MultipleStackTracesCollector.frame_buffer info)))
  = MultipleStackTracesCollector.frame_count info.
Proof.
  unfold MultipleStackTracesCollector.stack_info_for.
  destruct thread_oop as [status ext_suspended interrupted v | thread_status].
  - destruct (negb (Z.land _ _ =? 0)).
    + unfold JvmtiStack.get_stack_trace. cbn. intros [= <- <-]. now cbn.
    + intros [= <- <-]. now cbn.
  - destruct thr as [[flags java_thread] |]; [| intros [= <- <-]; now cbn].
    destruct (negb (Z.land _ _ =? 0)); [| intros [= <- <-]; now cbn].
    unfold JvmtiStack.get_stack_trace_thread, JvmtiStack.get_stack_trace.
    destruct (JvmtiStack.has_last_Java_frame java_thread); cbn;
      intros [= <- <-]; now cbn.
Qed.

Lemma counted_node_ok (sin : MultipleStackTracesCollector.jvmtiStackInfo) :
  Z.of_nat (length (default [] (MultipleStackTracesCollector.frame_buffer sin)))
  = MultipleStackTracesCollector.frame_count sin ->
  MultipleStackTracesCollector.node_ok sin.
Proof.
  intros Hcount. split; [lia |]. intros Hnonzero.
  destruct (MultipleStackTracesCollector.frame_buffer sin) as [buffer |].
  - exists buffer. split; [reflexivity |]. cbn in Hcount. lia.
  - cbn in Hcount. lia.
Qed.

Lemma total_frames_app (l1 l2 : list MultipleStackTracesCollector.jvmtiStackInfo) :
  MultipleStackTracesCollector.total_frames (l1 ++ l2)
  = MultipleStackTracesCollector.total_frames l1
    + MultipleStackTracesCollector.total_frames l2.
Proof.
  unfold MultipleStackTracesCollector.total_frames.
  induction l1 as [| sin l1 IH]; cbn [app foldr]; lia.
Qed.

Lemma total_frames_reverse (l : list MultipleStackTracesCollector.jvmtiStackInfo) :
  MultipleStackTracesCollector.total_frames (reverse l)
  = MultipleStackTracesCollector.total_frames l.
Proof.
  induction l as [| sin l IH]; [reflexivity |].
  rewrite reverse_cons, total_frames_app, IH.
  unfold MultipleStackTracesCollector.total_frames. cbn [foldr]. lia.
Qed.

Lemma total_frames_counted (l : list MultipleStackTracesCollector.jvmtiStackInfo) :
  Forall (fun sin =>
            Z.of_nat (length (default [] (MultipleStackTracesCollector.frame_buffer sin)))
            = MultipleStackTracesCollector.frame_count sin) l ->
  Z.of_nat (length (concat (MultipleStackTracesCollector.copied_frames <$> l)))
  = MultipleStackTracesCollector.total_frames l.
Proof.
  unfold MultipleStackTracesCollector.total_frames.
  induction 1 as [| sin l Hsin _ IH]; [reflexivity |].
  cbn [fmap list_fmap concat foldr]. rewrite length_app, Nat2Z.inj_add, IH.
  unfold MultipleStackTracesCollector.copied_frames. rewrite length_take. lia.
Qed.

Lemma layout_slices (l : list MultipleStackTracesCollector.jvmtiStackInfo) :
  forall (offset : nat) (prefix : list (Z * Z)) (b : MultipleStackTracesCollector.block),
  Forall (fun sin =>
            Z.of_nat (length (default [] (MultipleStackTracesCollector.frame_buffer sin)))
            = MultipleStackTracesCollector.frame_count sin) l ->
  length prefix = offset ->
  MultipleStackTracesCollector.frame_infos b
  = prefix ++ concat (MultipleStackTracesCollector.copied_frames <$> l) ->
  Forall2 (fun sin out =>
             out.1 = (MultipleStackTracesCollector.thread sin,
                      MultipleStackTracesCollector.state sin,
                      MultipleStackTracesCollector.frame_count sin) /\
             MultipleStackTracesCollector.frames_at b out
             = default [] (MultipleStackTracesCollector.frame_buffer sin))
          l (MultipleStackTracesCollector.layout l offset).
Proof.
  induction l as [| sin l IH]; intros offset prefix b Hok Hprefix Hframes;
    [constructor |].
  apply Forall_cons in Hok as [Hsin Hok].
  assert (Hcopied : MultipleStackTracesCollector.copied_frames sin
                    = default [] (MultipleStackTracesCollector.frame_buffer sin))
    by (unfold MultipleStackTracesCollector.copied_frames; apply take_ge; lia).
  cbn [fmap list_fmap concat] in Hframes. rewrite Hcopied in Hframes.
  cbn [MultipleStackTracesCollector.layout]. constructor.
  - split; [reflexivity |]. unfold MultipleStackTracesCollector.frames_at. cbn [fst snd].
    destruct (Z.eqb_spec (MultipleStackTracesCollector.frame_count sin) 0) as [Hzero | _].
    + destruct (default [] (MultipleStackTracesCollector.frame_buffer sin));
        [reflexivity | cbn in Hsin; lia].
    + rewrite Hframes, drop_app_length' by (symmetry; exact Hprefix).
      apply take_app_length'. lia.
  - apply (IH _ (prefix ++ default [] (MultipleStackTracesCollector.frame_buffer sin)));
      [exact Hok | rewrite length_app; lia | now rewrite <- app_assoc].
Qed.

Lemma fill_all_spec `{JvmtiThreadState.Constants} (can_support_virtual_threads : bool)
    (threads : list (Z * option (JvmtiThreadState.JavaThread * JvmtiStack.JavaThread)
                     * MultipleStackTracesCollector.thread_oop)) :
  forall c0 c : MultipleStackTracesCollector.t,
  MultipleStackTracesCollector.fill_all can_support_virtual_threads threads c0 = Some c ->
  exists nodes,
    Forall2 (fun th sin =>
               exists result,
                 MultipleStackTracesCollector.stack_info_for can_support_virtual_threads
                   (MultipleStackTracesCollector.max_frame_count c0) th.1.1 th.1.2 th.2
                 = Some (sin, result)) threads nodes /\
    MultipleStackTracesCollector._head c
    = reverse nodes ++ MultipleStackTracesCollector._head c0 /\
    (0 <= MultipleStackTracesCollector._frame_count_total c0 ->
     MultipleStackTracesCollector._frame_count_total c0
     + MultipleStackTracesCollector.total_frames nodes < 2 ^ 31 ->
     MultipleStackTracesCollector._frame_count_total c
     = MultipleStackTracesCollector._frame_count_total c0
       + MultipleStackTracesCollector.total_frames nodes).
Proof.
  induction threads as [| [[jt thr] thread_oop] threads IH]; intros c0 c Hfill.
  - injection Hfill as <-. exists []. split; [constructor |].
    split; [reflexivity |]. intros _ _. cbn. lia.
  - cbn [MultipleStackTracesCollector.fill_all] in Hfill.
    unfold MultipleStackTracesCollector.fill_frames in Hfill.
    destruct (MultipleStackTracesCollector.stack_info_for _ _ jt thr thread_oop)
      as [[info result] |] eqn:Hinfo; [| discriminate].
    destruct (IH _ c Hfill) as (nodes & Hnodes & Hhead & Htotal).
    cbn [MultipleStackTracesCollector.max_frame_count
         MultipleStackTracesCollector._head
         MultipleStackTracesCollector._frame_count_total] in Hnodes, Hhead, Htotal.
    exists (info :: nodes). split; [constructor; [eauto | exact Hnodes] |].
    split; [rewrite Hhead, reverse_cons, <- app_assoc; reflexivity |].
    intros Hnonneg Hbound.
    destruct (stack_info_for_ok _ _ _ _ _ _ _ Hinfo) as [_ Hcount].
    assert (Hrest : 0 <= MultipleStackTracesCollector.total_frames nodes).
    { clear -Hnodes. unfold MultipleStackTracesCollector.total_frames.
      induction Hnodes as [| th sin ths sins [r Hsin] _ IHn]; cbn [foldr]; [lia |].
      destruct (stack_info_for_ok _ _ _ _ _ _ _ Hsin) as [_ Hc]. lia. }
    unfold MultipleStackTracesCollector.total_frames in Hbound |- *. cbn [foldr] in Hbound |- *.
    fold (MultipleStackTracesCollector.total_frames nodes) in Hbound |- *.
    rewrite Htotal; rewrite int_wrap_id by lia; lia.
Qed.

Lemma Forall2_compose {A B C : Type} (P : A -> B -> Prop) (Q : B -> C -> Prop)
    (la : list A) (lb : list B) (lc : list C) :
  Forall2 P la lb -> Forall2 Q lb lc ->
  Forall2 (fun a c => exists b, P a b /\ Q b c) la lc.
Proof.
  intros HP. revert lc. induction HP as [| a b la lb Hab _ IH]; intros lc HQ.
  - inversion HQ. constructor.
  - inversion HQ as [| b' c lb' lc' Hbc Hrest]; subst. constructor; eauto.
Qed.

(** The block that [allocate_and_fill_stacks] returns after [fill_frames]
    was called for the threads of a list has the stack infos in the order of
    that list, although the nodes are linked in reverse: the stack info at
    index [i] carries the thread, state and frame count of thread [i], and
    its [frame_buffer] leads to the frames of the stack trace of that
    thread.  Both assertions of the function hold: [si] ends at the start of
    the block and the frames fill it to the end. *)
Theorem stack_traces_in_thread_order `{JvmtiThreadState.Constants}
    (can_support_virtual_threads : bool)
    (threads : list (Z * option (JvmtiThreadState.JavaThread * JvmtiStack.JavaThread)
                     * MultipleStackTracesCollector.thread_oop))
    (c0 c : MultipleStackTracesCollector.t) :
  MultipleStackTracesCollector._head c0 = [] ->
  MultipleStackTracesCollector._frame_count_total c0 = 0 ->
  MultipleStackTracesCollector.fill_all can_support_virtual_threads threads c0 = Some c ->
  MultipleStackTracesCollector.total_frames (MultipleStackTracesCollector._head c) < 2 ^ 31 ->
  exists b,
    MultipleStackTracesCollector.allocate_and_fill_stacks (Z.of_nat (length threads)) c
    = Some b /\
    MultipleStackTracesCollector.si b = 0%nat /\
    Z.of_nat (length (MultipleStackTracesCollector.frame_infos b))
    = MultipleStackTracesCollector._frame_count_total c /\
    Forall2 (fun th slot =>
               exists sin result out,
                 MultipleStackTracesCollector.stack_info_for can_support_virtual_threads
                   (MultipleStackTracesCollector.max_frame_count c0) th.1.1 th.1.2 th.2
                 = Some (sin, result) /\
                 slot = Some out /\
                 out.1 = (th.1.1, MultipleStackTracesCollector.state sin,
                          MultipleStackTracesCollector.frame_count sin) /\
                 MultipleStackTracesCollector.frames_at b out
                 = default [] (MultipleStackTracesCollector.frame_buffer sin))
            threads (MultipleStackTracesCollector._stack_info b).
Proof.
  intros Hhead0 Htotal0 Hfill Hbound.
  destruct (fill_all_spec _ _ _ _ Hfill) as (nodes & Hnodes & Hhead & Htotal).
  rewrite Hhead0, app_nil_r in Hhead. rewrite Hhead, total_frames_reverse in Hbound.
  rewrite Htotal0 in Htotal. specialize (Htotal ltac:(lia) ltac:(lia)).
  assert (Hcounted : Forall (fun sin =>
            Z.of_nat (length (default [] (MultipleStackTracesCollector.frame_buffer sin)))
            = MultipleStackTracesCollector.frame_count sin) nodes).
  { clear -Hnodes. induction Hnodes as [| th sin ths sins [r Hsin] _ IHn]; constructor;
      [| exact IHn].
    now destruct (stack_info_for_ok _ _ _ _ _ _ _ Hsin). }
  assert (Hcounted' : Forall (fun sin =>
            Z.of_nat (length (default [] (MultipleStackTracesCollector.frame_buffer sin)))
            = MultipleStackTracesCollector.frame_count sin) (reverse nodes))
    by now apply Forall_reverse.
  destruct (allocate_and_fill_stacks_spec (Z.of_nat (length threads)) c)
    as (b & Hrun & Hsi & Hinfos & Hframes).
  { rewrite Hhead. eapply Forall_impl; [exact Hcounted' |]. apply counted_node_ok. }
  { rewrite Hhead, length_reverse. f_equal. eapply Forall2_length; exact Hnodes. }
  { rewrite Hhead, total_frames_reverse. lia. }
  exists b. split; [exact Hrun |]. split; [exact Hsi |].
  rewrite Hhead in Hframes, Hinfos.
  split.
  { rewrite Hframes, total_frames_counted by exact Hcounted'.
    rewrite total_frames_reverse. lia. }
  rewrite Hinfos.
  pose proof (layout_slices (reverse nodes) 0 [] b Hcounted' eq_refl Hframes) as Hslices.
  apply Forall2_reverse in Hslices. rewrite reverse_involutive in Hslices.
  assert (Hslots :
    Forall2 (fun sin slot =>
               exists out : MultipleStackTracesCollector.stack_info_out,
                 slot = Some out /\
                 out.1 = (MultipleStackTracesCollector.thread sin,
                          MultipleStackTracesCollector.state sin,
                          MultipleStackTracesCollector.frame_count sin) /\
                 MultipleStackTracesCollector.frames_at b out
                 = default [] (MultipleStackTracesCollector.frame_buffer sin))
            nodes
            (Some <$> reverse (MultipleStackTracesCollector.layout (reverse nodes) 0))).
  { apply Forall2_fmap_r. eapply Forall2_impl; [exact Hslices |].
    intros sin out [Hout Hat]. exists out. auto. }
  pose proof (Forall2_compose _ _ _ _ _ Hnodes Hslots) as Hall.
  eapply Forall2_impl; [exact Hall |].
  intros th slot (sin & [result Hsin] & out & -> & Hout & Hat).
  exists sin, result, out. split; [exact Hsin |]. split; [reflexivity |].
  destruct (stack_info_for_ok _ _ _ _ _ _ _ Hsin) as [Hjt _].
  split; [rewrite Hout, Hjt; reflexivity | exact Hat].
Qed.

(** ** The JVMTI theorems at concrete inputs *)
Section JvmtiExamples.

#[local] Existing Instance example_magic.
#[local] Existing Instance example_thread_states.

Lemma frame_location_agrees_with_stack_trace_witness :
  exists x,
    JvmtiEnvBase.get_frame_location example_vthread 1
    = (JvmtiEnvBase.JVMTI_ERROR_NONE, Some x) /\
    JvmtiStack.get_stack_trace (JvmtiEnvBase.get_vthread_jvf example_vthread) 1 1
    = Some (Jvmti.JVMTI_ERROR_NONE, Some 1, [x]).
Proof.
  exact (frame_location_agrees_with_stack_trace example_vthread 1
           ltac:(lia) ltac:(vm_compute; reflexivity)).
Defined.

Lemma stack_trace_entries_are_frame_locations_witness :
  JvmtiEnvBase.get_frame_location example_vthread 1
  = (JvmtiEnvBase.JVMTI_ERROR_NONE, Some (22, -1)).
Proof.
  exact (stack_trace_entries_are_frame_locations example_vthread 2 1 (22, -1)
           (Some 2) [(11, 5); (22, -1)] eq_refl eq_refl).
Defined.

Lemma get_frame_location_overloads_agree_witness :
  JvmtiStack.get_frame_location true true (fun _ => true) example_java_thread 1
  = Some (Jvmti.JVMTI_ERROR_NONE, Some (22, -1)).
Proof.
  rewrite (get_frame_location_overloads_agree true true (fun _ => true)
             example_java_thread 1 eq_refl);
    [reflexivity | repeat constructor].
Defined.

Lemma no_last_Java_frame_is_empty_stack_witness :
  JvmtiStack.get_frame_count_thread true example_idle_thread = 0 /\
  JvmtiStack.get_frame_location true true (fun _ => true) example_idle_thread 0
  = Some (Jvmti.JVMTI_ERROR_NO_MORE_FRAMES, None) /\
  JvmtiStack.get_stack_trace_thread true example_idle_thread 1 5
  = Some (Jvmti.JVMTI_ERROR_ILLEGAL_ARGUMENT, Some 0, []).
Proof.
  destruct (no_last_Java_frame_is_empty_stack true true (fun _ => true)
              example_idle_thread 0 1 5 eq_refl) as (Hcount & Hlocation & Htrace & _).
  split; [exact Hcount |]. split; [exact Hlocation | exact Htrace].
Defined.

Lemma set_native_method_prefixes_failure_atomic_witness :
  exists out,
    JvmtiEnvironment.set_native_method_prefixes example_env_with_prefixes example_strings
      3 example_prefixes 900 example_strdup = Some out /\
    JvmtiEnvironment.error out = Jvmti.JVMTI_ERROR_NULL_POINTER /\
    JvmtiEnvironment.environment out = example_env_with_prefixes /\
    JvmtiEnvironment.freed out = [800; 900].
Proof.
  assert (Hrun : exists out,
            JvmtiEnvironment.set_native_method_prefixes example_env_with_prefixes
              example_strings 3 example_prefixes 900 example_strdup = Some out /\
            JvmtiEnvironment.error out = Jvmti.JVMTI_ERROR_NULL_POINTER /\
            JvmtiEnvironment.freed out = [800; 900])
    by (eexists; split; [reflexivity | split; reflexivity]).
  destruct Hrun as (out & Hrun & Herror & Hfreed).
  pose proof (set_native_method_prefixes_failure_atomic example_env_with_prefixes
                example_strings 3 example_prefixes 900 example_strdup out Hrun) as Hatomic.
  rewrite Herror in Hatomic. destruct Hatomic as [Henv _].
  exists out. auto.
Defined.

Lemma set_native_method_prefixes_first_failure_witness :
  exists out,
    JvmtiEnvironment.set_native_method_prefixes example_env_with_prefixes example_strings
      3 example_prefixes 900 example_strdup = Some out /\
    JvmtiEnvironment.error out = Jvmti.JVMTI_ERROR_NULL_POINTER /\
    JvmtiEnvironment.environment out = example_env_with_prefixes /\
    JvmtiEnvironment.freed out = [800; 900] /\
    (810 ∉ JvmtiEnvironment.freed out) /\
    is_Some (JvmtiEnvironment.strings_after out !! 810).
Proof.
  destruct (set_native_method_prefixes_first_failure example_env_with_prefixes
              example_strings 3 example_prefixes 900 example_strdup 2)
    as (out & Hrun & Herror & Henv & Hfreed & Hleak).
  - reflexivity.
  - unfold nullptr. lia.
  - cbn. lia.
  - intros [| [| j]] Hj; [split; vm_compute; discriminate .. | lia].
  - intros [| [| [| j]]] Hj Hprefix;
      [eexists; reflexivity | eexists; reflexivity | contradiction | lia].
  - left. reflexivity.
  - apply (bool_decide_unpack _). vm_compute. exact I.
  - destruct (Hleak ltac:(lia)) as [Hnot_freed Hstill].
    exists out. repeat split; assumption.
Defined.

Lemma set_native_method_prefixes_success_witness :
  exists out,
    JvmtiEnvironment.set_native_method_prefixes example_env_with_prefixes example_strings
      2 example_prefixes 900 example_strdup = Some out /\
    JvmtiEnvironment.error out = Jvmti.JVMTI_ERROR_NONE /\
    JvmtiEnvironment.environment out
    = JvmtiEnvironment.install_prefixes example_env_with_prefixes 2 900 [800; 810] /\
    JvmtiEnvironment.freed out = [510; 520; 500] /\
    JvmtiEnvironment.strings_after out !! 810 = Some "trace_"%string.
Proof.
  destruct (set_native_method_prefixes_success example_env_with_prefixes
              example_strings 2 example_prefixes 900 example_strdup)
    as (out & Hrun & Herror & Henv & Hfreed & Hcopies).
  - reflexivity.
  - lia.
  - unfold nullptr. lia.
  - intros [| [| j]] Hj;
      [split; [| split]; [vm_compute; discriminate .. | eexists; reflexivity] .. | cbn in Hj; lia].
  - apply (bool_decide_unpack _). vm_compute. exact I.
  - intros [| [| j]] [| [| k]] Hj Hk; cbn in Hj, Hk; try lia; vm_compute; discriminate.
  - intros [| [| j]] Hj; [apply (bool_decide_unpack _); vm_compute; exact I .. | cbn in Hj; lia].
  - exists out. split; [exact Hrun |]. split; [exact Herror |].
    split; [exact Henv |]. split; [exact Hfreed |].
    exact (Hcopies 1%nat ltac:(cbn; lia)).
Defined.

Ltac build_env_list :=
  repeat lazymatch goal with
  | |- JvmtiEnvironment.env_list _ _ [] => apply JvmtiEnvironment.env_list_nil
  | |- JvmtiEnvironment.env_list ?h ?p (_ :: _) =>
      let r := eval vm_compute in (h !! p) in
      lazymatch r with
      | Some ?e =>
          apply (JvmtiEnvironment.env_list_cons h p e);
          [ vm_compute; discriminate | vm_compute; reflexivity | ]
      end
  end.

Lemma initialize_appends_witness :
  exists s',
    JvmtiEnvironment.initialize 3 4000 example_globals_with_new = Some s' /\
    JvmtiEnvironment.env_list (JvmtiEnvironment.envs s')
      (JvmtiEnvironment._head_environment s') [1000; 2000; 3000; 4000] /\
    JvmtiEnvironment._globally_initialized s' = true.
Proof.
  destruct (initialize_appends 3 4000 (example_env 29166 nullptr)
              example_globals_with_new [1000; 2000; 3000])
    as (s' & Hrun & Hlist & Hinit & _).
  - build_env_list.
  - vm_compute. discriminate.
  - reflexivity.
  - reflexivity.
  - apply (bool_decide_unpack _). vm_compute. exact I.
  - cbn. lia.
  - exists s'. auto.
Defined.

Lemma periodic_clean_up_keeps_valid_witness :
  exists s',
    JvmtiEnvironment.periodic_clean_up 3 example_globals = Some s' /\
    JvmtiEnvironment.env_list (JvmtiEnvironment.envs s')
      (JvmtiEnvironment._head_environment s') [1000; 3000] /\
    JvmtiEnvironment.envs s' !! 2000 = None.
Proof.
  destruct (periodic_clean_up_keeps_valid 3 example_globals [1000; 2000; 3000])
    as (s' & Hrun & Hlist & Hgone & _).
  - build_env_list.
  - cbn. lia.
  - exists s'. split; [exact Hrun |]. split; [exact Hlist |].
    apply Hgone; [apply (bool_decide_unpack _); vm_compute; exact I | reflexivity].
Defined.

Lemma env_dispose_then_clean_up_witness :
  exists s1 strings1 freed1 s2,
    JvmtiEnvironment.env_dispose (fun _ => false) 3000 example_globals example_strings
    = Some (s1, strings1, freed1) /\
    JvmtiEnvironment._needs_clean_up s1 = true /\
    JvmtiEnvironment.check_for_periodic_clean_up 3 [false; true] false s1 = Some s1 /\
    JvmtiEnvironment.check_for_periodic_clean_up 3 [false; false] false s1 = Some s2 /\
    JvmtiEnvironment._needs_clean_up s2 = false /\
    JvmtiEnvironment.envs s2 !! 3000 = None /\
    JvmtiEnvironment.env_list (JvmtiEnvironment.envs s2)
      (JvmtiEnvironment._head_environment s2) [1000].
Proof.
  assert (Hmagic : JvmtiEnvironment.JVMTI_MAGIC <> JvmtiEnvironment.DISPOSED_MAGIC)
    by (vm_compute; discriminate).
  assert (Hlist : JvmtiEnvironment.env_list (JvmtiEnvironment.envs example_globals)
                    (JvmtiEnvironment._head_environment example_globals)
                    [1000; 2000; 3000]) by build_env_list.
  assert (Hthis : 3000 ∈ [1000; 2000; 3000])
    by (apply (bool_decide_unpack _); vm_compute; exact I).
  assert (Hfuel : (length [1000; 2000; 3000] <= 3)%nat) by (cbn; lia).
  destruct (env_dispose_then_clean_up (fun _ => false) 3000 example_globals
              example_strings [1000; 2000; 3000] 3 [false; true] false
              Hmagic Hlist Hthis Hfuel)
    as (s1 & strings1 & freed1 & Hrun & Hneeds & _ & _ & Hblocked).
  destruct (env_dispose_then_clean_up (fun _ => false) 3000 example_globals
              example_strings [1000; 2000; 3000] 3 [false; false] false
              Hmagic Hlist Hthis Hfuel)
    as (s1' & strings1' & freed1' & Hrun' & _ & _ & _ & s2 & Hclean & Hcleared & Hgone & Hlist2).
  rewrite Hrun in Hrun'. injection Hrun' as <- <- <-.
  exists s1, strings1, freed1, s2. repeat split; assumption.
Defined.

Lemma get_all_native_method_prefixes_order_witness :
  JvmtiEnvironment.get_all_native_method_prefixes 3 example_globals example_strings
  = Some (["wrapped_"%string; "$$"%string], 2).
Proof.
  rewrite (get_all_native_method_prefixes_order 3 example_globals example_strings
             [1000; 2000; 3000]); [reflexivity | build_env_list | cbn; lia].
Defined.

Lemma native_method_prefixes_round_trip_witness :
  exists out,
    JvmtiEnvironment.set_native_method_prefixes (example_env 29166 2000) example_strings
      2 example_prefixes 900 example_strdup = Some out /\
    JvmtiEnvironment.get_all_native_method_prefixes 3
      (JvmtiEnvironment.mk_globals
         (<[1000 := JvmtiEnvironment.environment out]> example_envs) 1000 true true)
      (JvmtiEnvironment.strings_after out)
    = Some (["agent_"%string; "trace_"%string; "wrapped_"%string; "$$"%string], 4).
Proof.
  destruct (native_method_prefixes_round_trip 3 example_globals [1000; 2000; 3000] 1000
              (example_env 29166 2000) example_strings 2 example_prefixes 900
              example_strdup)
    as (out & Hrun & Hall).
  - build_env_list.
  - cbn. lia.
  - reflexivity.
  - reflexivity.
  - lia.
  - vm_compute. discriminate.
  - intros [| [| j]] Hj;
      [split; [| split]; [vm_compute; discriminate .. | eexists; reflexivity] .. | cbn in Hj; lia].
  - apply (bool_decide_unpack _). vm_compute. exact I.
  - intros [| [| j]] [| [| k]] Hj Hk; cbn in Hj, Hk; try lia; vm_compute; discriminate.
  - intros j Hj. cbn. apply not_elem_of_nil.
  - intros q e_q p Hq Hneq He_q Hp.
    apply elem_of_cons in Hq as [-> | Hq]; [contradiction |].
    apply elem_of_cons in Hq as [-> | Hq].
    + vm_compute in He_q. injection He_q as <-. cbn in Hp. inversion Hp.
    + apply list_elem_of_singleton in Hq as ->.
      vm_compute in He_q. injection He_q as <-. cbn in Hp.
      apply elem_of_cons in Hp as [-> | Hp];
        [| apply list_elem_of_singleton in Hp as ->];
        (split; [apply not_elem_of_nil | apply (bool_decide_unpack _); vm_compute; exact I]).
  - exists out. split; [exact Hrun | exact Hall].
Defined.

Lemma get_owned_monitors_no_duplicates_witness :
  (JvmtiMonitors.get_owned_monitors_thread example_allocate 10 1 true nullptr nullptr
     example_monitors [(1, 5); (2, 6); (1, 7)] []).2
  = [(7, 0); (8, 1); (5, -1)] /\
  NoDup (fst <$> (JvmtiMonitors.get_owned_monitors_thread example_allocate 10 1 true
                    nullptr nullptr example_monitors [(1, 5); (2, 6); (1, 7)] []).2).
Proof.
  destruct (get_owned_monitors_no_duplicates example_allocate 10 1 true nullptr nullptr
              example_monitors [(1, 5); (2, 6); (1, 7)] [] (NoDup_nil_2 (A:=Z)))
    as [_ Hnodup].
  split; [reflexivity | exact Hnodup].
Defined.

Lemma get_owned_monitors_stack_depth_witness :
  exists added,
    (JvmtiMonitors.get_owned_monitors example_allocate 0 1 nullptr nullptr
       example_monitors [(1, 5)] []).2 = [] ++ added /\
    added = [(7, -1); (8, -1); (5, -1)].
Proof.
  destruct (get_owned_monitors_stack_depth example_allocate 0 1 nullptr nullptr
              example_monitors [(1, 5)] [] ltac:(cbn; lia))
    as (added & Hadded & _).
  exists added. split; [exact Hadded |].
  vm_compute in Hadded. symmetry. exact Hadded.
Defined.

Lemma get_owned_monitors_complete_witness :
  5 ∈ (fst <$> (JvmtiMonitors.get_owned_monitors example_allocate 10 1 nullptr nullptr
                  example_monitors [(1, 5); (2, 6)] []).2) /\
  7 ∈ (fst <$> (JvmtiMonitors.get_owned_monitors example_allocate 10 1 nullptr nullptr
                  example_monitors [(1, 5); (2, 6)] []).2).
Proof.
  destruct (get_owned_monitors_complete example_allocate 10 1 nullptr nullptr
              example_monitors [(1, 5); (2, 6)] [] ltac:(cbn; lia) eq_refl)
    as [Hclosure Hcounted].
  split.
  - apply Hclosure. now left.
  - apply Hcounted; [vm_compute; discriminate .. | right; cbn; lia].
Defined.

Lemma allocate_and_fill_stacks_layout_witness :
  exists b,
    MultipleStackTracesCollector.allocate_and_fill_stacks 3 example_filled_collector
    = Some b /\
    MultipleStackTracesCollector.si b = 0%nat /\
    MultipleStackTracesCollector._stack_info b
    = [Some (1, 5, 2, Some 2%nat); Some (2, 2, 0, None); Some (3, 5, 2, Some 0%nat)] /\
    MultipleStackTracesCollector.frame_infos b = [(11, 5); (22, -1); (11, 5); (22, -1)].
Proof.
  apply (allocate_and_fill_stacks_layout 3 example_filled_collector).
  - repeat constructor; cbn; try lia;
      intros Hcount; try contradiction; eexists; (split; [reflexivity | cbn; lia]).
  - reflexivity.
  - vm_compute. discriminate.
Defined.

Lemma stack_traces_in_thread_order_witness :
  exists b,
    MultipleStackTracesCollector.allocate_and_fill_stacks 3 example_filled_collector
    = Some b /\
    MultipleStackTracesCollector.si b = 0%nat /\
    Z.of_nat (length (MultipleStackTracesCollector.frame_infos b)) = 4 /\
    MultipleStackTracesCollector._stack_info b
    = [Some (1, 5, 2, Some 2%nat); Some (2, 2, 0, None); Some (3, 5, 2, Some 0%nat)].
Proof.
  destruct (@stack_traces_in_thread_order example_thread_states true example_threads example_collector
              example_filled_collector eq_refl eq_refl ltac:(vm_compute; reflexivity)
              ltac:(vm_compute; reflexivity))
    as (b & Hrun & Hsi & Hfull & Hslots).
  exists b. split; [exact Hrun |]. split; [exact Hsi |]. split; [exact Hfull |].
  vm_compute in Hrun. injection Hrun as <-. reflexivity.
Defined.

End JvmtiExamples.

